(** * Bunny VTT converter: conversion pipeline

    A shallow embedding of the four utility modules of the converter
    (encoding normaliser, SRT parser, VTT generator, language detector)
    and the properties stated about them.

    Conventions of the embedding:
    - a JavaScript string is the list of its UTF-16 code units ([jsstring]);
    - a Node [Buffer] is a list of bytes;
    - a function that may [throw] returns a [result], the error being a
      constructor that stands for the message thrown;
    - a JavaScript number read from text or given by a literal is the double
      nearest to the integer written ([to_double]); counts and positions are
      natural numbers, scores are exact rationals. *)

From Stdlib Require Import List NArith ZArith QArith Qminmax Bool Lia.
From Stdlib Require Import Strings.String Strings.Ascii Strings.Byte Numbers.DecimalString.
From Stdlib Require Import Sorted Permutation.
From Equations Require Import Equations.
Import ListNotations.
Close Scope Q_scope.
Open Scope list_scope.

(** ** JavaScript strings and values *)

Module JS.

Definition jsstring := list N.

(** An ASCII literal of the source, as code units. *)
Definition lit (s : string) : jsstring :=
  map N_of_ascii (list_ascii_of_string s).

Definition LF : N := 10.
Definition CR : N := 13.
Definition TAB : N := 9.
Definition BOM : N := 65279.         (* U+FEFF *)
Definition REPLACEMENT : N := 65533. (* U+FFFD *)
Definition A_TILDE : N := 195.       (* U+00C3, A with tilde *)
Definition COMMA : N := 44.
Definition PERIOD : N := 46.
Definition COLON : N := 58.
Definition MINUS : N := 45.
Definition GT : N := 62.

Definition str_eqb (a b : jsstring) : bool :=
  if list_eq_dec N.eq_dec a b then true else false.

(** [\d] *)
Definition is_digit (c : N) : bool := (48 <=? c)%N && (c <=? 57)%N.

(** [[0-5]] *)
Definition is_digit05 (c : N) : bool := (48 <=? c)%N && (c <=? 53)%N.

(** [\s], which is also the set removed by [String.prototype.trim]:
    WhiteSpace and LineTerminator code units. *)
Definition is_space (c : N) : bool :=
  ((9 <=? c) && (c <=? 13) || (c =? 32) || (c =? 160) || (c =? 5760)
   || (8192 <=? c) && (c <=? 8202) || (c =? 8232) || (c =? 8233)
   || (c =? 8239) || (c =? 8287) || (c =? 12288) || (c =? 65279))%N.

Fixpoint drop_spaces (s : jsstring) : jsstring :=
  match s with
  | c :: s' => if is_space c then drop_spaces s' else s
  | [] => []
  end.

(** [s.trim()] *)
Definition trim (s : jsstring) : jsstring :=
  rev (drop_spaces (rev (drop_spaces s))).

(** [s.startsWith(p)] *)
Fixpoint startsWith (p s : jsstring) : bool :=
  match p, s with
  | [], _ => true
  | a :: p', b :: s' => (a =? b)%N && startsWith p' s'
  | _ :: _, [] => false
  end.

(** [s.includes(p)] *)
Fixpoint includes (p s : jsstring) : bool :=
  startsWith p s ||
  match s with
  | [] => false
  | _ :: s' => includes p s'
  end.

(** [s.includes(c)] for a one-unit needle. *)
Definition includes_unit (c : N) (s : jsstring) : bool :=
  existsb (N.eqb c) s.

(** [s.replace(a, b)] for one-unit strings [a], [b]: the first occurrence
    only. *)
Fixpoint replace_first (a b : N) (s : jsstring) : jsstring :=
  match s with
  | [] => []
  | c :: s' => if (c =? a)%N then b :: s' else c :: replace_first a b s'
  end.

(** [s.split(sep)] for a one-unit separator. *)
Fixpoint split_unit (sep : N) (s : jsstring) : list jsstring :=
  match s with
  | [] => [[]]
  | c :: s' =>
      if (c =? sep)%N then [] :: split_unit sep s'
      else match split_unit sep s' with
           | piece :: rest => (c :: piece) :: rest
           | [] => [[c]]
           end
  end.

(** [parts.join(sep)] *)
Fixpoint join (sep : jsstring) (parts : list jsstring) : jsstring :=
  match parts with
  | [] => []
  | [p] => p
  | p :: rest => p ++ sep ++ join sep rest
  end.

(** [/^\d+$/.test(s)] *)
Definition all_digits (s : jsstring) : bool :=
  match s with
  | [] => false
  | _ => forallb is_digit s
  end.

(** The integer that a string of decimal digits writes. *)
Definition parseInt_digits (s : jsstring) : Z :=
  fold_left (fun acc c => 10 * acc + (Z.of_N c - 48))%Z s 0%Z.

(** A Number that is an integer or [Infinity]. *)
Inductive number :=
| Finite (z : Z)
| Infinity.

Definition number_eqb (a b : number) : bool :=
  match a, b with
  | Finite x, Finite y => (x =? y)%Z
  | Infinity, Infinity => true
  | _, _ => false
  end.

(** The double nearest to an integer [z >= 0], ties going to the even
    significand: below 2^53 the integer itself; above, the 53 leading bits
    [q] of [z] rounded by the bits [r] that follow them; [Infinity] from
    2^1024 on. *)
Definition to_double (z : Z) : number :=
  (if z <? 2 ^ 53 then Finite z
   else
     let e := Z.log2 z - 52 in
     let q := Z.shiftr z e in
     let r := z - Z.shiftl q e in
     let half := 2 ^ (e - 1) in
     let q' :=
       if r <? half then q
       else if half <? r then q + 1
       else if Z.even q then q else q + 1 in
     let v := Z.shiftl q' e in
     if 2 ^ 1024 <=? v then Infinity else Finite v)%Z.

(** [parseInt(s, 10)] on a string of decimal digits (V8 rounds the integer
    written to the nearest double). *)
Definition parseInt (s : jsstring) : number := to_double (parseInt_digits s).

Definition decimal (n : Z) : jsstring :=
  lit (NilEmpty.string_of_int (Z.to_int n)).

(** [Number::toString] on a double that is an integer [v >= 0].  The digits
    are the shortest decimal [c] of [k] digits, followed by zeros, that the
    double nearest to it is [v]; of two such decimals the nearer to [v], then
    the even one.  [shortest] tries [k] = 1, 2, ... and returns [c] and the
    power of ten it is multiplied by. *)
Fixpoint shortest (fuel k : nat) (v : Z) (n0 : nat) : Z * Z :=
  match fuel with
  | 0 => (v, 1%Z)
  | S fuel' =>
      let unit := (10 ^ Z.of_nat (n0 - k))%Z in
      let lo := (v / unit)%Z in
      let hi := (lo + 1)%Z in
      let ok c := number_eqb (to_double (c * unit)) (Finite v) in
      match ok lo, ok hi with
      | true, true =>
          let below := (v - lo * unit)%Z in
          let above := (hi * unit - v)%Z in
          if (below <? above)%Z then (lo, unit)
          else if (above <? below)%Z then (hi, unit)
          else if Z.even lo then (lo, unit) else (hi, unit)
      | true, false => (lo, unit)
      | false, true => (hi, unit)
      | false, false => shortest fuel' (S k) v n0
      end
  end.

Fixpoint drop_zeros (s : jsstring) : jsstring :=
  match s with
  | c :: s' => if (c =? 48)%N then drop_zeros s' else s
  | [] => []
  end.

Definition Number_toString (x : number) : jsstring :=
  match x with
  | Infinity => lit "Infinity"
  | Finite v =>
      let n0 := List.length (decimal v) in
      let (c, unit) := shortest n0 1 v n0 in
      let n := List.length (decimal (c * unit)) in
      if n <=? 21 then decimal (c * unit)
      else
        match rev (drop_zeros (rev (decimal c))) with
        | [] => []
        | [d] => d :: lit "e+" ++ decimal (Z.of_nat (n - 1))
        | d :: ds => d :: 46%N :: ds ++ lit "e+" ++ decimal (Z.of_nat (n - 1))
        end
  end.

(** The values a caller can pass where a string is expected.  A number is
    the double nearest to the integer [n] of [VNum n].  [VObject str] is an
    object that has none of the methods of a string and is not callable (an
    ordinary object, an array): [str] is what its conversion to a string
    gives, [None] when that conversion throws (an object without
    prototype). *)
Inductive value :=
| VUndefined
| VNull
| VBool (b : bool)
| VNum (n : Z)
| VStr (s : jsstring)
| VSymbol                        (* [Symbol()] *)
| VStringObject (s : jsstring)   (* [new String(s)] *)
| VObject (str : option jsstring).

(** [!v] *)
Definition falsy (v : value) : bool :=
  match v with
  | VUndefined | VNull => true
  | VBool b => negb b
  | VNum n => (n =? 0)%Z
  | VStr s => match s with [] => true | _ => false end
  | VSymbol | VStringObject _ | VObject _ => false
  end.

(** [typeof v === 'string'] *)
Definition is_string (v : value) : bool :=
  match v with VStr _ => true | _ => false end.

(** [typeof v === 'object'] *)
Definition is_object (v : value) : bool :=
  match v with VNull | VStringObject _ | VObject _ => true | _ => false end.

(** The string on which the methods of [String.prototype] work when they are
    called on [v]; [None] when [v] has no such methods. *)
Definition string_of (v : value) : option jsstring :=
  match v with
  | VStr s | VStringObject s => Some s
  | _ => None
  end.

(** The string a template literal inserts for [${v}]; [None] when the
    conversion throws a TypeError. *)
Definition to_js_string (v : value) : option jsstring :=
  match v with
  | VUndefined => Some (lit "undefined")
  | VNull => Some (lit "null")
  | VBool true => Some (lit "true")
  | VBool false => Some (lit "false")
  | VNum n =>
      Some (if (n <? 0)%Z then 45%N :: Number_toString (to_double (- n))
            else Number_toString (to_double n))
  | VStr s | VStringObject s => Some s
  | VSymbol => None
  | VObject str => str
  end.

Inductive result (E A : Type) :=
| Ok (a : A)
| Err (e : E).
Arguments Ok {E A} a.
Arguments Err {E A} e.

End JS.
Import JS.

(** ** The regular expressions on timestamps

    The timestamp expressions of the sources share one shape.  None of them
    needs backtracking: a greedy [\s*] is always followed by a unit that is
    not a space. *)

Module Regex.

(** [\d{2}:\d{2}:\d{2}S\d{3}] at the start of [s], where the separator [S]
    is a unit accepted by [sep]; the result is what follows the match. *)
Definition eat_timestamp (sep : N -> bool) (s : jsstring) : option jsstring :=
  match s with
  | h1 :: h2 :: c1 :: m1 :: m2 :: c2 :: s1 :: s2 :: k :: f1 :: f2 :: f3 :: rest =>
      if is_digit h1 && is_digit h2 && (c1 =? COLON)%N
         && is_digit m1 && is_digit m2 && (c2 =? COLON)%N
         && is_digit s1 && is_digit s2 && sep k
         && is_digit f1 && is_digit f2 && is_digit f3
      then Some rest else None
  | _ => None
  end.

(** [\s*-->\s*] at the start of [s]. *)
Definition eat_arrow (s : jsstring) : option jsstring :=
  match drop_spaces s with
  | a :: b :: c :: rest =>
      if (a =? MINUS)%N && (b =? MINUS)%N && (c =? GT)%N
      then Some (drop_spaces rest) else None
  | _ => None
  end.

(** [\d{2}:\d{2}:\d{2}S\d{3}\s*-->\s*\d{2}:\d{2}:\d{2}S\d{3}] at the start
    of [s]. *)
Definition eat_timing (sep : N -> bool) (s : jsstring) : option jsstring :=
  match eat_timestamp sep s with
  | Some r =>
      match eat_arrow r with
      | Some r' => eat_timestamp sep r'
      | None => None
      end
  | None => None
  end.

(** The same expression between [^] and [$]. *)
Definition timing_line (sep : N -> bool) (s : jsstring) : bool :=
  match eat_timing sep s with
  | Some [] => true
  | _ => false
  end.

(** An unanchored expression [eat] found anywhere in [s]. *)
Fixpoint search (eat : jsstring -> option jsstring) (s : jsstring) : bool :=
  match eat s with
  | Some _ => true
  | None =>
      match s with
      | [] => false
      | _ :: s' => search eat s'
      end
  end.

Definition is_comma (c : N) : bool := (c =? COMMA)%N.
Definition is_period (c : N) : bool := (c =? PERIOD)%N.
Definition is_comma_or_period (c : N) : bool := is_comma c || is_period c.

(** The units consumed by a match [rest] found at the start of [s]. *)
Definition consumed (s rest : jsstring) : nat := List.length s - List.length rest.

(** [s.split(re)] where [eat] is the expression [re] at the start of a
    string and never matches the empty string: [skip] units of the last
    separator are still to be passed, [piece] is the current piece in
    reverse. *)
Fixpoint split_go (eat : jsstring -> option jsstring)
         (s : jsstring) (skip : nat) (piece : jsstring) : list jsstring :=
  match skip, s with
  | S k, _ :: s' => split_go eat s' k piece
  | S _, [] => [rev piece]
  | 0, [] => [rev piece]
  | 0, c :: s' =>
      match eat s with
      | Some rest => rev piece :: split_go eat s' (consumed s rest - 1) []
      | None => split_go eat s' 0 (c :: piece)
      end
  end.

Definition split (eat : jsstring -> option jsstring) (s : jsstring)
  : list jsstring :=
  split_go eat s 0 [].

(** [\r?\n] at the start of [s]. *)
Definition eat_newline (s : jsstring) : option jsstring :=
  match s with
  | a :: b :: rest =>
      if (a =? CR)%N && (b =? LF)%N then Some rest
      else if (a =? LF)%N then Some (b :: rest) else None
  | [a] => if (a =? LF)%N then Some [] else None
  | [] => None
  end.

(** [\s+] at the start of [s]. *)
Definition eat_spaces (s : jsstring) : option jsstring :=
  match s with
  | c :: _ => if is_space c then Some (drop_spaces s) else None
  | [] => None
  end.

(** [\n\s*\n] at the start of [s]: the greedy [\s*] gives back units until
    the last line feed of the run of spaces. *)
Fixpoint after_last_LF (run : jsstring) : option nat :=
  match run with
  | [] => None
  | c :: run' =>
      match after_last_LF run' with
      | Some n => Some (S n)
      | None => if (c =? LF)%N then Some 1 else None
      end
  end.

Fixpoint take_spaces (s : jsstring) : jsstring :=
  match s with
  | c :: s' => if is_space c then c :: take_spaces s' else []
  | [] => []
  end.

Definition eat_blank_line (s : jsstring) : option jsstring :=
  match s with
  | c :: s' =>
      if (c =? LF)%N then
        match after_last_LF (take_spaces s') with
        | Some n => Some (skipn n s')
        | None => None
        end
      else None
  | [] => None
  end.

End Regex.

(** ** UTF-8 and the single-byte encodings of iconv-lite

    [Buffer.from(s, 'utf8')], [buf.toString('utf8')] and the codecs of
    iconv-lite are library code.  They are modelled after the WHATWG
    encoding standard, which Node follows: an ill-formed sequence decodes to
    one U+FFFD per maximal subpart, a lone surrogate encodes as U+FFFD. *)

Module Utf8.

Definition Buffer := list byte.

Definition byte_of (n : N) : byte :=
  match Byte.of_N n with
  | Some b => b
  | None => x00
  end.

Definition is_high_surrogate (c : N) : bool := (55296 <=? c)%N && (c <=? 56319)%N.
Definition is_low_surrogate (c : N) : bool := (56320 <=? c)%N && (c <=? 57343)%N.

Definition encode_code_point (c : N) : list N :=
  (if c <? 128 then [c]
   else if c <? 2048 then [192 + c / 64; 128 + c mod 64]
   else if c <? 65536 then [224 + c / 4096; 128 + (c / 64) mod 64; 128 + c mod 64]
   else [240 + c / 262144; 128 + (c / 4096) mod 64; 128 + (c / 64) mod 64; 128 + c mod 64])%N.

(** The bytes of [Buffer.from(s, 'utf8')], as numbers. *)
Fixpoint encode_units (s : jsstring) : list N :=
  match s with
  | [] => []
  | c :: s' =>
      if is_high_surrogate c then
        match s' with
        | lo :: s'' =>
            if is_low_surrogate lo
            then encode_code_point (65536 + (c - 55296) * 1024 + (lo - 56320))%N
                   ++ encode_units s''
            else encode_code_point REPLACEMENT ++ encode_units s'
        | [] => encode_code_point REPLACEMENT
        end
      else if is_low_surrogate c then encode_code_point REPLACEMENT ++ encode_units s'
      else encode_code_point c ++ encode_units s'
  end.

Definition encode (s : jsstring) : Buffer := map byte_of (encode_units s).

(** The decoder of the standard: the code point under construction, the
    continuation bytes still needed and the range allowed for the next
    one. *)
Record state := mkState {
  code_point : N;
  needed : nat;
  lower : N;
  upper : N
}.

Definition initial : state := mkState 0 0 128 191.

Definition emit (c : N) : jsstring :=
  (if c <? 65536 then [c]
   else [55296 + (c - 65536) / 1024; 56320 + (c - 65536) mod 1024])%N.

(** A byte read when no sequence is open. *)
Definition lead (b : N) : jsstring * state :=
  (if b <=? 127 then ([b], initial)
   else if (194 <=? b) && (b <=? 223) then
     ([], mkState (N.land b 31) 1 128 191)
   else if (224 <=? b) && (b <=? 239) then
     ([], mkState (N.land b 15) 2
            (if b =? 224 then 160 else 128) (if b =? 237 then 159 else 191))
   else if (240 <=? b) && (b <=? 244) then
     ([], mkState (N.land b 7) 3
            (if b =? 240 then 144 else 128) (if b =? 244 then 143 else 191))
   else ([REPLACEMENT], initial))%N.

Definition step (st : state) (b : N) : jsstring * state :=
  match needed st with
  | 0 => lead b
  | S k =>
      if ((lower st <=? b) && (b <=? upper st))%N then
        let c := (code_point st * 64 + N.land b 63)%N in
        match k with
        | 0 => (emit c, initial)
        | S _ => ([], mkState c k 128 191)
        end
      else
        let (out, st') := lead b in (REPLACEMENT :: out, st')
  end.

Fixpoint decode_from (st : state) (bytes : list N) : jsstring :=
  match bytes with
  | [] => match needed st with 0 => [] | S _ => [REPLACEMENT] end
  | b :: bytes' =>
      let (out, st') := step st b in out ++ decode_from st' bytes'
  end.

(** [buf.toString('utf8')] *)
Definition decode (buf : Buffer) : jsstring :=
  decode_from initial (map Byte.to_N buf).

End Utf8.

Module Iconv.

Import Utf8.

(** [iconv.decode(buf, 'utf8')]: the codec is BOM-aware and drops a
    leading U+FEFF after decoding. *)
Definition decode_utf8 (buf : Buffer) : jsstring :=
  match decode buf with
  | c :: s => if (c =? BOM)%N then s else c :: s
  | [] => []
  end.

(** [iconv.encode(s, 'latin1')]: a unit above U+00FF becomes the default
    character '?'. *)
Definition encode_latin1 (s : jsstring) : Buffer :=
  map (fun c => if (c <? 256)%N then byte_of c else byte_of 63) s.

(** [iconv.encode(s, 'utf8')] *)
Definition encode_utf8 (s : jsstring) : Buffer := encode s.

(** The code points of bytes 0x80..0x9F in windows-1252; the five bytes
    the code page leaves undefined decode to U+FFFD. *)
Definition windows1252_high : list N :=
  [8364; 65533; 8218; 402; 8222; 8230; 8224; 8225;
   710; 8240; 352; 8249; 338; 65533; 381; 65533;
   65533; 8216; 8217; 8220; 8221; 8226; 8211; 8212;
   732; 8482; 353; 8250; 339; 65533; 382; 376]%N.

(** [iconv.decode(buf, 'windows-1252')] *)
Definition decode_windows1252 (buf : Buffer) : jsstring :=
  map (fun b =>
         let n := Byte.to_N b in
         if ((128 <=? n) && (n <=? 159))%N
         then nth (N.to_nat (n - 128)) windows1252_high REPLACEMENT
         else n) buf.

(** [iconv.decode(buf, 'iso-8859-1')] *)
Definition decode_iso88591 (buf : Buffer) : jsstring := map Byte.to_N buf.

End Iconv.

(** ** utils/encoding.js *)

Module Encoding.

Import Utf8 Iconv.

(** The names of encodings: the three that [detectEncoding] returns; any
    other encoding that iconv-lite knows, given by what [iconv.decode] makes
    of a buffer in it; and a name that iconv-lite does not know (such as
    'invalid-encoding'), on which [iconv.decode] throws. *)
Inductive encoding :=
| utf8          (* 'utf8' *)
| windows_1252  (* 'windows-1252' *)
| iso_8859_1    (* 'iso-8859-1' *)
| other_encoding (decode : Buffer -> jsstring)
| unrecognized  (* a name unknown to iconv-lite *).

Definition win1252Chars : list N :=
  [0x80; 0x82; 0x83; 0x84; 0x85; 0x86; 0x87; 0x88; 0x89; 0x8A; 0x8B; 0x8C;
   0x8E; 0x91; 0x92; 0x93; 0x94; 0x95; 0x96; 0x97; 0x98; 0x99; 0x9A; 0x9B;
   0x9C; 0x9E; 0x9F]%N.

(** The three variables the byte loop of [detectEncoding] updates. *)
Record counters := mkCounters {
  hasHighBytes : bool;
  windows1252Indicators : nat;
  iso88591Indicators : nat
}.

(** One iteration of the loop. *)
Definition scan_byte (st : counters) (b : byte) : counters :=
  let byte := Byte.to_N b in
  if (127 <? byte)%N then
    let w :=
      if ((128 <=? byte) && (byte <=? 159))%N then
        if existsb (N.eqb byte) win1252Chars
        then S (windows1252Indicators st) else windows1252Indicators st
      else windows1252Indicators st in
    let i :=
      if ((160 <=? byte) && (byte <=? 255))%N
      then S (iso88591Indicators st) else iso88591Indicators st in
    mkCounters true w i
  else st.

Definition starts_with_bytes (p : list N) (buf : Buffer) : bool :=
  startsWith p (map Byte.to_N buf).

Definition detectEncoding (buffer : option Buffer) : encoding :=
  match buffer with
  | None => utf8
  | Some [] => utf8
  | Some buf =>
      if starts_with_bytes [0xEF; 0xBB; 0xBF]%N buf then utf8
      else if starts_with_bytes [0xFF; 0xFE]%N buf
              || starts_with_bytes [0xFE; 0xFF]%N buf then utf8
      else if negb (includes_unit REPLACEMENT (decode_utf8 buf)) then utf8
      else
        let st := fold_left scan_byte buf (mkCounters false 0 0) in
        if negb (hasHighBytes st) then utf8
        else if 0 <? windows1252Indicators st then windows_1252
        else if 0 <? iso88591Indicators st then
          let win1252Test := decode_windows1252 buf in
          let iso88591Test := decode_iso88591 buf in
          if includes_unit REPLACEMENT win1252Test
             && negb (includes_unit REPLACEMENT iso88591Test) then iso_8859_1
          else if negb (includes_unit REPLACEMENT win1252Test)
                  && negb (includes_unit REPLACEMENT iso88591Test) then windows_1252
          else if negb (includes_unit REPLACEMENT iso88591Test) then iso_8859_1
          else iso_8859_1
        else iso_8859_1
  end.

(** The repair by re-encoding (the version of the module that
    [convertToUTF8] runs on every decoded text). *)
Definition fixDoubleEncodedUTF8 (text : jsstring) : jsstring :=
  if negb (includes_unit A_TILDE text) then text
  else
    let originalBytes := encode_latin1 text in
    let fixedText := decode_utf8 originalBytes in
    if str_eqb fixedText text || includes_unit A_TILDE fixedText
    then text
    else fixedText.

(** [iconv.decode(buf, e)]; [None] is the error 'Encoding not
    recognized'. *)
Definition decode_as (e : encoding) (buf : Buffer) : option jsstring :=
  match e with
  | utf8 => Some (decode_utf8 buf)
  | windows_1252 => Some (decode_windows1252 buf)
  | iso_8859_1 => Some (decode_iso88591 buf)
  | other_encoding decode => Some (decode buf)
  | unrecognized => None
  end.

Definition strip_bom_bytes (buf : Buffer) : Buffer :=
  if starts_with_bytes [0xEF; 0xBB; 0xBF]%N buf then skipn 3 buf else buf.

(** [convertToUTF8]; [encoding] is [None] when the argument is left out (or
    is falsy).  The [catch] block is entered when [iconv.decode] throws, and
    returns the buffer without its byte order mark. *)
Definition convertToUTF8 (buffer : option Buffer) (encoding : option encoding)
  : Buffer :=
  match buffer with
  | None => []
  | Some [] => []
  | Some buf =>
      let sourceEncoding :=
        match encoding with
        | Some e => e
        | None => detectEncoding buffer
        end in
      match decode_as sourceEncoding buf with
      | Some decoded =>
          let decoded := fixDoubleEncodedUTF8 decoded in
          strip_bom_bytes (encode_utf8 decoded)
      | None => strip_bom_bytes buf
      end
  end.

(** [isValidEncoding]; the [catch] block answers [false]. *)
Definition isValidEncoding (buffer : Buffer) (encoding : encoding) : bool :=
  match decode_as encoding buffer with
  | Some decoded => negb (includes_unit REPLACEMENT decoded)
  | None => false
  end.

End Encoding.

(** ** Base64

    [buf.toString('base64')] of Node: the alphabet of RFC 4648 with [=] as
    padding. *)

Module Base64.

Definition digit (n : N) : N :=
  (if n <? 26 then 65 + n
   else if n <? 52 then 97 + (n - 26)
   else if n <? 62 then 48 + (n - 52)
   else if n =? 62 then 43
   else 47)%N.

Definition PAD : N := 61.

Fixpoint encode (bytes : list N) : jsstring :=
  match bytes with
  | a :: b :: c :: rest =>
      [digit (a / 4); digit ((a mod 4) * 16 + b / 16);
       digit ((b mod 16) * 4 + c / 64); digit (c mod 64)]%N
      ++ encode rest
  | [a; b] =>
      [digit (a / 4); digit ((a mod 4) * 16 + b / 16); digit ((b mod 16) * 4); PAD]%N
  | [a] => [digit (a / 4); digit ((a mod 4) * 16); PAD; PAD]%N
  | [] => []
  end.

End Base64.

(** ** utils/vtt-generator.js *)

Module VttGenerator.

Inductive timestamp_error :=
| InvalidTimestamp                         (* 'Invalid timestamp: must be a non-empty string' *)
| InvalidSRTTimestampFormat (s : jsstring) (* 'Invalid SRT timestamp format: ${s}. ...' *).

(** [/^(\d{2}):([0-5]\d):([0-5]\d),(\d{3})$/] *)
Definition timestampRegex (s : jsstring) : bool :=
  match s with
  | [h1; h2; c1; m1; m2; c2; s1; s2; k; f1; f2; f3] =>
      is_digit h1 && is_digit h2 && (c1 =? COLON)%N
      && is_digit05 m1 && is_digit m2 && (c2 =? COLON)%N
      && is_digit05 s1 && is_digit s2 && (k =? COMMA)%N
      && is_digit f1 && is_digit f2 && is_digit f3
  | _ => false
  end.

Definition convertTimestamp (srtTimestamp : value)
  : result timestamp_error jsstring :=
  if falsy srtTimestamp || negb (is_string srtTimestamp) then Err InvalidTimestamp
  else
    match srtTimestamp with
    | VStr s =>
        if negb (timestampRegex s) then Err (InvalidSRTTimestampFormat s)
        else Ok (replace_first COMMA PERIOD s)
    | _ => Err InvalidTimestamp
    end.

(** A subtitle object as [generateVTT] reads it: the three fields it
    destructures, each possibly [undefined]. *)
Record subtitle := mkSubtitle {
  startTime : value;
  endTime : value;
  text : value
}.

(** A slot of the array: an object with the three fields read from it, a
    value that has none of these fields (a primitive, a String object, an
    object of another shape), or a hole of a sparse array. *)
Inductive element :=
| EObj (o : subtitle)
| EVal (v : value)
| EHole.

(** The argument of [generateVTT]: an array, given by its slots, or anything
    else. *)
Inductive input :=
| Arr (l : list element)
| NotArr (v : value).

Inductive generate_error :=
| InvalidInput                                    (* 'Invalid input: subtitles must be an array' *)
| NoSubtitles                                     (* 'No subtitles provided for VTT generation' *)
| InvalidSubtitleObject (index : nat)             (* 'Invalid subtitle object at index ${index}' *)
| MissingFields (index : nat)                     (* 'Missing required fields in subtitle at index ${index}...' *)
| ProcessingError (index : nat) (e : timestamp_error)
    (* 'Error processing subtitle at index ${index}: ${error.message}' *)
| ProcessingTypeError (index : nat)
    (* the same, with the message of the TypeError of a text that cannot be
       converted to a string *).

Definition header : jsstring := lit "WEBVTT" ++ [LF; LF].

(** One step of [forEach]: nothing on a hole, the callback on any other
    slot.  The result is the new value of [vttContent], or the error
    thrown. *)
Definition append_cue (vttContent : jsstring) (el : element) (index : nat)
  : result generate_error jsstring :=
  match el with
  | EHole => Ok vttContent
  | EVal v =>
      if falsy v || negb (is_object v) then Err (InvalidSubtitleObject index)
      else Err (MissingFields index)
  | EObj o =>
      if falsy (startTime o) || falsy (endTime o)
         || match text o with VUndefined => true | _ => false end
      then Err (MissingFields index)
      else
        match convertTimestamp (startTime o) with
        | Err e => Err (ProcessingError index e)
        | Ok vttStartTime =>
            match convertTimestamp (endTime o) with
            | Err e => Err (ProcessingError index e)
            | Ok vttEndTime =>
                let vttContent :=
                  vttContent ++ (vttStartTime ++ lit " --> " ++ vttEndTime ++ [LF]) in
                match to_js_string (text o) with
                | Some text => Ok (vttContent ++ (text ++ [LF; LF]))
                | None => Err (ProcessingTypeError index)
                end
            end
        end
  end.

Fixpoint forEach_cue (l : list element) (index : nat) (vttContent : jsstring)
  : result generate_error jsstring :=
  match l with
  | [] => Ok vttContent
  | el :: l' =>
      match append_cue vttContent el index with
      | Err e => Err e
      | Ok vttContent' => forEach_cue l' (S index) vttContent'
      end
  end.

Definition generateVTT (subtitles : input) : result generate_error jsstring :=
  match subtitles with
  | NotArr _ => Err InvalidInput
  | Arr [] => Err NoSubtitles
  | Arr l => forEach_cue l 0 header
  end.

(** *** Validation of the generated document *)

Inductive vtt_error :=
| InvalidVTTContent    (* 'Invalid VTT content: must be a non-empty string' *)
| ContainsBOM          (* 'VTT content must not contain BOM (Byte Order Mark)' *)
| MissingHeader        (* 'VTT content must start with "WEBVTT" header followed by newline' *)
| MissingEmptyLine     (* 'VTT content must have empty line after WEBVTT header' *)
| NoTimestamps         (* 'No valid VTT timestamps found in content' *)
| SequenceNumbers      (* 'VTT content must not contain subtitle sequence numbers ...' *).

(** [/\d{2}:\d{2}:\d{2}\.\d{3}\s*-->\s*\d{2}:\d{2}:\d{2}\.\d{3}/g], used
    by [match] to find any occurrence and by [test] on a line.  A [test]
    that succeeds ends the loop it is in, and one that fails puts
    [lastIndex] back to 0, so every [test] searches from the start. *)
Definition vttTimestampRegex (s : jsstring) : bool :=
  Regex.search (Regex.eat_timing Regex.is_period) s.

(** The loop over [lines] from the position reached: a line of digits
    followed by a line that holds a timing. *)
Fixpoint sequence_number_before_timing (lines : list jsstring) : bool :=
  match lines with
  | l :: ((next :: _) as lines') =>
      all_digits (trim l) && vttTimestampRegex next
      || sequence_number_before_timing lines'
  | _ => false
  end.

Definition first_is_BOM (s : jsstring) : bool :=
  match s with
  | c :: _ => (c =? BOM)%N
  | [] => false
  end.

Definition validateVTTFormat (vttContent : value) : result vtt_error bool :=
  if falsy vttContent || negb (is_string vttContent) then Err InvalidVTTContent
  else
    match vttContent with
    | VStr s =>
        if first_is_BOM s then Err ContainsBOM
        else if negb (startsWith (lit "WEBVTT" ++ [LF]) s) then Err MissingHeader
        else if negb (startsWith (lit "WEBVTT" ++ [LF; LF]) s) then Err MissingEmptyLine
        else if negb (vttTimestampRegex s) then Err NoTimestamps
        else
          let lines := split_unit LF s in
          if sequence_number_before_timing (skipn 2 lines) then Err SequenceNumbers
          else Ok true
    | _ => Err InvalidVTTContent
    end.

Record compliance := mkCompliance {
  hasWebVTTHeader : bool;
  hasEmptyLineAfterHeader : bool;
  noBOM : bool;
  noSequenceNumbers : bool;
  validTimestamps : bool;
  properEncoding : bool
}.

(** An entry of [errors]: the message of an error of [validateVTTFormat],
    or of the [TypeError] raised by a method call on a value that is not a
    string. *)
Inductive message :=
| Message (e : vtt_error)
| TypeErrorMessage.

Inductive warning :=
| WindowsLineEndings   (* 'Content contains Windows line endings (CRLF). ...' *)
| TabCharacters        (* 'Content contains tab characters. ...' *)
| HeaderWhitespace     (* 'WEBVTT header should not have leading or trailing whitespace.' *).

Record report := mkReport {
  isValid : bool;
  compliance_checks : compliance;
  errors : list message;
  warnings : list warning
}.

(** [Object.values(c).every(check => check === true)] *)
Definition every_check (c : compliance) : bool :=
  hasWebVTTHeader c && hasEmptyLineAfterHeader c && noBOM c
  && noSequenceNumbers c && validTimestamps c && properEncoding c.

Definition validateBunnyStreamCompliance (vttContent : value) : report :=
  match string_of vttContent with
  | Some s =>
      let noBOM := negb (first_is_BOM s) in
      let hasWebVTTHeader :=
        startsWith (lit "WEBVTT" ++ [LF]) s
        || startsWith (lit "WEBVTT" ++ [CR; LF]) s in
      let hasEmptyLineAfterHeader :=
        startsWith (lit "WEBVTT" ++ [LF; LF]) s
        || startsWith (lit "WEBVTT" ++ [CR; LF; CR; LF]) s in
      (* [decoded === vttContent] is false of a String object *)
      let properEncoding :=
        is_string vttContent && str_eqb (Utf8.decode (Utf8.encode s)) s in
      let validTimestamps := vttTimestampRegex s in
      let lines := Regex.split Regex.eat_newline s in
      let hasSequenceNumbers := sequence_number_before_timing (skipn 2 lines) in
      let noSequenceNumbers := negb hasSequenceNumbers in
      let warnings :=
        (if includes [CR; LF] s then [WindowsLineEndings] else [])
        ++ (if includes [TAB] s then [TabCharacters] else [])
        ++ (match Regex.split Regex.eat_newline s with
            | first :: _ =>
                if negb (str_eqb first (lit "WEBVTT")) then [HeaderWhitespace] else []
            | [] => []
            end) in
      let errors :=
        match validateVTTFormat vttContent with
        | Ok _ => []
        | Err e => [Message e]
        end in
      let checks :=
        mkCompliance hasWebVTTHeader hasEmptyLineAfterHeader noBOM
                     noSequenceNumbers validTimestamps properEncoding in
      mkReport (every_check checks && (List.length errors =? 0)) checks errors warnings
  | None =>
      (* [vttContent.charCodeAt] raises a TypeError, caught by the outer
         handler *)
      mkReport false (mkCompliance false false false false false false)
               [TypeErrorMessage] []
  end.

(** *** Packaging *)

Inductive base64_error :=
| InvalidBase64Content             (* 'Invalid VTT content for Base64 encoding' *)
| NotCompliant (e : vtt_error)     (* the error thrown by [validateVTTFormat] *).

Record Size := mkSize {
  original : nat;
  encoded : nat
}.

(** The fields of the result that depend on the content; [mimeType],
    [charset], [encoding] and [metadata] are constants. *)
Record Base64Output := mkBase64Output {
  content : jsstring;
  size : Size
}.

Definition generateBase64Output (vttContent : value)
  : result base64_error Base64Output :=
  if falsy vttContent || negb (is_string vttContent) then Err InvalidBase64Content
  else
    match validateVTTFormat vttContent with
    | Err e => Err (NotCompliant e)
    | Ok _ =>
        match vttContent with
        | VStr s =>
            let buffer := Utf8.encode s in
            let base64Content := Base64.encode (map Byte.to_N buffer) in
            Ok (mkBase64Output base64Content
                  (mkSize (List.length buffer) (List.length base64Content)))
        | _ => Err InvalidBase64Content
        end
    end.

End VttGenerator.

(** ** utils/srt-parser.js *)

Module SrtParser.

Record Subtitle := mkSubtitle {
  index : number;
  startTime : jsstring;
  endTime : jsstring;
  text : jsstring
}.

Inductive parse_error :=
| InvalidIndex (indexLine : jsstring) (line : nat)
    (* 'Invalid subtitle index "${indexLine}" at line ${line} (expected number)' *)
| MissingTimestamp (index : number)
    (* 'Missing timestamp for subtitle ${index}' *)
| InvalidTimestampFormat (timestampLine : jsstring) (index : number)
    (* 'Invalid timestamp format "${timestampLine}" for subtitle ${index}' *)
| NoTextContent (index : number)
    (* 'No text content found for subtitle ${index}' *)
| NoValidBlocks
    (* 'No valid subtitle blocks found' *)
| NoReplaceMethod
    (* the TypeError of [content.replace] on a value without that method *).

(** 'Invalid SRT format: ' + error.message *)
Inductive srt_error :=
| InvalidSRTFormat (e : parse_error).

(** [content.replace(/^\uFEFF/, '')] *)
Definition strip_BOM (s : jsstring) : jsstring :=
  match s with
  | c :: s' => if (c =? BOM)%N then s' else s
  | [] => []
  end.

(** [.replace(/\r\n/g, '\n')] *)
Fixpoint replace_CRLF (s : jsstring) : jsstring :=
  match s with
  | a :: s' =>
      match s' with
      | b :: s'' =>
          if ((a =? CR) && (b =? LF))%N then LF :: replace_CRLF s''
          else a :: replace_CRLF s'
      | [] => [a]
      end
  | [] => []
  end.

(** [.replace(/\r/g, '\n')] *)
Definition replace_CR (s : jsstring) : jsstring :=
  map (fun c => if (c =? CR)%N then LF else c) s.

(** [s === ''] *)
Definition is_empty (s : jsstring) : bool :=
  match s with [] => true | _ => false end.

(** [/^\d{2}:\d{2}:\d{2},\d{3}\s*-->\s*\d{2}:\d{2}:\d{2},\d{3}$/] *)
Definition timestampRegex (s : jsstring) : bool :=
  Regex.timing_line Regex.is_comma s.

(** The position [i] of the loops is kept together with the lines from [i]
    on: [lines[i]] is the head of that suffix, [i + 1 < lines.length] holds
    when its tail is not empty. *)

(** [while (i < lines.length && lines[i].trim() === '') i++] *)
Fixpoint skip_empty (i : nat) (rest : list jsstring) : nat * list jsstring :=
  match rest with
  | l :: rest' => if is_empty (trim l) then skip_empty (S i) rest' else (i, rest)
  | [] => (i, [])
  end.

(** The test at the top of the text loop, at line [lines[i]] followed by
    [after]: [Ok true] is a [break]. *)
Definition next_block_begins (i : nat) (line : jsstring) (after : list jsstring)
  : result parse_error bool :=
  match after with
  | next :: after' =>
      if is_empty (trim line) then
        let nextLine := trim next in
        match after' with
        | third :: _ =>
            let potentialTimestamp := trim third in
            if negb (is_empty nextLine) && timestampRegex potentialTimestamp then
              if negb (all_digits nextLine)
              then Err (InvalidIndex nextLine (i + 2))
              else Ok true
            else Ok (all_digits nextLine)
        | [] => Ok (all_digits nextLine)
        end
      else Ok false
  | [] => Ok false
  end.

(** The text loop: the lines collected and the position reached. *)
Fixpoint collect_text (i : nat) (rest : list jsstring) (textLines : list jsstring)
  : result parse_error (list jsstring * (nat * list jsstring)) :=
  match rest with
  | [] => Ok (textLines, (i, []))
  | line :: rest' =>
      match next_block_begins i line rest' with
      | Err e => Err e
      | Ok true => Ok (textLines, (i, rest))
      | Ok false => collect_text (S i) rest' (textLines ++ [line])
      end
  end.

(** [timestampLine.split(/\s*-->\s*/)] *)
Definition split_arrow (s : jsstring) : list jsstring :=
  Regex.split Regex.eat_arrow s.

(** One block, from its index line [lines[i]]: the record and the position
    after the block. *)
Definition parse_block (i : nat) (l : jsstring) (rest : list jsstring)
  : result parse_error (Subtitle * (nat * list jsstring)) :=
  let indexLine := trim l in
  if negb (all_digits indexLine) then Err (InvalidIndex indexLine (i + 1))
  else
    let index := parseInt indexLine in
    match rest with
    | [] => Err (MissingTimestamp index)
    | t :: rest' =>
        let timestampLine := trim t in
        if negb (timestampRegex timestampLine)
        then Err (InvalidTimestampFormat timestampLine index)
        else
          let parts := split_arrow timestampLine in
          let startTime := nth 0 parts [] in
          let endTime := nth 1 parts [] in
          match collect_text (i + 2) rest' [] with
          | Err e => Err e
          | Ok (textLines, position) =>
              let hasText :=
                existsb (fun line => 0 <? List.length (trim line)) textLines in
              if negb hasText then Err (NoTextContent index)
              else
                let text := trim (join [LF] textLines) in
                Ok (mkSubtitle index (trim startTime) (trim endTime) text, position)
          end
    end.

Definition inspect {A : Type} (a : A) : {b : A | a = b} := exist _ a eq_refl.

(** The outer loop. *)
Equations? parse_blocks (i : nat) (rest : list jsstring) (subtitles : list Subtitle)
  : result parse_error (list Subtitle) by wf (List.length rest) lt :=
  parse_blocks i rest subtitles with inspect (skip_empty i rest) := {
    | exist _ (_, []) _ => Ok subtitles
    | exist _ (i1, l :: rest1) e1 with inspect (parse_block i1 l rest1) := {
        | exist _ (Err e) _ => Err e
        | exist _ (Ok (subtitle, (i2, rest2))) e2 =>
            parse_blocks i2 rest2 (subtitles ++ [subtitle]) } }.
Proof.
  assert (Hskip : forall r k, List.length (snd (skip_empty k r)) <= List.length r).
  { clear. induction r as [|x r IH]; simpl; intros k; auto.
    destruct (is_empty (trim x)); simpl; auto. }
  assert (Htext : forall r k acc res,
             collect_text k r acc = Ok res ->
             List.length (snd (snd res)) <= List.length r).
  { clear. induction r as [|x r IH]; simpl; intros k acc res H.
    - inversion H; subst; simpl; auto.
    - destruct (next_block_begins k x r) as [[|]|]; try discriminate.
      + inversion H; subst; simpl; auto.
      + apply IH in H. lia. }
  specialize (Hskip rest i). rewrite e1 in Hskip. simpl in Hskip.
  unfold parse_block in e2.
  destruct (negb (all_digits (trim l))); try discriminate.
  destruct rest1 as [|t rest1']; try discriminate.
  destruct (negb (timestampRegex (trim t))); try discriminate.
  destruct (collect_text (i1 + 2) rest1' []) as [[tl pos]|] eqn:Hc; try discriminate.
  destruct (negb (existsb _ tl)); try discriminate.
  inversion e2; subst. apply Htext in Hc. simpl in *. lia.
Qed.

(** [parseSRTInternal] has no guard on the type of [content]: it works on
    any value with the methods of a string. *)
Definition parseSRTInternal (content : value)
  : result parse_error (list Subtitle) :=
  match string_of content with
  | Some s =>
      let normalizedContent := replace_CR (replace_CRLF (strip_BOM s)) in
      let lines := split_unit LF normalizedContent in
      match parse_blocks 0 lines [] with
      | Err e => Err e
      | Ok subtitles =>
          if List.length subtitles =? 0 then Err NoValidBlocks else Ok subtitles
      end
  | None => Err NoReplaceMethod
  end.

Definition validateSRTFormat (content : value) : bool :=
  if falsy content || negb (is_string content) then false
  else
    match parseSRTInternal content with
    | Ok _ => true
    | Err _ => false
    end.

Definition parseSRT (content : value) : result srt_error (list Subtitle) :=
  match parseSRTInternal content with
  | Ok subtitles => Ok subtitles
  | Err e => Err (InvalidSRTFormat e)
  end.

Record Timestamp := mkTimestamp {
  hours : Z;
  minutes : Z;
  seconds : Z;
  milliseconds : Z
}.

(** [parseTimestamp]; its only error is 'Invalid timestamp format: ...'.
    [parseInt] is exact on the two or three digits of a field. *)
Definition parseTimestamp (timestamp : jsstring) : option Timestamp :=
  match Regex.eat_timestamp Regex.is_comma timestamp with
  | Some [] =>
      Some (mkTimestamp (parseInt_digits (firstn 2 timestamp))
                        (parseInt_digits (firstn 2 (skipn 3 timestamp)))
                        (parseInt_digits (firstn 2 (skipn 6 timestamp)))
                        (parseInt_digits (skipn 9 timestamp)))
  | _ => None
  end.

(** The records of the parser as the array handed to [generateVTT]. *)
Definition to_element (s : Subtitle) : VttGenerator.element :=
  VttGenerator.EObj
    (VttGenerator.mkSubtitle (VStr (startTime s)) (VStr (endTime s)) (VStr (text s))).

Definition to_input (l : list Subtitle) : VttGenerator.input :=
  VttGenerator.Arr (map to_element l).

End SrtParser.

(** ** utils/language-detection.js *)

Module LanguageDetection.

(** A regular expression literal of the source with flags [gi], by its
    source text; a character outside ASCII is written as its [\u] escape. *)
Inductive pattern :=
| Pattern (source : string).

Record Profile := mkProfile {
  name : string;
  patterns : list pattern;
  commonWords : list jsstring
}.

(** The table, in the order of its keys. *)
Definition LANGUAGE_PATTERNS : list (string * Profile) :=
 [
  ("en"%string, mkProfile "English"
      [Pattern "\b(the|and|or|but|in|on|at|to|for|of|with|by)\b";
       Pattern "\b(is|are|was|were|have|has|had|will|would|could|should)\b";
       Pattern "\b(this|that|these|those|here|there|where|when|what|who|how|why)\b"]
      [lit "the"; lit "and"; lit "to"; lit "of"; lit "a"; lit "in"; 
       lit "is"; lit "it"; lit "you"; lit "that"; lit "he"; lit "was"; 
       lit "for"; lit "on"; lit "are"; lit "as"; lit "with"; lit "his"; 
       lit "they"; lit "i"]);
  ("de"%string, mkProfile "German"
      [Pattern "\b(der|die|das|den|dem|des|ein|eine|einen|einem|einer|eines)\b";
       Pattern "\b(und|oder|aber|in|auf|an|zu|f\u00FCr|von|mit|bei|nach|\u00FCber|unter|vor|hinter)\b";
       Pattern "\b(ist|sind|war|waren|haben|hat|hatte|wird|w\u00FCrde|k\u00F6nnte|sollte)\b";
       Pattern "[\u00E4\u00F6\u00FC\u00DF]"]
      [lit "der"; lit "die"; lit "und"; lit "in"; lit "den"; lit "von"; 
       lit "zu"; lit "das"; lit "mit"; lit "sich"; lit "des"; lit "auf"; 
       [102; 252; 114]%N; lit "ist"; lit "im"; lit "dem"; lit "nicht"; 
       lit "ein"; lit "eine"; lit "als"]);
  ("es"%string, mkProfile "Spanish"
      [Pattern "\b(el|la|los|las|un|una|unos|unas|de|del|al)\b";
       Pattern "\b(y|o|pero|en|con|por|para|desde|hasta|sobre|bajo|ante|tras)\b";
       Pattern "\b(es|son|era|eran|tiene|tienen|ten\u00EDa|ser\u00E1|ser\u00EDa|podr\u00EDa|deber\u00EDa)\b";
       Pattern "[\u00F1\u00E1\u00E9\u00ED\u00F3\u00FA\u00FC]"]
      [lit "de"; lit "la"; lit "que"; lit "el"; lit "en"; lit "y"; lit "a"; 
       lit "es"; lit "se"; lit "no"; lit "te"; lit "lo"; lit "le"; lit "da"; 
       lit "su"; lit "por"; lit "son"; lit "con"; lit "para"; lit "al"]);
  ("fr"%string, mkProfile "French"
      [Pattern "\b(le|la|les|un|une|des|du|de|d')\b";
       Pattern "\b(et|ou|mais|dans|sur|avec|par|pour|sans|sous|entre|pendant|apr\u00E8s|avant)\b";
       Pattern "\b(est|sont|\u00E9tait|\u00E9taient|a|ont|avait|sera|serait|pourrait|devrait)\b";
       Pattern "[\u00E0\u00E2\u00E4\u00E9\u00E8\u00EA\u00EB\u00EF\u00EE\u00F4\u00F6\u00F9\u00FB\u00FC\u00FF\u00E7]"]
      [lit "de"; lit "le"; lit "et"; [224]%N; lit "un"; lit "il"; 
       [234; 116; 114; 101]%N; lit "et"; lit "en"; lit "avoir"; lit "que"; 
       lit "pour"; lit "dans"; lit "ce"; lit "son"; lit "une"; lit "sur"; 
       lit "avec"; lit "ne"; lit "se"]);
  ("it"%string, mkProfile "Italian"
      [Pattern "\b(il|la|lo|gli|le|un|una|uno|del|della|dello|degli|delle)\b";
       Pattern "\b(e|o|ma|in|su|con|per|da|di|a|tra|fra|durante|dopo|prima)\b";
       Pattern "\b(\u00E8|sono|era|erano|ha|hanno|aveva|sar\u00E0|sarebbe|potrebbe|dovrebbe)\b";
       Pattern "[\u00E0\u00E8\u00E9\u00EC\u00ED\u00EE\u00F2\u00F3\u00F9]"]
      [lit "di"; lit "a"; lit "da"; lit "in"; lit "con"; lit "su"; 
       lit "per"; lit "tra"; lit "fra"; lit "la"; lit "il"; lit "lo"; 
       lit "gli"; lit "le"; lit "un"; lit "una"; lit "uno"; lit "del"; 
       lit "della"; lit "dello"]);
  ("pt"%string, mkProfile "Portuguese"
      [Pattern "\b(o|a|os|as|um|uma|uns|umas|do|da|dos|das|no|na|nos|nas)\b";
       Pattern "\b(e|ou|mas|em|com|por|para|de|desde|at\u00E9|sobre|sob|entre|durante|ap\u00F3s|antes)\b";
       Pattern "\b(\u00E9|s\u00E3o|era|eram|tem|t\u00EAm|tinha|ser\u00E1|seria|poderia|deveria)\b";
       Pattern "[\u00E3\u00E2\u00E1\u00E0\u00E7\u00E9\u00EA\u00ED\u00F3\u00F4\u00F5\u00FA]"]
      [lit "de"; lit "a"; lit "o"; lit "que"; lit "e"; lit "do"; lit "da"; 
       lit "em"; lit "um"; lit "para"; [233]%N; lit "com"; 
       [110; 227; 111]%N; lit "uma"; lit "os"; lit "no"; lit "se"; lit "na"; 
       lit "por"; lit "mais"]);
  ("ru"%string, mkProfile "Russian"
      [Pattern "[\u0430-\u044F\u0451]";
       Pattern "\b(\u0438|\u0432|\u043D\u0435|\u043D\u0430|\u044F|\u0431\u044B\u0442\u044C|\u0442\u043E\u0442|\u043E\u043D|\u043E\u043D\u043E|\u043E\u043D\u0430|\u043E\u043D\u0438|\u043C\u044B|\u0432\u044B|\u0442\u044B|\u0447\u0442\u043E|\u044D\u0442\u043E|\u043A\u0430\u043A|\u0433\u0434\u0435|\u043A\u043E\u0433\u0434\u0430)\b"]
      [[1074]%N; [1080]%N; [1085; 1077]%N; [1085; 1072]%N; [1103]%N; 
       [1073; 1099; 1090; 1100]%N; [1090; 1086; 1090]%N; [1086; 1085]%N; 
       [1086; 1085; 1086]%N; [1086; 1085; 1072]%N; [1086; 1085; 1080]%N; 
       [1084; 1099]%N; [1074; 1099]%N; [1090; 1099]%N; [1095; 1090; 1086]%N; 
       [1101; 1090; 1086]%N; [1082; 1072; 1082]%N; [1075; 1076; 1077]%N; 
       [1082; 1086; 1075; 1076; 1072]%N; 
       [1087; 1086; 1095; 1077; 1084; 1091]%N]);
  ("ja"%string, mkProfile "Japanese"
      [Pattern "[\u3072\u3089\u304C\u306A\u30AB\u30BF\u30AB\u30CA\u6F22\u5B57]";
       Pattern "[\u3042-\u3093\u30A2-\u30F3\u4E00-\u9FAF]";
       Pattern "\b(\u3067\u3059|\u3067\u3042\u308B|\u3060|\u306F|\u304C|\u3092|\u306B|\u3067|\u3068|\u306E|\u304B\u3089|\u307E\u3067|\u3088\u308A|\u306B\u3064\u3044\u3066)\b"]
      [[12398]%N; [12395]%N; [12399]%N; [12434]%N; [12383]%N; [12364]%N; 
       [12391]%N; [12390]%N; [12392]%N; [12375]%N; [12428]%N; [12373]%N; 
       [12354; 12427]%N; [12356; 12427]%N; [12418]%N; [12377; 12427]%N; 
       [12363; 12425]%N; [12394]%N; [12371; 12392]%N; 
       [12392; 12375; 12390]%N]);
  ("zh"%string, mkProfile "Chinese"
      [Pattern "[\u4E00-\u9FAF]";
       Pattern "\b(\u7684|\u4E86|\u548C|\u662F|\u5728|\u6709|\u4E0D|\u6211|\u4F60|\u4ED6|\u5979|\u5B83|\u4EEC|\u8FD9|\u90A3|\u4EC0\u4E48|\u600E\u4E48|\u4E3A\u4EC0\u4E48|\u54EA\u91CC|\u4EC0\u4E48\u65F6\u5019)\b"]
      [[30340]%N; [20102]%N; [21644]%N; [26159]%N; [22312]%N; [26377]%N; 
       [19981]%N; [25105]%N; [20320]%N; [20182]%N; [22905]%N; [23427]%N; 
       [20204]%N; [36825]%N; [37027]%N; [20160; 20040]%N; [24590; 20040]%N; 
       [20026; 20160; 20040]%N; [21738; 37324]%N; 
       [20160; 20040; 26102; 20505]%N]);
  ("ko"%string, mkProfile "Korean"
      [Pattern "[\uAC00-\uD7A3]";
       Pattern "\b(\uC774|\uADF8|\uC800|\uC758|\uB97C|\uC744|\uC5D0|\uC5D0\uC11C|\uC640|\uACFC|\uB85C|\uC73C\uB85C|\uB294|\uC740|\uAC00|\uC774|\uD558\uB2E4|\uC788\uB2E4|\uC5C6\uB2E4|\uB418\uB2E4)\b"]
      [[51060]%N; [44536]%N; [51200]%N; [51032]%N; [47484]%N; [51012]%N; 
       [50640]%N; [50640; 49436]%N; [50752]%N; [44284]%N; [47196]%N; 
       [51004; 47196]%N; [45716]%N; [51008]%N; [44032]%N; [51060]%N; 
       [54616; 45796]%N; [51080; 45796]%N; [50630; 45796]%N; 
       [46104; 45796]%N])
 ].

Inductive detect_error :=
| InvalidContent      (* 'Invalid content: must be a non-empty string' *)
| InvalidSRTContent   (* 'Invalid SRT content: must be a non-empty string' *)
| NoTopResult         (* the TypeError of [topResult.confidence] on an empty table *).

Definition is_empty (s : jsstring) : bool :=
  match s with [] => true | _ => false end.

(** The lines of one block kept by [extractTextFromSRT]. *)
Definition block_text (block : jsstring) : list jsstring :=
  let lines := split_unit LF (trim block) in
  if List.length lines <? 3 then []
  else filter (fun line => negb (is_empty line)) (map trim (skipn 2 lines)).

Definition extractTextFromSRT (srtContent : value) : result detect_error jsstring :=
  if falsy srtContent || negb (is_string srtContent) then Err InvalidSRTContent
  else
    match srtContent with
    | VStr s =>
        let blocks := Regex.split Regex.eat_blank_line (trim s) in
        let textLines := flat_map block_text blocks in
        Ok (join (lit " ") textLines)
    | _ => Err InvalidSRTContent
    end.

Record Candidate := mkCandidate {
  code : string;
  candidate_name : string;
  confidence : Q
}.

Record DetectionResult := mkResult {
  detected : bool;
  language : option Candidate;
  result_confidence : Q;
  suggestions : list Candidate
}.

(** [array.sort((a, b) => b.confidence - a.confidence)]: the sort is stable
    and the comparator is an order on numbers, so the outcome is the stable
    arrangement by decreasing confidence, built here by insertion. *)
Fixpoint insert_by_confidence (x : Candidate) (l : list Candidate) : list Candidate :=
  match l with
  | [] => [x]
  | y :: l' =>
      if Qle_bool (confidence y) (confidence x) then x :: l
      else y :: insert_by_confidence x l'
  end.

Definition sort_by_confidence (l : list Candidate) : list Candidate :=
  fold_right insert_by_confidence [] l.

Definition of_nat (n : nat) : Q := inject_Z (Z.of_nat n).

Section Engine.

(** The regular-expression engine and the Unicode case mapping are those of
    the JavaScript runtime: [count_matches p text] is the length of
    [text.match(p) || []], [toLowerCase] is [String.prototype.toLowerCase]. *)
Variable count_matches : pattern -> jsstring -> nat.
Variable toLowerCase : jsstring -> jsstring.

(** [p.test(text)] on a fresh literal. *)
Definition test (p : pattern) (text : jsstring) : bool :=
  0 <? count_matches p text.

Definition lookup (langCode : string) : option Profile :=
  option_map snd (find (fun entry => String.eqb (fst entry) langCode) LANGUAGE_PATTERNS).

(** The accumulation of [patternScore] over the patterns of a profile. *)
Definition add_pattern_score (text : jsstring) (words : nat) (patternScore : Q)
           (p : pattern) : Q :=
  let matches := count_matches p text in
  if 0 <? matches
  then (patternScore + Qmin (of_nat matches / of_nat (Nat.max words 5)) 1)%Q
  else patternScore.

(** The character classes of the bonus tests. *)
Definition german_characters : pattern :=
  Pattern "[\u00E4\u00F6\u00FC\u00DF]".
Definition spanish_characters : pattern :=
  Pattern "[\u00F1\u00E1\u00E9\u00ED\u00F3\u00FA\u00FC]".
Definition french_characters : pattern :=
  Pattern "[\u00E0\u00E2\u00E4\u00E9\u00E8\u00EA\u00EB\u00EF\u00EE\u00F4\u00F6\u00F9\u00FB\u00FC\u00FF\u00E7]".

Definition calculateLanguageScore (text : jsstring) (langCode : string) : Q :=
  match lookup langCode with
  | None => 0%Q
  | Some language =>
      let textLower := toLowerCase text in
      let words :=
        filter (fun word => 1 <? List.length word)
               (Regex.split Regex.eat_spaces textLower) in
      if List.length words =? 0 then 0%Q
      else
        let patternScore :=
          fold_left (add_pattern_score text (List.length words))
                    (patterns language) 0%Q in
        let patternScore :=
          (patternScore / of_nat (List.length (patterns language)) * 2)%Q in
        let commonWordMatches :=
          List.length
            (filter (fun word => existsb (str_eqb word) (commonWords language)) words) in
        let commonWordScore :=
          (of_nat commonWordMatches / of_nat (List.length words) * 3)%Q in
        let score := (patternScore * (4 # 10) + commonWordScore * (6 # 10))%Q in
        let score :=
          if String.eqb langCode "de" && test german_characters text
          then (score + (3 # 10))%Q
          else if String.eqb langCode "es" && test spanish_characters text
          then (score + (3 # 10))%Q
          else if String.eqb langCode "fr" && test french_characters text
          then (score + (3 # 10))%Q
          else score in
        Qmin score 1
  end.

Definition minConfidence : Q := 1 # 10.

Definition detectLanguage (srtContent : value)
  : result detect_error DetectionResult :=
  if falsy srtContent || negb (is_string srtContent) then Err InvalidContent
  else
    match srtContent with
    | VStr s =>
        let extracted :=
          if includes (lit "-->") s
             || Regex.search (Regex.eat_timestamp Regex.is_comma_or_period) s
          then extractTextFromSRT srtContent
          else Ok s in
        match extracted with
        | Err e => Err e
        | Ok textContent =>
            if is_empty (trim textContent)
            then Ok (mkResult false None 0 [])
            else
              let scores :=
                map (fun entry =>
                       (fst entry, calculateLanguageScore textContent (fst entry)))
                    LANGUAGE_PATTERNS in
              let sortedResults :=
                sort_by_confidence
                  (map (fun cs =>
                          mkCandidate (fst cs)
                            (match lookup (fst cs) with
                             | Some language => name language
                             | None => EmptyString
                             end)
                            (snd cs))
                       scores) in
              match sortedResults with
              | [] => Err NoTopResult
              | topResult :: _ =>
                  let isDetected := Qle_bool minConfidence (confidence topResult) in
                  Ok (mkResult
                        isDetected
                        (if isDetected
                         then Some (mkCandidate (code topResult)
                                      (candidate_name topResult) (confidence topResult))
                         else None)
                        (confidence topResult)
                        (firstn 3
                           (filter (fun r =>
                                      Qle_bool (Qmin minConfidence (5 # 100)) (confidence r))
                                   sortedResults)))
              end
        end
    | _ => Err InvalidContent
    end.

(** [LANGUAGE_PATTERNS.hasOwnProperty(key)] and [LANGUAGE_PATTERNS[key]] for
    a key given as a JavaScript string. *)
Definition entry_of (key : jsstring) : option (string * Profile) :=
  find (fun entry => str_eqb (lit (fst entry)) key) LANGUAGE_PATTERNS.

Definition hasOwnProperty (key : jsstring) : bool :=
  match entry_of key with Some _ => true | None => false end.

Definition isValidLanguageCode (langCode : value) : bool :=
  match langCode with
  | VStr s => (List.length s =? 2) && hasOwnProperty (toLowerCase s)
  | _ => false
  end.

(** [getLanguageName]; [None] is [null]. *)
Definition getLanguageName (langCode : value) : option string :=
  if negb (isValidLanguageCode langCode) then None
  else
    match langCode with
    | VStr s => option_map (fun entry => name (snd entry)) (entry_of (toLowerCase s))
    | _ => None
    end.

End Engine.

End LanguageDetection.

(** * Specifications

    The notions the properties are stated with, and the sample inputs. *)

Module TimestampSpec.

(** A string [HH:MM:SS] followed by a separator and [mmm], from its nine
    digits. *)
Definition shape (sep h1 h2 m1 m2 s1 s2 f1 f2 f3 : N) : jsstring :=
  [h1; h2; COLON; m1; m2; COLON; s1; s2; sep; f1; f2; f3].

(** The digits of a timestamp with hours 00-99, minutes and seconds 00-59
    and three digits of milliseconds. *)
Definition digits_in_range (h1 h2 m1 m2 s1 s2 f1 f2 f3 : N) : Prop :=
  is_digit h1 = true /\ is_digit h2 = true /\
  is_digit05 m1 = true /\ is_digit m2 = true /\
  is_digit05 s1 = true /\ is_digit s2 = true /\
  is_digit f1 = true /\ is_digit f2 = true /\ is_digit f3 = true.

(** The domain of the conversion: the strings [HH:MM:SS,mmm] in range. *)
Definition in_domain (v : value) : Prop :=
  exists h1 h2 m1 m2 s1 s2 f1 f2 f3,
    digits_in_range h1 h2 m1 m2 s1 s2 f1 f2 f3 /\
    v = VStr (shape COMMA h1 h2 m1 m2 s1 s2 f1 f2 f3).

End TimestampSpec.

Module CueSpec.

Import VttGenerator.

(** A value that a template literal converts to a string: any but a Symbol
    and an object whose conversion throws. *)
Definition convertible (v : value) : Prop :=
  v <> VSymbol /\ v <> VObject None.

(** A record on which the callback of [generateVTT] does not throw: its two
    timestamps are strings accepted by the expression of [convertTimestamp],
    its text is defined and can be converted to a string. *)
Definition well_formed (o : subtitle) : Prop :=
  (exists st, startTime o = VStr st /\ timestampRegex st = true)
  /\ (exists et, endTime o = VStr et /\ timestampRegex et = true)
  /\ text o <> VUndefined
  /\ convertible (text o).

(** The text of the record is a string. *)
Definition string_text (o : subtitle) : Prop :=
  exists t, text o = VStr t.

(** [HH:MM:SS,mmm] with a period in place of the comma. *)
Definition with_period (timestamp : value) : jsstring :=
  match timestamp with
  | VStr s => firstn 8 s ++ [PERIOD] ++ skipn 9 s
  | _ => []
  end.

(** The text of a cue whose field is a string: the string itself. *)
Definition cue_text (o : subtitle) : jsstring :=
  match text o with
  | VStr t => t
  | _ => []
  end.

(** What the document holds for a record whose text is written as [t]. *)
Definition cue_with (o : subtitle) (t : jsstring) : jsstring :=
  with_period (startTime o) ++ lit " --> " ++ with_period (endTime o) ++ [LF]
  ++ t ++ [LF; LF].

(** What the document holds for a record whose text is a string. *)
Definition cue (o : subtitle) : jsstring := cue_with o (cue_text o).

End CueSpec.

Module IndexSpec.

Import SrtParser.

(** The lines of the content as the parser splits them. *)
Definition lines_of (s : jsstring) : list jsstring :=
  split_unit LF (replace_CR (replace_CRLF (strip_BOM s))).

(** An integer greater than or equal to [n]. *)
Definition integer_from (n : Z) (x : number) : Prop :=
  exists z, x = Finite z /\ (n <= z)%Z.

(** The record [r] is read from the block that starts at line [k]: that
    line, trimmed, is made of decimal digits and the index is the double
    nearest to the integer they write; the next line, trimmed, is a timing
    line and holds the two timestamps of the record. *)
Definition read_at (lines : list jsstring) (k : nat) (r : Subtitle) : Prop :=
  let indexLine := trim (nth k lines []) in
  let timestampLine := trim (nth (S k) lines []) in
  (S k < List.length lines)%nat
  /\ all_digits indexLine = true
  /\ index r = to_double (parseInt_digits indexLine)
  /\ timestampRegex timestampLine = true
  /\ startTime r = trim (nth 0 (split_arrow timestampLine) [])
  /\ endTime r = trim (nth 1 (split_arrow timestampLine) []).

End IndexSpec.

Module Samples.

Import SrtParser.

(** [1\n00:00:01,000 --> 00:00:03,000\nHello world\n\n2\n00:00:04,000 -->
    00:00:06,000\nThis is a test subtitle] *)
Definition two_blocks : jsstring :=
  lit "1" ++ [LF] ++ lit "00:00:01,000 --> 00:00:03,000" ++ [LF]
  ++ lit "Hello world" ++ [LF; LF]
  ++ lit "2" ++ [LF] ++ lit "00:00:04,000 --> 00:00:06,000" ++ [LF]
  ++ lit "This is a test subtitle".

Definition two_blocks_records : list Subtitle :=
  [mkSubtitle (Finite 1) (lit "00:00:01,000") (lit "00:00:03,000")
              (lit "Hello world");
   mkSubtitle (Finite 2) (lit "00:00:04,000") (lit "00:00:06,000")
              (lit "This is a test subtitle")].

(** [0\n00:00:01,000 --> 00:00:02,000\nHi] *)
Definition index_zero : jsstring :=
  lit "0" ++ [LF] ++ lit "00:00:01,000 --> 00:00:02,000" ++ [LF] ++ lit "Hi".

(** An index line of 310 digits [9]. *)
Definition index_of_310_digits : jsstring :=
  repeat 57%N 310 ++ [LF] ++ lit "00:00:01,000 --> 00:00:02,000" ++ [LF] ++ lit "Hi".

(** [1\n00:99:99,000 --> 00:00:03,000\nHi] *)
Definition minutes_99 : jsstring :=
  lit "1" ++ [LF] ++ lit "00:99:99,000 --> 00:00:03,000" ++ [LF] ++ lit "Hi".

(** [1\n00:00:01,000 --> 00:00:02,000\nPrice: 1,000] *)
Definition comma_in_text : jsstring :=
  lit "1" ++ [LF] ++ lit "00:00:01,000 --> 00:00:02,000" ++ [LF]
  ++ lit "Price: 1,000".

(** [1\n00:00:01,000 --> 00:00:02,000\n5\n00:00:03.000 --> 00:00:04.000] *)
Definition number_line_in_text : jsstring :=
  lit "1" ++ [LF] ++ lit "00:00:01,000 --> 00:00:02,000" ++ [LF]
  ++ lit "5" ++ [LF] ++ lit "00:00:03.000 --> 00:00:04.000".

End Samples.

Module Cp1252Spec.

Import Utf8 Iconv Encoding.

(** The bytes 0x80-0x9F to which windows-1252 gives a character: all of the
    range but 0x81, 0x8D, 0x8F, 0x90 and 0x9D. *)
Definition defined_high_byte (n : N) : Prop :=
  (0x80 <= n <= 0x9F)%N
  /\ n <> 0x81%N /\ n <> 0x8D%N /\ n <> 0x8F%N /\ n <> 0x90%N /\ n <> 0x9D%N.

(** Neither the UTF-8 byte order mark nor one of UTF-16. *)
Definition no_BOM (buf : Buffer) : Prop :=
  starts_with_bytes [0xEF; 0xBB; 0xBF]%N buf = false
  /\ starts_with_bytes [0xFF; 0xFE]%N buf = false
  /\ starts_with_bytes [0xFE; 0xFF]%N buf = false.

(** The decoding as UTF-8 holds a replacement character. *)
Definition not_UTF8 (buf : Buffer) : Prop :=
  includes_unit REPLACEMENT (decode_utf8 buf) = true.

End Cp1252Spec.

Module DetectSpec.

Import LanguageDetection.

(** The content is taken for SRT. *)
Definition looks_like_SRT (s : jsstring) : bool :=
  includes (lit "-->") s
  || Regex.search (Regex.eat_timestamp Regex.is_comma_or_period) s.

(** The text that is scored: the lines of text of the blocks when the
    content is taken for SRT, the content itself otherwise. *)
Definition text_after_extraction (s : jsstring) : jsstring :=
  if looks_like_SRT s
  then join (lit " ") (flat_map block_text (Regex.split Regex.eat_blank_line (trim s)))
  else s.

(** [{detected: false, language: null, confidence: 0, suggestions: []}] *)
Definition no_language : DetectionResult := mkResult false None 0 [].

(** Earlier entries have the larger confidence. *)
Definition by_decreasing_confidence (a b : Candidate) : Prop :=
  (confidence b <= confidence a)%Q.

Definition in_unit_interval (q : Q) : Prop := (0 <= q /\ q <= 1)%Q.

Section Engine.

Variable count_matches : pattern -> jsstring -> nat.
Variable toLowerCase : jsstring -> jsstring.

(** The candidates before the sort, one for each entry of the table. *)
Definition candidates (textContent : jsstring) : list Candidate :=
  map (fun cs =>
         mkCandidate (fst cs)
           (match lookup (fst cs) with
            | Some language => name language
            | None => EmptyString
            end)
           (snd cs))
      (map (fun entry => (fst entry, calculateLanguageScore count_matches toLowerCase textContent (fst entry)))
           LANGUAGE_PATTERNS).

(** The result on a string that is not empty. *)
Definition result_on (s : jsstring) : result detect_error DetectionResult :=
  let textContent := text_after_extraction s in
  if LanguageDetection.is_empty (trim textContent) then Ok no_language
  else
    match sort_by_confidence (candidates textContent) with
    | [] => Err NoTopResult
    | topResult :: _ =>
        let isDetected := Qle_bool minConfidence (confidence topResult) in
        Ok (mkResult
              isDetected
              (if isDetected
               then Some (mkCandidate (code topResult)
                            (candidate_name topResult) (confidence topResult))
               else None)
              (confidence topResult)
              (firstn 3
                 (filter (fun r =>
                            Qle_bool (Qmin minConfidence (5 # 100)) (confidence r))
                         (sort_by_confidence (candidates textContent)))))
    end.

End Engine.

End DetectSpec.

Module SampleEngine.

Import LanguageDetection.

(** An engine for the samples: no pattern ever matches, and the text is
    already in lower case. *)
Definition no_match (p : pattern) (text : jsstring) : nat := 0.
Definition lower_case_text (s : jsstring) : jsstring := s.

End SampleEngine.

Module ParsedSpec.

Import VttGenerator SrtParser CueSpec.

(** [^\d{2}:\d{2}:\d{2},\d{3}$], the form the parser checks. *)
Definition parser_timestamp (s : jsstring) : bool :=
  match Regex.eat_timestamp Regex.is_comma s with
  | Some [] => true
  | _ => false
  end.

(** The tens of the minutes and of the seconds are at most 5. *)
Definition minutes_seconds_in_range (s : jsstring) : bool :=
  is_digit05 (nth 3 s 0%N) && is_digit05 (nth 6 s 0%N).

Definition parser_timestamps (r : Subtitle) : Prop :=
  parser_timestamp (SrtParser.startTime r) = true
  /\ parser_timestamp (SrtParser.endTime r) = true.

Definition in_range (r : Subtitle) : Prop :=
  minutes_seconds_in_range (SrtParser.startTime r) = true
  /\ minutes_seconds_in_range (SrtParser.endTime r) = true.

(** The record as [generateVTT] reads it. *)
Definition as_object (r : Subtitle) : subtitle :=
  VttGenerator.mkSubtitle (VStr (SrtParser.startTime r)) (VStr (SrtParser.endTime r))
                          (VStr (SrtParser.text r)).

(** [,\d{3}] somewhere in the string. *)
Definition eat_comma_milliseconds (s : jsstring) : option jsstring :=
  match s with
  | k :: f1 :: f2 :: f3 :: rest =>
      if (k =? COMMA)%N && is_digit f1 && is_digit f2 && is_digit f3
      then Some rest else None
  | _ => None
  end.

Definition has_comma_milliseconds (s : jsstring) : bool :=
  Regex.search eat_comma_milliseconds s.

(** A line of digits immediately followed by a line that holds a timing. *)
Fixpoint has_number_before_timing (lines : list jsstring) : bool :=
  match lines with
  | l :: ((next :: _) as lines') =>
      all_digits l && vttTimestampRegex next || has_number_before_timing lines'
  | _ => false
  end.

(** A unit that is neither a space nor a minus sign is what a timestamp is
    made of; it cannot start an arrow. *)
Definition plain (c : N) : Prop := is_space c = false /\ c <> MINUS.

End ParsedSpec.

Module GenerateSpec.

Import VttGenerator CueSpec.




End GenerateSpec.

Module EncodingSpec.

Import Utf8 Iconv Encoding.

(** The five bytes of 0x80-0x9F that windows-1252 leaves undefined. *)
Definition undefined_high (b : byte) : bool :=
  existsb (N.eqb (Byte.to_N b)) [0x81; 0x8D; 0x8F; 0x90; 0x9D]%N.

(** The bytes of 0x80-0x9F that [detectEncoding] counts for windows-1252. *)
Definition defined_high (b : byte) : bool :=
  existsb (N.eqb (Byte.to_N b)) win1252Chars.

Definition is_ascii (b : byte) : bool := (Byte.to_N b <? 128)%N.

(** The text of a buffer read as ISO-8859-1: one unit for each byte. *)
Definition latin1_text (buf : Buffer) : jsstring := map Byte.to_N buf.

(** The text a reader gets who takes the UTF-8 bytes of [text] for
    ISO-8859-1. *)
Definition misread_as_latin1 (text : jsstring) : jsstring :=
  decode_iso88591 (Utf8.encode text).

(** The declared encoding reads the bytes of [buf] as ISO-8859-1 does, one
    character for each byte: what 'utf8', 'windows-1252' and 'iso-8859-1' do
    on ASCII bytes, and what is asked here of another encoding. *)
Definition reads_bytes_as_units (declared : option encoding) (buf : Buffer) : Prop :=
  match declared with
  | Some (other_encoding decode) => decode buf = map Byte.to_N buf
  | _ => True
  end.

(** A decoder that reads two bytes as one unit, low byte first, as 'utf16le'
    does on a buffer of even length. *)
Fixpoint two_bytes_a_unit (buf : Buffer) : jsstring :=
  match buf with
  | a :: b :: rest => (Byte.to_N a + 256 * Byte.to_N b)%N :: two_bytes_a_unit rest
  | _ => []
  end.

(** The UTF-8 bytes of the character of a byte in ISO-8859-1. *)
Definition utf8_of_byte (b : byte) : Buffer :=
  map byte_of (encode_code_point (Byte.to_N b)).

End EncodingSpec.

Module LineEndingSpec.

(** The text with every line feed written as carriage return and line
    feed. *)
Definition with_CRLF (s : jsstring) : jsstring :=
  flat_map (fun c => if (c =? LF)%N then [CR; LF] else [c]) s.

(** The text with every line feed written as a carriage return. *)
Definition with_CR (s : jsstring) : jsstring :=
  map (fun c => if (c =? LF)%N then CR else c) s.

(** The string holds a unit that is not a space. *)
Definition has_ink (s : jsstring) : bool :=
  existsb (fun c => negb (is_space c)) s.

End LineEndingSpec.

Module SupportedSpec.

Import LanguageDetection.

(** The candidate names an entry of the table, with the name of its
    profile. *)
Definition supported (c : Candidate) : Prop :=
  exists profile,
    In (code c, profile) LANGUAGE_PATTERNS /\ candidate_name c = name profile.

End SupportedSpec.

(** * Properties *)

(** ** Shared facts on strings *)

Lemma digit_not_comma (c : N) (H : is_digit c = true) : (c =? COMMA)%N = false.
Proof.
  unfold is_digit, COMMA in *. apply andb_prop in H as [H _].
  apply N.leb_le in H. apply N.eqb_neq. lia.
Qed.

Lemma digit05_is_digit (c : N) (H : is_digit05 c = true) : is_digit c = true.
Proof.
  unfold is_digit05, is_digit in *. apply andb_prop in H as [H1 H2].
  apply N.leb_le in H1. apply N.leb_le in H2.
  apply andb_true_intro. split; apply N.leb_le; lia.
Qed.

Lemma digit_not_space (c : N) (H : is_digit c = true) : is_space c = false.
Proof.
  unfold is_digit, is_space in *. apply andb_prop in H as [H1 H2].
  apply N.leb_le in H1. apply N.leb_le in H2.
  repeat (apply orb_false_intro);
    try (apply N.eqb_neq; lia);
    apply andb_false_iff; (left; apply N.leb_gt; lia) || (right; apply N.leb_gt; lia).
Qed.

Lemma str_eqb_eq (a b : jsstring) : str_eqb a b = true <-> a = b.
Proof.
  unfold str_eqb. destruct (list_eq_dec N.eq_dec a b); split; congruence.
Qed.

Lemma str_eqb_refl (a : jsstring) : str_eqb a a = true.
Proof. apply str_eqb_eq. reflexivity. Qed.

(** ** convertTimestamp *)

Import VttGenerator TimestampSpec.

Lemma timestampRegex_shape (s : jsstring) :
  timestampRegex s = true <->
  exists h1 h2 m1 m2 s1 s2 f1 f2 f3,
    digits_in_range h1 h2 m1 m2 s1 s2 f1 f2 f3 /\
    s = shape COMMA h1 h2 m1 m2 s1 s2 f1 f2 f3.
Proof.
  split.
  - intros H. unfold timestampRegex in H.
    do 12 (destruct s as [|? s]; [discriminate|]).
    destruct s; [|discriminate].
    repeat (apply andb_prop in H as [H ?]).
    repeat match goal with
           | E : (_ =? _)%N = true |- _ => apply N.eqb_eq in E; subst
           end.
    do 9 eexists. split; [|reflexivity].
    unfold digits_in_range. repeat split; try assumption.
    unfold is_digit. apply andb_true_intro. split; assumption.
  - intros (h1 & h2 & m1 & m2 & s1 & s2 & f1 & f2 & f3 & D & ->).
    destruct D as (D1 & D2 & D3 & D4 & D5 & D6 & D7 & D8 & D9).
    unfold shape, timestampRegex.
    rewrite D1, D2, D3, D4, D5, D6, D7, D8, D9, !N.eqb_refl. reflexivity.
Qed.

Lemma replace_first_shape h1 h2 m1 m2 s1 s2 f1 f2 f3
      (D : digits_in_range h1 h2 m1 m2 s1 s2 f1 f2 f3) :
  replace_first COMMA PERIOD (shape COMMA h1 h2 m1 m2 s1 s2 f1 f2 f3)
  = shape PERIOD h1 h2 m1 m2 s1 s2 f1 f2 f3.
Proof.
  destruct D as (H1 & H2 & H3 & H4 & H5 & H6 & H7 & H8 & H9).
  apply digit05_is_digit in H3, H5.
  unfold shape. simpl.
  rewrite (digit_not_comma _ H1), (digit_not_comma _ H2), (digit_not_comma _ H3),
    (digit_not_comma _ H4), (digit_not_comma _ H5), (digit_not_comma _ H6).
  reflexivity.
Qed.

Lemma convertTimestamp_shape h1 h2 m1 m2 s1 s2 f1 f2 f3
      (D : digits_in_range h1 h2 m1 m2 s1 s2 f1 f2 f3) :
  convertTimestamp (VStr (shape COMMA h1 h2 m1 m2 s1 s2 f1 f2 f3))
  = Ok (shape PERIOD h1 h2 m1 m2 s1 s2 f1 f2 f3).
Proof.
  unfold convertTimestamp.
  assert (R : timestampRegex (shape COMMA h1 h2 m1 m2 s1 s2 f1 f2 f3) = true).
  { apply timestampRegex_shape. do 9 eexists. split; [exact D|reflexivity]. }
  simpl falsy. simpl is_string. cbn [negb orb]. rewrite R. cbn [negb].
  rewrite replace_first_shape by exact D. reflexivity.
Qed.

Lemma convertTimestamp_ok_domain (v : value) (out : jsstring)
      (H : convertTimestamp v = Ok out) : in_domain v.
Proof.
  unfold convertTimestamp in H.
  destruct v as [| |b|n|s| |s|o];
    try (destruct (falsy _ || negb (is_string _)); discriminate H).
  destruct (falsy (VStr s) || negb (is_string (VStr s))); [discriminate|].
  destruct (timestampRegex s) eqn:R; [|discriminate].
  apply timestampRegex_shape in R as (h1 & h2 & m1 & m2 & s1 & s2 & f1 & f2 & f3 & D & ->).
  do 9 eexists. split; [exact D|reflexivity].
Qed.

(** C4. On every string [HH:MM:SS,mmm] with hours 00-99, minutes and seconds
    00-59 and three digits of milliseconds, [convertTimestamp] returns the
    same digits with the comma replaced by a period; it is injective on
    these strings; every other value, the values that are not strings and
    the empty string among them, makes it throw. *)
Theorem convertTimestamp_domain_image_injective :
  (forall h1 h2 m1 m2 s1 s2 f1 f2 f3,
      digits_in_range h1 h2 m1 m2 s1 s2 f1 f2 f3 ->
      convertTimestamp (VStr (shape COMMA h1 h2 m1 m2 s1 s2 f1 f2 f3))
      = Ok (shape PERIOD h1 h2 m1 m2 s1 s2 f1 f2 f3))
  /\ (forall a b,
         in_domain a -> in_domain b ->
         convertTimestamp a = convertTimestamp b -> a = b)
  /\ (forall v, ~ in_domain v -> exists e, convertTimestamp v = Err e).
Proof.
  split; [|split].
  - intros; apply convertTimestamp_shape; assumption.
  - intros a b (h1 & h2 & m1 & m2 & s1 & s2 & f1 & f2 & f3 & Da & ->)
           (k1 & k2 & n1 & n2 & t1 & t2 & g1 & g2 & g3 & Db & ->).
    rewrite !convertTimestamp_shape by assumption.
    unfold shape. intros E. inversion E. reflexivity.
  - intros v Hv. destruct (convertTimestamp v) as [out|e] eqn:E.
    + exfalso. apply Hv. exact (convertTimestamp_ok_domain _ _ E).
    + exists e. reflexivity.
Qed.

(** The conversion at [01:23:45,678], and the rejection of the empty string,
    of [null] and of minutes above 59. *)
Lemma convertTimestamp_domain_image_injective_witness :
  convertTimestamp (VStr (lit "01:23:45,678")) = Ok (lit "01:23:45.678")
  /\ (exists e, convertTimestamp (VStr []) = Err e)
  /\ (exists e, convertTimestamp VNull = Err e)
  /\ (exists e, convertTimestamp (VStr (lit "01:60:00,000")) = Err e).
Proof.
  destruct convertTimestamp_domain_image_injective as (Himg & _ & Hout).
  split; [|split; [|split]].
  - apply (Himg 48 49 50 51 52 53 54 55 56)%N. repeat split; reflexivity.
  - apply Hout.
    intros (h1 & h2 & m1 & m2 & s1 & s2 & f1 & f2 & f3 & _ & E). discriminate E.
  - apply Hout.
    intros (h1 & h2 & m1 & m2 & s1 & s2 & f1 & f2 & f3 & _ & E). discriminate E.
  - apply Hout.
    intros (h1 & h2 & m1 & m2 & s1 & s2 & f1 & f2 & f3 & D & E).
    unfold shape in E. vm_compute in E. inversion E; subst.
    destruct D as (_ & _ & D & _). vm_compute in D. discriminate D.
Defined.

(** ** generateVTT *)

Import CueSpec.

Lemma convertTimestamp_with_period (s : jsstring) (R : timestampRegex s = true) :
  convertTimestamp (VStr s) = Ok (with_period (VStr s)).
Proof.
  apply timestampRegex_shape in R
    as (h1 & h2 & m1 & m2 & s1 & s2 & f1 & f2 & f3 & D & ->).
  rewrite convertTimestamp_shape by exact D. reflexivity.
Qed.

Lemma convertible_converts (v : value) :
  convertible v -> exists t, to_js_string v = Some t.
Proof.
  intros [S O]. destruct v as [| |[|]|n|s| |s|[t|]]; cbn [to_js_string];
    try (eexists; reflexivity); congruence.
Qed.


(** The step on a well-formed record appends its cue, with the text as the
    template literal converts it. *)
Lemma append_cue_well_formed (vttContent : jsstring) (o : subtitle) (index : nat)
      (W : well_formed o) :
  exists t,
    to_js_string (text o) = Some t
    /\ append_cue vttContent (EObj o) index = Ok (vttContent ++ cue_with o t).
Proof.
  destruct W as ((st & Es & Rs) & (et & Ee & Re) & Ht & Hc).
  destruct (convertible_converts _ Hc) as [t Et].
  exists t. split; [exact Et|].
  unfold append_cue, cue_with. rewrite Es, Ee, Et.
  pose proof Rs as Ss. pose proof Re as Se.
  apply timestampRegex_shape in Ss as (? & ? & ? & ? & ? & ? & ? & ? & ? & _ & Ss).
  apply timestampRegex_shape in Se as (? & ? & ? & ? & ? & ? & ? & ? & ? & _ & Se).
  assert (Fs : falsy (VStr st) = false) by (rewrite Ss; reflexivity).
  assert (Fe : falsy (VStr et) = false) by (rewrite Se; reflexivity).
  rewrite Fs, Fe. cbn [orb].
  destruct (text o) eqn:Et'; try congruence;
    rewrite !convertTimestamp_with_period by assumption;
    rewrite <- !app_assoc; reflexivity.
Qed.

Lemma append_cue_string_text (vttContent : jsstring) (o : subtitle) (index : nat)
      (W : well_formed o) (T : string_text o) :
  append_cue vttContent (EObj o) index = Ok (vttContent ++ cue o).
Proof.
  destruct (append_cue_well_formed vttContent o index W) as (t & Et & A).
  destruct T as [t' E]. unfold cue, cue_text. rewrite E in *.
  cbn [to_js_string] in Et. inversion Et; subst t'. exact A.
Qed.

Lemma forEach_cue_well_formed (l : list subtitle) :
  Forall well_formed l ->
  Forall string_text l ->
  forall index vttContent,
    forEach_cue (map EObj l) index vttContent = Ok (vttContent ++ flat_map cue l).
Proof.
  induction 1 as [|o l W _ IH]; intros T index vttContent;
    cbn [map forEach_cue flat_map].
  - rewrite app_nil_r. reflexivity.
  - inversion T as [|? ? To Tl]; subst.
    rewrite append_cue_string_text by assumption.
    rewrite (IH Tl), app_assoc. reflexivity.
Qed.

Lemma generateVTT_on_well_formed (l : list subtitle) :
  l <> [] ->
  Forall well_formed l ->
  Forall string_text l ->
  generateVTT (Arr (map EObj l))
  = Ok (lit "WEBVTT" ++ [LF; LF] ++ flat_map cue l).
Proof.
  intros Hne W T.
  destruct l as [|o l]; [congruence|].
  unfold generateVTT. cbn [map].
  change (EObj o :: map EObj l) with (map EObj (o :: l)).
  rewrite forEach_cue_well_formed by assumption.
  unfold header. rewrite <- app_assoc. reflexivity.
Qed.

(** C1, as the code has it.  For a non-empty array of records whose
    timestamps match the expression of [convertTimestamp] and whose text is
    a string, [generateVTT] returns exactly ['WEBVTT\n\n'] followed, for each
    record in order, by the start timestamp with a period, [' --> '], the
    end timestamp with a period, a line feed, the text as it is and two line
    feeds.  The document starts with [W], not with a byte order mark, and
    nothing is written between the cues, no sequence number either. *)
Theorem generateVTT_exact_document (l : list subtitle) :
  l <> [] ->
  Forall well_formed l ->
  Forall string_text l ->
  generateVTT (Arr (map EObj l))
  = Ok (lit "WEBVTT" ++ [LF; LF] ++ flat_map cue l)
  /\ (forall o t, text o = VStr t ->
                  cue o = with_period (startTime o) ++ lit " --> "
                          ++ with_period (endTime o) ++ [LF] ++ t ++ [LF; LF])
  /\ first_is_BOM (lit "WEBVTT" ++ [LF; LF] ++ flat_map cue l) = false.
Proof.
  intros Hne W T. split; [|split].
  - apply generateVTT_on_well_formed; assumption.
  - intros o t E. unfold cue, cue_with, cue_text. rewrite E. reflexivity.
  - reflexivity.
Qed.

(** The two records of the first scenario of the specification. *)
Lemma generateVTT_exact_document_witness :
  generateVTT
    (Arr [EObj (mkSubtitle (VStr (lit "00:00:01,000")) (VStr (lit "00:00:03,000"))
                           (VStr (lit "Hello world")));
          EObj (mkSubtitle (VStr (lit "00:00:04,000")) (VStr (lit "00:00:06,000"))
                           (VStr (lit "This is a test subtitle")))])
  = Ok (lit "WEBVTT" ++ [LF; LF]
        ++ lit "00:00:01.000 --> 00:00:03.000" ++ [LF]
        ++ lit "Hello world" ++ [LF; LF]
        ++ lit "00:00:04.000 --> 00:00:06.000" ++ [LF]
        ++ lit "This is a test subtitle" ++ [LF; LF]).
Proof.
  refine (proj1 (generateVTT_exact_document
            [mkSubtitle (VStr (lit "00:00:01,000")) (VStr (lit "00:00:03,000"))
                        (VStr (lit "Hello world"));
             mkSubtitle (VStr (lit "00:00:04,000")) (VStr (lit "00:00:06,000"))
                        (VStr (lit "This is a test subtitle"))] _ _ _)).
  - discriminate.
  - repeat apply Forall_cons; try apply Forall_nil;
      (split; [eexists; split; reflexivity|]);
      (split; [eexists; split; reflexivity|]);
      (split; [discriminate|split; discriminate]).
  - repeat apply Forall_cons; try apply Forall_nil; eexists; reflexivity.
Defined.

(** C1 as stated fails: a Symbol is a defined text, and the template
    literal that writes the text throws on it; [generateVTT] reports the
    error for the record. *)
Lemma defined_text_can_make_generateVTT_throw :
  let o := mkSubtitle (VStr (lit "00:00:01,000")) (VStr (lit "00:00:03,000"))
                      VSymbol in
  timestampRegex (lit "00:00:01,000") = true
  /\ timestampRegex (lit "00:00:03,000") = true
  /\ text o <> VUndefined
  /\ generateVTT (Arr [EObj o]) = Err (ProcessingTypeError 0).
Proof.
  intros o.
  split; [reflexivity|]. split; [reflexivity|]. split; [discriminate|].
  reflexivity.
Qed.

(** A text that is a number is written as the number prints. *)
Example number_text_is_converted :
  generateVTT
    (Arr [EObj (mkSubtitle (VStr (lit "00:00:01,000")) (VStr (lit "00:00:03,000"))
                           (VNum (10 ^ 21)))])
  = Ok (lit "WEBVTT" ++ [LF; LF]
        ++ lit "00:00:01.000 --> 00:00:03.000" ++ [LF]
        ++ lit "1e+21" ++ [LF; LF]).
Proof. vm_compute. reflexivity. Qed.

(** ** The two validators of the generated document *)

(** C7. When [validateVTTFormat] throws on a string, the report of
    [validateBunnyStreamCompliance] on that string has a non-empty list of
    errors and is not valid. *)
Theorem strict_failure_is_reported (s : jsstring) (e : vtt_error) :
  validateVTTFormat (VStr s) = Err e ->
  errors (validateBunnyStreamCompliance (VStr s)) <> []
  /\ isValid (validateBunnyStreamCompliance (VStr s)) = false.
Proof.
  intros H. unfold validateBunnyStreamCompliance. rewrite H.
  cbn [errors isValid List.length Nat.eqb]. split.
  - discriminate.
  - apply andb_false_r.
Qed.

(** The document of the sixth scenario, which starts with a byte order
    mark. *)
Lemma strict_failure_is_reported_witness :
  let s := BOM :: lit "WEBVTT" ++ [LF; LF]
               ++ lit "00:00:01.000 --> 00:00:03.000" ++ [LF] ++ lit "Hi" ++ [LF; LF] in
  validateVTTFormat (VStr s) = Err ContainsBOM
  /\ errors (validateBunnyStreamCompliance (VStr s)) <> []
  /\ isValid (validateBunnyStreamCompliance (VStr s)) = false.
Proof.
  intros s. split; [reflexivity|].
  apply (strict_failure_is_reported s ContainsBOM). reflexivity.
Defined.

(** ** The SRT parser *)

Import SrtParser.

Lemma parseSRTInternal_empty : parseSRTInternal (VStr []) = Err NoValidBlocks.
Proof. reflexivity. Qed.

(** C3, as the code has it.  [validateSRTFormat] returns [true] exactly
    when its argument is a primitive string and [parseSRT] returns records
    for it instead of throwing: on primitive strings the two functions
    agree. *)
Theorem validate_iff_parse_succeeds (content : value) :
  validateSRTFormat content = true
  <-> is_string content = true /\ exists subtitles, parseSRT content = Ok subtitles.
Proof.
  unfold validateSRTFormat, parseSRT.
  destruct content as [| |b|n|s| |s|o]; cbn [falsy is_string negb orb];
    rewrite ?orb_true_r;
    try (split; [discriminate|intros [H _]; discriminate H]).
  destruct s as [|c s].
  - rewrite parseSRTInternal_empty. cbn.
    split; [discriminate|intros [_ [x Hx]]; discriminate Hx].
  - cbn [orb].
    destruct (parseSRTInternal (VStr (c :: s))) as [subs|e]; split.
    + intros _. split; [reflexivity|]. exists subs. reflexivity.
    + reflexivity.
    + discriminate.
    + intros [_ [x Hx]]. discriminate Hx.
Qed.

(** C3 as stated fails: [parseSRT] has no guard on the type of its argument
    and parses a String object; [validateSRTFormat] rejects every value that
    is not a primitive string. *)
Lemma string_object_is_parsed_but_not_valid :
  parseSRT (VStringObject Samples.two_blocks) = Ok Samples.two_blocks_records
  /\ validateSRTFormat (VStringObject Samples.two_blocks) = false.
Proof.
  split; [vm_compute; reflexivity|reflexivity].
Qed.

(** What a block that parses tells about its record. *)
Lemma parse_block_ok (i : nat) (l : jsstring) (rest : list jsstring)
      (sub : Subtitle) (pos : nat * list jsstring)
      (H : parse_block i l rest = Ok (sub, pos)) :
  all_digits (trim l) = true
  /\ index sub = to_double (parseInt_digits (trim l))
  /\ exists t rest',
      rest = t :: rest'
      /\ SrtParser.timestampRegex (trim t) = true
      /\ startTime sub = trim (nth 0 (split_arrow (trim t)) [])
      /\ endTime sub = trim (nth 1 (split_arrow (trim t)) []).
Proof.
  unfold parse_block in H.
  destruct (all_digits (trim l)) eqn:D; [|discriminate H].
  cbn [negb] in H.
  destruct rest as [|t rest']; [discriminate H|].
  destruct (SrtParser.timestampRegex (trim t)) eqn:T; [|discriminate H].
  cbn [negb] in H.
  destruct (collect_text (i + 2) rest' []) as [[textLines position]|e]; [|discriminate H].
  destruct (negb (existsb _ textLines)); [discriminate H|].
  inversion H; subst. cbn [index SrtParser.startTime SrtParser.endTime].
  repeat split. exists t, rest'. repeat split. exact T.
Qed.

(** A property of every record a block can yield holds of all the records
    of the loop. *)
Lemma parse_blocks_invariant (P : Subtitle -> Prop)
      (HP : forall i l rest sub pos, parse_block i l rest = Ok (sub, pos) -> P sub) :
  forall i rest subtitles out,
    Forall P subtitles ->
    parse_blocks i rest subtitles = Ok out ->
    Forall P out.
Proof.
  intros i rest subtitles.
  funelim (parse_blocks i rest subtitles); intros out HF HO.
  - inversion HO; subst. exact HF.
  - apply (H P HP out); [|exact HO].
    apply Forall_app. split; [exact HF|].
    constructor; [|constructor]. eapply HP. exact e2.
  - discriminate HO.
Qed.

Lemma parseSRT_invariant (P : Subtitle -> Prop)
      (HP : forall i l rest sub pos, parse_block i l rest = Ok (sub, pos) -> P sub)
      (content : value) (subtitles : list Subtitle)
      (H : parseSRT content = Ok subtitles) :
  Forall P subtitles.
Proof.
  unfold parseSRT in H.
  destruct (parseSRTInternal content) as [subs|e] eqn:E; [|discriminate H].
  inversion H; subst. unfold parseSRTInternal in E.
  destruct (string_of content) as [s|]; [|discriminate E].
  destruct (parse_blocks 0 _ []) as [subs|e] eqn:B; [|discriminate E].
  destruct (List.length subs =? 0); [discriminate E|].
  inversion E; subst.
  eapply parse_blocks_invariant; [exact HP|constructor|exact B].
Qed.

Lemma parseInt_digits_from (s : jsstring) :
  forallb is_digit s = true ->
  forall acc, (0 <= acc)%Z ->
    (0 <= fold_left (fun acc c => 10 * acc + (Z.of_N c - 48)) s acc)%Z.
Proof.
  induction s as [|c s IH]; cbn [forallb fold_left]; intros D acc A.
  - exact A.
  - apply andb_prop in D as [Dc Ds]. apply IH; [exact Ds|].
    unfold is_digit in Dc. apply andb_prop in Dc as [Dc _].
    apply N.leb_le in Dc. lia.
Qed.

Lemma parseInt_digits_nonneg (s : jsstring) :
  all_digits s = true -> (0 <= parseInt_digits s)%Z.
Proof.
  intros D. unfold parseInt_digits. apply parseInt_digits_from; [|lia].
  destruct s; [discriminate D|exact D].
Qed.

Lemma parseInt_digits_below (s : jsstring) :
  forallb is_digit s = true ->
  forall acc, (0 <= acc)%Z ->
    (fold_left (fun acc c => 10 * acc + (Z.of_N c - 48)) s acc
     < (acc + 1) * 10 ^ Z.of_nat (List.length s))%Z.
Proof.
  induction s as [|c s IH]; cbn [forallb fold_left List.length]; intros D acc A.
  - change (10 ^ Z.of_nat 0)%Z with 1%Z. lia.
  - apply andb_prop in D as [Dc Ds].
    unfold is_digit in Dc. apply andb_prop in Dc as [Dlo Dhi].
    apply N.leb_le in Dlo, Dhi.
    specialize (IH Ds (10 * acc + (Z.of_N c - 48))%Z ltac:(lia)).
    rewrite Nat2Z.inj_succ, Z.pow_succ_r by lia.
    assert (P : (0 < 10 ^ Z.of_nat (List.length s))%Z) by (apply Z.pow_pos_nonneg; lia).
    nia.
Qed.

Lemma parseInt_digits_short (s : jsstring) :
  all_digits s = true ->
  (List.length s <= 15)%nat ->
  (parseInt_digits s < 2 ^ 53)%Z.
Proof.
  intros D L.
  assert (F : forallb is_digit s = true) by (destruct s; [discriminate D|exact D]).
  pose proof (parseInt_digits_below s F 0%Z ltac:(lia)) as B.
  fold (parseInt_digits s) in B.
  assert (M : (10 ^ Z.of_nat (List.length s) <= 10 ^ 15)%Z)
    by (apply Z.pow_le_mono_r; lia).
  assert (C : (10 ^ 15 < 2 ^ 53)%Z) by reflexivity.
  lia.
Qed.

(** Below 2^53 every integer is a double. *)
Lemma to_double_exact (z : Z) : (z < 2 ^ 53)%Z -> to_double z = Finite z.
Proof.
  intros H. unfold to_double. apply Z.ltb_lt in H. rewrite H. reflexivity.
Qed.

Import IndexSpec.

(** The double nearest to a natural number is a natural number or
    [Infinity]. *)
Lemma to_double_natural (z : Z) :
  (0 <= z)%Z -> to_double z = Infinity \/ integer_from 0 (to_double z).
Proof.
  intros H. unfold to_double.
  destruct (z <? 2 ^ 53)%Z; [right; exists z; split; [reflexivity|exact H]|].
  cbv zeta.
  destruct (2 ^ 1024 <=? _)%Z; [left; reflexivity|right].
  eexists. split; [reflexivity|].
  apply Z.shiftl_nonneg.
  assert (Q : (0 <= Z.shiftr z (Z.log2 z - 52))%Z) by (apply Z.shiftr_nonneg; exact H).
  repeat match goal with
         | |- context [if ?c then _ else _] => destruct c
         end; lia.
Qed.

(** The position of the loops and the lines that remain go together. *)
Lemma skipn_cons (lines : list jsstring) :
  forall i l rest,
    skipn i lines = l :: rest ->
    nth i lines [] = l /\ skipn (S i) lines = rest /\ (i < List.length lines)%nat.
Proof.
  induction lines as [|x lines IH]; intros [|i] l rest H;
    cbn [skipn nth List.length] in *; try discriminate H.
  - inversion H; subst. repeat split. lia.
  - destruct (IH i l rest H) as (N & S & L). repeat split; [exact N|exact S|lia].
Qed.

Lemma skip_empty_position (lines rest : list jsstring) :
  forall i,
    skipn i lines = rest ->
    skipn (fst (skip_empty i rest)) lines = snd (skip_empty i rest).
Proof.
  induction rest as [|l rest IH]; intros i H; cbn [skip_empty].
  - exact H.
  - destruct (SrtParser.is_empty (trim l)); [|exact H].
    apply IH. apply skipn_cons in H as (_ & H & _). exact H.
Qed.

Lemma collect_text_position (lines rest : list jsstring) :
  forall i textLines out j rest',
    skipn i lines = rest ->
    collect_text i rest textLines = Ok (out, (j, rest')) ->
    skipn j lines = rest'.
Proof.
  induction rest as [|line rest IH]; intros i textLines out j rest' H C;
    cbn [collect_text] in C.
  - inversion C; subst. exact H.
  - destruct (next_block_begins i line rest) as [[|]|e]; [| |discriminate C].
    + inversion C; subst. exact H.
    + eapply IH; [|exact C]. apply skipn_cons in H as (_ & H & _). exact H.
Qed.

Lemma parse_block_position (lines : list jsstring) (i : nat) (l : jsstring)
      (rest : list jsstring) (sub : Subtitle) (j : nat) (rest' : list jsstring) :
  skipn i lines = l :: rest ->
  parse_block i l rest = Ok (sub, (j, rest')) ->
  read_at lines i sub /\ skipn j lines = rest'.
Proof.
  intros H B.
  apply skipn_cons in H as (N0 & H1 & L0).
  unfold parse_block in B.
  destruct (all_digits (trim l)) eqn:D; [|discriminate B].
  cbn [negb] in B.
  destruct rest as [|t rest1]; [discriminate B|].
  apply skipn_cons in H1 as (N1 & H2 & L1).
  destruct (SrtParser.timestampRegex (trim t)) eqn:T; [|discriminate B].
  cbn [negb] in B.
  destruct (collect_text (i + 2) rest1 []) as [[textLines [j' rest'']]|e] eqn:C;
    [|discriminate B].
  destruct (negb (existsb _ textLines)); [discriminate B|].
  inversion B; subst sub j' rest''. split.
  - unfold read_at. cbv zeta. rewrite N0, N1.
    cbn [index SrtParser.startTime SrtParser.endTime].
    repeat split; try assumption.
  - eapply collect_text_position; [|exact C].
    replace (i + 2) with (S (S i)) by lia. exact H2.
Qed.

Lemma parse_blocks_positions (lines : list jsstring) :
  forall i rest subtitles out,
    skipn i lines = rest ->
    Forall (fun r => exists k, read_at lines k r) subtitles ->
    parse_blocks i rest subtitles = Ok out ->
    Forall (fun r => exists k, read_at lines k r) out.
Proof.
  intros i rest subtitles.
  funelim (parse_blocks i rest subtitles); intros out HS HF HO.
  - inversion HO; subst. exact HF.
  - pose proof (skip_empty_position lines rest i HS) as K.
    rewrite e1 in K. cbn [fst snd] in K.
    destruct (parse_block_position lines _ _ _ _ _ _ K e2) as [R K'].
    apply (H lines out K'); [|exact HO].
    apply Forall_app. split; [exact HF|].
    constructor; [|constructor]. exists i1. exact R.
  - discriminate HO.
Qed.

(** C9, as the code has it.  Every record returned by [parseSRT] is read
    from a block of the content: its index is the Number that [parseInt]
    gives for the index line of the block, a line of decimal digits.  That
    Number is an integer greater than or equal to 0 or [Infinity], and it is
    the decimal value of the line whenever the line has at most 15
    digits. *)
Theorem parsed_index_is_natural (content : value) (subtitles : list Subtitle) :
  parseSRT content = Ok subtitles ->
  exists s,
    string_of content = Some s
    /\ Forall (fun r =>
                 exists k,
                   read_at (lines_of s) k r
                   /\ (index r = Infinity \/ integer_from 0 (index r))
                   /\ ((List.length (trim (nth k (lines_of s) [])) <= 15)%nat ->
                       index r
                       = Finite (parseInt_digits (trim (nth k (lines_of s) [])))))
              subtitles.
Proof.
  intros H. unfold parseSRT in H.
  destruct (parseSRTInternal content) as [subs|e] eqn:E; [|discriminate H].
  inversion H; subst subs. unfold parseSRTInternal in E.
  destruct (string_of content) as [s|]; [|discriminate E].
  exists s. split; [reflexivity|].
  destruct (parse_blocks 0 _ []) as [subs|e] eqn:B; [|discriminate E].
  destruct (List.length subs =? 0); [discriminate E|].
  inversion E; subst subs.
  pose proof (parse_blocks_positions (lines_of s) 0 _ [] subtitles
                eq_refl (Forall_nil _) B) as P.
  eapply Forall_impl; [|exact P].
  intros r (k & R). exists k. split; [exact R|].
  destruct R as (_ & D & I & _). rewrite I. split.
  - apply to_double_natural, parseInt_digits_nonneg. exact D.
  - intros L. apply to_double_exact, parseInt_digits_short; assumption.
Qed.

Lemma parseSRT_two_blocks :
  parseSRT (VStr Samples.two_blocks) = Ok Samples.two_blocks_records.
Proof. vm_compute. reflexivity. Qed.

(** The two blocks of the first scenario: indices 1 and 2, read from lines 0
    and 4. *)
Lemma parsed_index_is_natural_witness :
  parseSRT (VStr Samples.two_blocks) = Ok Samples.two_blocks_records
  /\ exists s,
      string_of (VStr Samples.two_blocks) = Some s
      /\ Forall (fun r =>
                   exists k,
                     read_at (lines_of s) k r
                     /\ (index r = Infinity \/ integer_from 0 (index r))
                     /\ ((List.length (trim (nth k (lines_of s) [])) <= 15)%nat ->
                         index r
                         = Finite (parseInt_digits (trim (nth k (lines_of s) [])))))
                Samples.two_blocks_records.
Proof.
  assert (H : parseSRT (VStr Samples.two_blocks) = Ok Samples.two_blocks_records)
    by (vm_compute; reflexivity).
  split; [exact H|].
  exact (parsed_index_is_natural (VStr Samples.two_blocks) _ H).
Defined.

(** C9 as stated fails: a block whose index line is [0] is accepted and its
    record has index 0. *)
Lemma index_zero_is_accepted :
  exists subtitles,
    parseSRT (VStr Samples.index_zero) = Ok subtitles
    /\ ~ Forall (fun r => integer_from 1 (index r)) subtitles.
Proof.
  exists [mkSubtitle (Finite 0) (lit "00:00:01,000") (lit "00:00:02,000") (lit "Hi")].
  split.
  - vm_compute. reflexivity.
  - intros F. inversion F as [|r l (z & E & Hz) _]; subst.
    cbn in E. inversion E; subst z. lia.
Qed.

(** An index line of 310 digits is read as [Infinity], which is no
    integer. *)
Example long_index_line_is_Infinity :
  parseSRT (VStr Samples.index_of_310_digits)
  = Ok [mkSubtitle Infinity (lit "00:00:01,000") (lit "00:00:02,000") (lit "Hi")].
Proof. vm_compute. reflexivity. Qed.

(** ** Detection of the encoding *)

Import Utf8 Iconv Encoding.

Import Cp1252Spec.

Lemma win1252Chars_defined (n : N) :
  defined_high_byte n -> existsb (N.eqb n) win1252Chars = true.
Proof.
  intros ((Hlo & Hhi) & H1 & H2 & H3 & H4 & H5).
  assert (C : exists k, (k < 32)%nat /\ n = (128 + N.of_nat k)%N).
  { exists (N.to_nat (n - 128)). split; lia. }
  destruct C as (k & Hk & ->).
  do 32 (destruct k as [|k]; [try reflexivity; exfalso; cbn in *; congruence|]).
  lia.
Qed.

Lemma scan_byte_keeps (st : counters) (b : byte) :
  (0 < windows1252Indicators st)%nat /\ hasHighBytes st = true ->
  (0 < windows1252Indicators (scan_byte st b))%nat
  /\ hasHighBytes (scan_byte st b) = true.
Proof.
  intros [W H]. unfold scan_byte.
  destruct (127 <? Byte.to_N b)%N; [|split; assumption].
  cbn [windows1252Indicators hasHighBytes]. split; [|reflexivity].
  destruct ((128 <=? Byte.to_N b) && (Byte.to_N b <=? 159))%N; [|exact W].
  destruct (existsb _ win1252Chars); lia.
Qed.

Lemma scan_keeps (buf : Buffer) :
  forall st,
    (0 < windows1252Indicators st)%nat /\ hasHighBytes st = true ->
    (0 < windows1252Indicators (fold_left scan_byte buf st))%nat
    /\ hasHighBytes (fold_left scan_byte buf st) = true.
Proof.
  induction buf as [|b buf IH]; intros st H; cbn [fold_left].
  - exact H.
  - apply IH. apply scan_byte_keeps. exact H.
Qed.

Lemma scan_byte_counts (st : counters) (b : byte) :
  defined_high_byte (Byte.to_N b) ->
  (0 < windows1252Indicators (scan_byte st b))%nat
  /\ hasHighBytes (scan_byte st b) = true.
Proof.
  intros D. pose proof (win1252Chars_defined _ D) as E.
  destruct D as ((Hlo & Hhi) & _).
  unfold scan_byte.
  replace (127 <? Byte.to_N b)%N with true by (symmetry; apply N.ltb_lt; lia).
  replace ((128 <=? Byte.to_N b) && (Byte.to_N b <=? 159))%N with true
    by (symmetry; apply andb_true_intro; split; apply N.leb_le; lia).
  rewrite E. cbn [windows1252Indicators hasHighBytes]. split; [lia|reflexivity].
Qed.

Lemma scan_finds (buf : Buffer) :
  (exists b, In b buf /\ defined_high_byte (Byte.to_N b)) ->
  forall st,
    (0 < windows1252Indicators (fold_left scan_byte buf st))%nat
    /\ hasHighBytes (fold_left scan_byte buf st) = true.
Proof.
  induction buf as [|x buf IH]; intros (b & I & D) st.
  - destruct I.
  - cbn [fold_left]. destruct I as [->|I].
    + apply scan_keeps. apply scan_byte_counts. exact D.
    + apply IH. exists b. split; assumption.
Qed.

(** C6, as the code has it.  For every buffer with no byte order mark whose
    decoding as UTF-8 holds a replacement character, if a byte of the range
    0x80-0x9F that windows-1252 defines (any but 0x81, 0x8D, 0x8F, 0x90,
    0x9D) is present then [detectEncoding] returns ['windows-1252']. *)
Theorem detectEncoding_windows1252 (buf : Buffer) :
  no_BOM buf ->
  not_UTF8 buf ->
  (exists b, In b buf /\ defined_high_byte (Byte.to_N b)) ->
  detectEncoding (Some buf) = windows_1252.
Proof.
  intros (B1 & B2 & B3) U E.
  destruct (scan_finds buf E (mkCounters false 0 0)) as [W H].
  unfold detectEncoding.
  destruct buf as [|x buf]; [destruct E as (b & [] & _)|].
  rewrite B1, B2, B3. cbn [orb].
  unfold not_UTF8 in U. rewrite U. cbn [negb].
  rewrite H. cbn [negb].
  apply Nat.ltb_lt in W. rewrite W. reflexivity.
Qed.

(** The single byte 0x92, the apostrophe of windows-1252. *)
Lemma detectEncoding_windows1252_witness :
  detectEncoding (Some [x92]) = windows_1252.
Proof.
  apply (detectEncoding_windows1252 [x92]).
  - repeat split; reflexivity.
  - reflexivity.
  - exists x92. split; [left; reflexivity|].
    unfold defined_high_byte. cbn. repeat split; try lia; discriminate.
Defined.

(** C6 as stated fails: the byte 0x81 lies in 0x80-0x9F, the buffer has no
    byte order mark and is not UTF-8, and the answer is ['iso-8859-1']. *)
Lemma undefined_high_byte_is_latin1 :
  no_BOM [x81]
  /\ not_UTF8 [x81]
  /\ (exists b, In b [x81] /\ (0x80 <= Byte.to_N b <= 0x9F)%N)
  /\ detectEncoding (Some [x81]) = iso_8859_1
  /\ detectEncoding (Some [x81]) <> windows_1252.
Proof.
  split; [repeat split; reflexivity|].
  split; [reflexivity|].
  split; [exists x81; split; [left; reflexivity|cbn; lia]|].
  split; [reflexivity|discriminate].
Qed.

(** ** The repair of double encoding *)

(** A text without the marker U+00C3 is returned as it is. *)
Lemma fixDoubleEncodedUTF8_without_marker (text : jsstring) :
  includes_unit A_TILDE text = false -> fixDoubleEncodedUTF8 text = text.
Proof.
  intros H. unfold fixDoubleEncodedUTF8. rewrite H. reflexivity.
Qed.

(** The result is the text itself or a string without the marker. *)
Lemma fixDoubleEncodedUTF8_cases (text : jsstring) :
  fixDoubleEncodedUTF8 text = text
  \/ includes_unit A_TILDE (fixDoubleEncodedUTF8 text) = false.
Proof.
  unfold fixDoubleEncodedUTF8.
  destruct (includes_unit A_TILDE text) eqn:M; cbn [negb].
  - destruct (str_eqb (decode_utf8 (encode_latin1 text)) text); cbn [orb].
    + left. reflexivity.
    + destruct (includes_unit A_TILDE (decode_utf8 (encode_latin1 text))) eqn:F.
      * left. reflexivity.
      * right. exact F.
  - left. reflexivity.
Qed.

(** A second run changes nothing, whatever the text. *)
Lemma fixDoubleEncodedUTF8_idempotent (text : jsstring) :
  fixDoubleEncodedUTF8 (fixDoubleEncodedUTF8 text) = fixDoubleEncodedUTF8 text.
Proof.
  destruct (fixDoubleEncodedUTF8_cases text) as [E|F].
  - rewrite E. exact E.
  - apply fixDoubleEncodedUTF8_without_marker. exact F.
Qed.

(** A text repaired once: [M\u00C3\u00BCller] becomes [M\u00FCller]. *)
Example fixDoubleEncodedUTF8_repairs :
  fixDoubleEncodedUTF8 [77; 195; 188; 108; 108; 101; 114]%N
  = [77; 252; 108; 108; 101; 114]%N.
Proof. reflexivity. Qed.

(** C5 fails on the code.  The Portuguese word [N\u00C3O] is correct text
    that holds the marker: its Latin-1 bytes 4E C3 4F are not UTF-8, the
    decoder answers [N\uFFFDO], a string that differs from the text and has
    no marker, and the function returns it. *)
Theorem fixDoubleEncodedUTF8_damages_clean_text :
  fixDoubleEncodedUTF8 [78; 195; 79]%N = [78; 65533; 79]%N
  /\ fixDoubleEncodedUTF8 [78; 195; 79]%N <> [78; 195; 79]%N.
Proof.
  split; [reflexivity|discriminate].
Qed.

(** ** Language detection *)

Import LanguageDetection.

Import DetectSpec.

Lemma insert_by_confidence_Forall (P : Candidate -> Prop) (x : Candidate)
      (l : list Candidate) :
  P x -> Forall P l -> Forall P (insert_by_confidence x l).
Proof.
  intros Hx. induction 1 as [|y l Hy Hl IH]; cbn [insert_by_confidence].
  - constructor; [exact Hx|constructor].
  - destruct (Qle_bool (confidence y) (confidence x)).
    + constructor; [exact Hx|]. constructor; assumption.
    + constructor; assumption.
Qed.

Lemma sort_by_confidence_Forall (P : Candidate -> Prop) (l : list Candidate) :
  Forall P l -> Forall P (sort_by_confidence l).
Proof.
  induction 1 as [|x l Hx Hl IH]; cbn [sort_by_confidence fold_right].
  - constructor.
  - apply insert_by_confidence_Forall; assumption.
Qed.

Lemma insert_by_confidence_sorted (x : Candidate) (l : list Candidate) :
  StronglySorted by_decreasing_confidence l ->
  StronglySorted by_decreasing_confidence (insert_by_confidence x l).
Proof.
  induction 1 as [|y l Hs IH Hy]; cbn [insert_by_confidence].
  - constructor; constructor.
  - destruct (Qle_bool (confidence y) (confidence x)) eqn:C.
    + apply Qle_bool_iff in C.
      constructor; [constructor; assumption|].
      constructor; [exact C|].
      eapply Forall_impl; [|exact Hy].
      intros z Hz. unfold by_decreasing_confidence in *.
      eapply Qle_trans; eassumption.
    + constructor; [exact IH|].
      apply insert_by_confidence_Forall; [|exact Hy].
      unfold by_decreasing_confidence.
      apply Qlt_le_weak, Qnot_le_lt. intros L.
      apply Qle_bool_iff in L. congruence.
Qed.

Lemma sort_by_confidence_sorted (l : list Candidate) :
  StronglySorted by_decreasing_confidence (sort_by_confidence l).
Proof.
  induction l as [|x l IH]; cbn [sort_by_confidence fold_right].
  - constructor.
  - apply insert_by_confidence_sorted. exact IH.
Qed.

Lemma insert_by_confidence_not_nil (x : Candidate) (l : list Candidate) :
  insert_by_confidence x l <> [].
Proof.
  destruct l as [|y l]; cbn [insert_by_confidence]; [discriminate|].
  destruct (Qle_bool _ _); discriminate.
Qed.

Lemma filter_sorted (f : Candidate -> bool) (l : list Candidate) :
  StronglySorted by_decreasing_confidence l ->
  StronglySorted by_decreasing_confidence (filter f l).
Proof.
  induction 1 as [|y l Hs IH Hy]; cbn [filter].
  - constructor.
  - destruct (f y); [|exact IH].
    constructor; [exact IH|].
    apply Forall_forall. intros z Hz. apply filter_In in Hz as [Hz _].
    rewrite Forall_forall in Hy. apply Hy. exact Hz.
Qed.

Lemma firstn_sorted (n : nat) (l : list Candidate) :
  StronglySorted by_decreasing_confidence l ->
  StronglySorted by_decreasing_confidence (firstn n l).
Proof.
  intros H. revert n. induction H as [|y l Hs IH Hy]; intros [|n]; cbn [firstn];
    try constructor.
  - apply IH.
  - apply Forall_forall. intros z Hz.
    rewrite Forall_forall in Hy. apply Hy.
    rewrite <- (firstn_skipn n l). apply in_or_app. left. exact Hz.
Qed.

Lemma firstn_filter_Forall (P : Candidate -> Prop) (f : Candidate -> bool)
      (n : nat) (l : list Candidate) :
  Forall P l -> Forall P (firstn n (filter f l)).
Proof.
  intros H. apply Forall_forall. intros z Hz.
  rewrite Forall_forall in H. apply H.
  assert (I : In z (filter f l)).
  { rewrite <- (firstn_skipn n (filter f l)). apply in_or_app. left. exact Hz. }
  apply filter_In in I as [I _]. exact I.
Qed.

Lemma of_nat_nonneg (n : nat) : (0 <= of_nat n)%Q.
Proof.
  unfold of_nat, Qle. cbn. lia.
Qed.

Lemma ratio_nonneg (a b : nat) : (0 <= of_nat a / of_nat b)%Q.
Proof.
  unfold Qdiv. apply Qmult_le_0_compat; [apply of_nat_nonneg|].
  apply Qinv_le_0_compat, of_nat_nonneg.
Qed.

Section DetectorProperties.

Variable count_matches : pattern -> jsstring -> nat.
Variable toLowerCase : jsstring -> jsstring.

Let score := calculateLanguageScore count_matches toLowerCase.
Let detect := detectLanguage count_matches toLowerCase.

Lemma pattern_score_nonneg (text : jsstring) (words : nat) (ps : list pattern) :
  forall acc, (0 <= acc)%Q ->
    (0 <= fold_left (add_pattern_score count_matches text words) ps acc)%Q.
Proof.
  induction ps as [|p ps IH]; intros acc A; cbn [fold_left].
  - exact A.
  - apply IH. unfold add_pattern_score.
    destruct (0 <? count_matches p text); [|exact A].
    rewrite <- (Qplus_0_r 0). apply Qplus_le_compat; [exact A|].
    apply Q.min_glb; [apply ratio_nonneg|discriminate].
Qed.

Lemma calculateLanguageScore_bounds (text : jsstring) (langCode : string) :
  in_unit_interval (score text langCode).
Proof.
  unfold score, calculateLanguageScore, in_unit_interval.
  destruct (lookup langCode) as [language|]; [|split; discriminate].
  cbv zeta.
  set (words := filter _ _).
  destruct (List.length words =? 0); [split; discriminate|].
  split; [|apply Q.le_min_r].
  apply Q.min_glb; [|discriminate].
  set (ps := fold_left _ _ _).
  assert (Hps : (0 <= ps)%Q) by (apply pattern_score_nonneg; discriminate).
  set (cw := List.length (filter (fun word : jsstring => existsb (str_eqb word) (commonWords language)) words)).
  assert (B : (0 <= ps / of_nat (List.length (patterns language)) * 2 * (4 # 10)
                    + of_nat cw / of_nat (List.length words) * 3 * (6 # 10))%Q).
  { rewrite <- (Qplus_0_r 0). apply Qplus_le_compat.
    - repeat (apply Qmult_le_0_compat; try discriminate).
      + exact Hps.
      + apply Qinv_le_0_compat, of_nat_nonneg.
    - repeat (apply Qmult_le_0_compat; try discriminate).
      + apply of_nat_nonneg.
      + apply Qinv_le_0_compat, of_nat_nonneg. }
  assert (B3 : forall q, (0 <= q)%Q -> (0 <= q + (3 # 10))%Q).
  { intros q Hq. rewrite <- (Qplus_0_r 0). apply Qplus_le_compat; [exact Hq|discriminate]. }
  repeat match goal with
         | |- context [if ?c then _ else _] => destruct c
         end; auto.
Qed.

Lemma candidates_bounds (textContent : jsstring) :
  Forall (fun c => in_unit_interval (confidence c)) (candidates count_matches toLowerCase textContent).
Proof.
  unfold candidates. rewrite map_map. apply Forall_forall.
  intros c Hc. apply in_map_iff in Hc as (entry & <- & _).
  cbn [confidence snd fst]. apply calculateLanguageScore_bounds.
Qed.

Lemma candidates_not_nil (textContent : jsstring) :
  sort_by_confidence (candidates count_matches toLowerCase textContent) <> [].
Proof.
  unfold candidates, LANGUAGE_PATTERNS.
  cbn [map sort_by_confidence fold_right].
  apply insert_by_confidence_not_nil.
Qed.

Lemma detectLanguage_on_string (c : N) (s : jsstring) :
  detect (VStr (c :: s)) = result_on count_matches toLowerCase (c :: s).
Proof.
  unfold detect, detectLanguage, result_on, text_after_extraction,
    looks_like_SRT, extractTextFromSRT.
  cbn [falsy is_string negb orb].
  destruct (includes (lit "-->") (c :: s)
            || Regex.search (Regex.eat_timestamp Regex.is_comma_or_period) (c :: s));
    reflexivity.
Qed.

Lemma detectLanguage_not_string (v : value) :
  is_string v = false -> detect v = Err InvalidContent.
Proof.
  intros H. unfold detect, detectLanguage. rewrite H.
  cbn [negb]. rewrite orb_true_r. reflexivity.
Qed.

Lemma detectLanguage_empty_string : detect (VStr []) = Err InvalidContent.
Proof. reflexivity. Qed.

Lemma result_on_ok (s : jsstring) :
  exists r, result_on count_matches toLowerCase s = Ok r.
Proof.
  unfold result_on. cbv zeta.
  destruct (LanguageDetection.is_empty _); [eexists; reflexivity|].
  pose proof (candidates_not_nil (text_after_extraction s)) as N.
  destruct (sort_by_confidence _); [congruence|eexists; reflexivity].
Qed.

End DetectorProperties.

(** C8. On every string for which [detectLanguage] returns a result, the
    suggestions are sorted by non-increasing confidence and are at most
    three, [detected] holds exactly when the top confidence is at least 0.1,
    [language] is [null] exactly when [detected] is false, and the top
    confidence, that of the language and those of the suggestions lie in
    [0,1]. *)
Theorem detection_result_invariants
        (count_matches : pattern -> jsstring -> nat)
        (toLowerCase : jsstring -> jsstring)
        (s : jsstring) (r : DetectionResult) :
  detectLanguage count_matches toLowerCase (VStr s) = Ok r ->
  StronglySorted by_decreasing_confidence (suggestions r)
  /\ (List.length (suggestions r) <= 3)%nat
  /\ (detected r = true <-> (1 # 10 <= result_confidence r)%Q)
  /\ (language r = None <-> detected r = false)
  /\ in_unit_interval (result_confidence r)
  /\ Forall (fun c => in_unit_interval (confidence c)) (suggestions r)
  /\ (forall c, language r = Some c -> in_unit_interval (confidence c)).
Proof.
  intros H. destruct s as [|c s]; [discriminate H|].
  rewrite detectLanguage_on_string in H. unfold result_on in H. cbv zeta in H.
  destruct (LanguageDetection.is_empty _).
  { inversion H; subst. unfold no_language. cbn.
    repeat split; try constructor; try discriminate; try lia.
    intros L. exfalso. revert L. unfold Qle. cbn. lia. }
  pose proof (sort_by_confidence_sorted
                (candidates count_matches toLowerCase (text_after_extraction (c :: s))))
    as Hsorted.
  pose proof (sort_by_confidence_Forall _ _
                (candidates_bounds count_matches toLowerCase
                                   (text_after_extraction (c :: s))))
    as Hbounds.
  destruct (sort_by_confidence _) as [|top others] eqn:E; [discriminate H|].
  assert (Htop : in_unit_interval (confidence top)) by (inversion Hbounds; assumption).
  remember (firstn 3 (filter _ (top :: others))) as sug eqn:Es in H.
  inversion H; subst r; clear H.
  cbn [suggestions detected language result_confidence].
  split; [rewrite Es; apply firstn_sorted, filter_sorted; exact Hsorted|].
  split; [rewrite Es; apply firstn_le_length|].
  split; [unfold minConfidence; apply Qle_bool_iff|].
  split.
  { destruct (Qle_bool minConfidence (confidence top));
      split; intros; congruence. }
  split; [exact Htop|].
  split; [rewrite Es; apply firstn_filter_Forall; exact Hbounds|].
  intros x Hx. destruct (Qle_bool minConfidence (confidence top)); [|discriminate Hx].
  inversion Hx; subst. exact Htop.
Qed.

(** The text [the cat is on]: half of its words are common English words. *)
Lemma detection_result_invariants_witness :
  exists r,
    detectLanguage SampleEngine.no_match SampleEngine.lower_case_text
                   (VStr (lit "the cat is on")) = Ok r
    /\ detected r = true
    /\ StronglySorted by_decreasing_confidence (suggestions r)
    /\ (List.length (suggestions r) <= 3)%nat
    /\ in_unit_interval (result_confidence r).
Proof.
  eexists. split; [vm_compute; reflexivity|].
  split; [reflexivity|].
  pose proof (detection_result_invariants
                SampleEngine.no_match SampleEngine.lower_case_text
                (lit "the cat is on") _ ltac:(vm_compute; reflexivity)) as H.
  destruct H as (H1 & H2 & _ & _ & H5 & _).
  split; [exact H1|]. split; [exact H2|exact H5].
Defined.

(** C10, as the code has it.  [detectLanguage] returns [{detected: false,
    language: null, confidence: 0, suggestions: []}] for every string that
    is not empty and is empty or blank after the extraction of text; it
    throws 'Invalid content' exactly for the values that are not strings and
    for the empty string, and throws nothing else. *)
Theorem detectLanguage_blank_and_invalid
        (count_matches : pattern -> jsstring -> nat)
        (toLowerCase : jsstring -> jsstring) :
  let detect := detectLanguage count_matches toLowerCase in
  (forall s, s <> [] -> trim (text_after_extraction s) = [] ->
             detect (VStr s) = Ok no_language)
  /\ (forall v, detect v = Err InvalidContent <-> is_string v = false \/ v = VStr [])
  /\ (forall v e, detect v = Err e -> e = InvalidContent).
Proof.
  intros detect.
  assert (Hstr : forall c s, exists r, detect (VStr (c :: s)) = Ok r).
  { intros c s. unfold detect. rewrite detectLanguage_on_string. apply result_on_ok. }
  split; [|split].
  - intros [|c s] Hne Hblank; [congruence|].
    unfold detect. rewrite detectLanguage_on_string. unfold result_on. cbv zeta.
    rewrite Hblank. reflexivity.
  - intros v. split.
    + intros H. destruct v as [| |b|n|[|c s]| |s|o]; auto.
      destruct (Hstr c s) as [r Hr]. congruence.
    + intros [H | ->].
      * apply detectLanguage_not_string. exact H.
      * reflexivity.
  - intros v e H. destruct v as [| |b|n|[|c s]| |s|o];
      try (unfold detect in H; rewrite detectLanguage_not_string in H by reflexivity;
           congruence).
    + cbn in H. congruence.
    + destruct (Hstr c s) as [r Hr]. congruence.
Qed.

(** Three spaces give the empty result; [null] and the empty string are
    rejected. *)
Lemma detectLanguage_blank_and_invalid_witness :
  detectLanguage SampleEngine.no_match SampleEngine.lower_case_text
                 (VStr (lit "   ")) = Ok no_language
  /\ detectLanguage SampleEngine.no_match SampleEngine.lower_case_text VNull
     = Err InvalidContent
  /\ detectLanguage SampleEngine.no_match SampleEngine.lower_case_text (VStr [])
     = Err InvalidContent.
Proof.
  destruct (detectLanguage_blank_and_invalid
              SampleEngine.no_match SampleEngine.lower_case_text) as (B & I & _).
  split; [|split].
  - apply B; [discriminate|reflexivity].
  - apply I. left. reflexivity.
  - apply I. right. reflexivity.
Defined.

(** C10 as stated fails: the empty string is a string, and it is rejected
    with 'Invalid content' instead of giving the empty result. *)
Lemma empty_string_is_rejected :
  is_string (VStr []) = true
  /\ trim [] = []
  /\ (forall count_matches toLowerCase,
         detectLanguage count_matches toLowerCase (VStr []) = Err InvalidContent).
Proof.
  split; [reflexivity|]. split; [reflexivity|]. intros. reflexivity.
Qed.

(** ** The timestamps of the parser *)

Import ParsedSpec.

Lemma eat_arrow_plain (c : N) (s : jsstring) :
  plain c -> Regex.eat_arrow (c :: s) = None.
Proof.
  intros [Hs Hm]. unfold Regex.eat_arrow. cbn [drop_spaces]. rewrite Hs.
  destruct s as [|b [|d rest]]; try reflexivity.
  apply N.eqb_neq in Hm. rewrite Hm. reflexivity.
Qed.

Lemma split_go_plain (p : jsstring) :
  Forall plain p ->
  forall s piece,
    Regex.split_go Regex.eat_arrow (p ++ s) 0 piece
    = Regex.split_go Regex.eat_arrow s 0 (rev p ++ piece).
Proof.
  induction 1 as [|c p Hc Hp IH]; intros s piece.
  - reflexivity.
  - cbn [app Regex.split_go]. rewrite eat_arrow_plain by exact Hc.
    rewrite IH. cbn [rev]. rewrite <- app_assoc. reflexivity.
Qed.

Lemma split_go_skip (pre : jsstring) :
  forall s piece,
    Regex.split_go Regex.eat_arrow (pre ++ s) (List.length pre) piece
    = Regex.split_go Regex.eat_arrow s 0 piece.
Proof.
  induction pre as [|c pre IH]; intros s piece.
  - reflexivity.
  - cbn [app List.length Regex.split_go]. apply IH.
Qed.

Lemma drop_spaces_suffix (s : jsstring) :
  exists ws, s = ws ++ drop_spaces s.
Proof.
  induction s as [|c s [ws IH]].
  - exists []. reflexivity.
  - cbn [drop_spaces]. destruct (is_space c).
    + exists (c :: ws). cbn [app]. rewrite <- IH. reflexivity.
    + exists []. reflexivity.
Qed.

(** A match of [\s*-->\s*] is a prefix of at least three units. *)
Lemma eat_arrow_prefix (s rest : jsstring) :
  Regex.eat_arrow s = Some rest ->
  exists c pre, s = (c :: pre) ++ rest.
Proof.
  unfold Regex.eat_arrow. intros H.
  destruct (drop_spaces_suffix s) as [ws1 E1].
  destruct (drop_spaces s) as [|a [|b [|c r]]]; try discriminate H.
  destruct ((a =? MINUS)%N && (b =? MINUS)%N && (c =? GT)%N); [|discriminate H].
  inversion H; subst rest.
  destruct (drop_spaces_suffix r) as [ws2 E2].
  destruct ws1 as [|w ws1].
  - exists a, (b :: c :: ws2). rewrite E1. cbn [app]. rewrite <- E2. reflexivity.
  - exists w, (ws1 ++ a :: b :: c :: ws2). rewrite E1 at 1.
    cbn [app]. rewrite <- !app_assoc. cbn [app]. rewrite <- E2. reflexivity.
Qed.

Lemma digit_plain (c : N) : is_digit c = true -> plain c.
Proof.
  intros H. split; [apply digit_not_space; exact H|].
  unfold is_digit in H. apply andb_prop in H as [H _]. apply N.leb_le in H.
  unfold MINUS. lia.
Qed.

(** What a match of the timestamp of the parser at the start of a string
    tells: twelve plain units, themselves a timestamp that trimming leaves
    as it is. *)
Lemma eat_timestamp_prefix (s rest : jsstring) :
  Regex.eat_timestamp Regex.is_comma s = Some rest ->
  exists a,
    s = a ++ rest
    /\ Forall plain a
    /\ parser_timestamp a = true
    /\ trim a = a.
Proof.
  unfold Regex.eat_timestamp. intros H.
  do 12 (destruct s as [|? s]; [discriminate H|]).
  destruct (_ && _) eqn:C in H; [|discriminate H].
  inversion H; subst rest; clear H.
  repeat match type of C with
         | (_ && _) = true => apply andb_prop in C as [C ?]
         end.
  unfold Regex.is_comma in *.
  repeat match goal with
         | E : (_ =? _)%N = true |- _ => apply N.eqb_eq in E; subst
         end.
  eexists [_; _; _; _; _; _; _; _; _; _; _; _].
  split; [reflexivity|].
  assert (Pc : plain COLON) by (split; [reflexivity|discriminate]).
  assert (Pk : plain COMMA) by (split; [reflexivity|discriminate]).
  split; [repeat (apply Forall_cons); try apply Forall_nil; auto using digit_plain|].
  split.
  - unfold parser_timestamp, Regex.eat_timestamp, Regex.is_comma.
    repeat match goal with
           | E : is_digit _ = true |- _ => rewrite E; clear E
           end.
    reflexivity.
  - repeat match goal with
           | E : is_digit ?c = true |- _ => apply digit_not_space in E
           end.
    unfold trim.
    do 2 (cbn [drop_spaces rev app];
          repeat match goal with
                 | E : is_space ?c = false |- _ => rewrite E
                 end).
    reflexivity.
Qed.

Lemma split_arrow_timing_line (l : jsstring) :
  SrtParser.timestampRegex l = true ->
  exists a b,
    split_arrow l = [a; b]
    /\ (parser_timestamp a = true /\ trim a = a)
    /\ (parser_timestamp b = true /\ trim b = b).
Proof.
  unfold SrtParser.timestampRegex, Regex.timing_line, Regex.eat_timing.
  destruct (Regex.eat_timestamp Regex.is_comma l) as [r|] eqn:E1; [|discriminate].
  destruct (Regex.eat_arrow r) as [r'|] eqn:E2; [|discriminate].
  destruct (Regex.eat_timestamp Regex.is_comma r') as [[|x xs]|] eqn:E3;
    try discriminate.
  intros _.
  apply eat_timestamp_prefix in E1 as (a & -> & Pa & Ta & Ra).
  apply eat_timestamp_prefix in E3 as (b & Eb & Pb & Tb & Rb).
  destruct (eat_arrow_prefix _ _ E2) as (c & pre & Er).
  exists a, b. split; [|split; split; assumption].
  unfold split_arrow, Regex.split.
  rewrite split_go_plain by exact Pa.
  rewrite app_nil_r, Er. cbn [app Regex.split_go].
  change (c :: pre ++ r') with ((c :: pre) ++ r'). rewrite <- Er, E2, Er.
  unfold Regex.consumed. cbn [app List.length].
  rewrite length_app.
  replace (S (List.length pre + List.length r') - List.length r' - 1)
    with (List.length pre) by lia.
  rewrite split_go_skip, Eb, split_go_plain by exact Pb.
  cbn [Regex.split_go]. rewrite !app_nil_r, !rev_involutive. reflexivity.
Qed.

Lemma parse_block_timestamps (i : nat) (l : jsstring) (rest : list jsstring)
      (sub : Subtitle) (pos : nat * list jsstring) :
  parse_block i l rest = Ok (sub, pos) -> parser_timestamps sub.
Proof.
  intros H. apply parse_block_ok in H as (_ & _ & t & rest' & _ & T & Es & Ee).
  apply split_arrow_timing_line in T as (a & b & S & (Ta & Ra) & (Tb & Rb)).
  rewrite S in Es, Ee. cbn [nth] in Es, Ee.
  unfold parser_timestamps. rewrite Es, Ee, Ra, Rb. split; assumption.
Qed.

(** On a timestamp of the parser, the expression of the generator only adds
    the bound on minutes and seconds. *)
Lemma generator_regex_on_parsed (a : jsstring) :
  parser_timestamp a = true ->
  VttGenerator.timestampRegex a = minutes_seconds_in_range a.
Proof.
  unfold parser_timestamp, Regex.eat_timestamp. intros H.
  do 12 (destruct a as [|? a]; [discriminate H|]).
  destruct (_ && _) eqn:C in H; [|discriminate H].
  destruct a; [|discriminate H]. clear H.
  repeat match type of C with
         | (_ && _) = true => apply andb_prop in C as [C ?]
         end.
  unfold Regex.is_comma in *.
  unfold VttGenerator.timestampRegex, minutes_seconds_in_range. cbn [nth].
  repeat match goal with
         | E : _ = true |- _ => rewrite E; clear E
         end.
  cbn [andb]. rewrite !andb_true_r. reflexivity.
Qed.

Lemma parsed_without_comma (a : jsstring) :
  parser_timestamp a = true ->
  includes_unit COMMA (with_period (VStr a)) = false.
Proof.
  unfold parser_timestamp, Regex.eat_timestamp. intros H.
  do 12 (destruct a as [|? a]; [discriminate H|]).
  destruct (_ && _) eqn:C in H; [|discriminate H].
  destruct a; [|discriminate H]. clear H.
  repeat match type of C with
         | (_ && _) = true => apply andb_prop in C as [C ?]
         end.
  repeat match goal with
         | E : (_ =? _)%N = true |- _ => apply N.eqb_eq in E; subst
         | E : is_digit ?c = true |- _ => apply digit_not_comma in E
         end.
  unfold includes_unit, with_period. cbn [firstn skipn app existsb].
  repeat match goal with
         | E : (?c =? COMMA)%N = false |- _ =>
             rewrite (N.eqb_sym COMMA c), E; clear E
         end.
  reflexivity.
Qed.

Lemma parsed_in_range_well_formed (r : Subtitle) :
  parser_timestamps r -> in_range r -> well_formed (as_object r).
Proof.
  intros [Ps Pe] [Rs Re]. unfold well_formed, as_object.
  cbn [VttGenerator.startTime VttGenerator.endTime VttGenerator.text].
  split; [|split; [|split; [|split]]].
  - eexists. split; [reflexivity|]. rewrite generator_regex_on_parsed; assumption.
  - eexists. split; [reflexivity|]. rewrite generator_regex_on_parsed; assumption.
  - discriminate.
  - discriminate.
  - discriminate.
Qed.

Lemma parsed_string_text (r : Subtitle) : string_text (as_object r).
Proof. eexists. reflexivity. Qed.

Lemma append_cue_ok_in_range (vttContent out : jsstring) (r : Subtitle) (index : nat) :
  parser_timestamps r ->
  append_cue vttContent (EObj (as_object r)) index = Ok out ->
  in_range r.
Proof.
  intros [Ps Pe] H. unfold append_cue, as_object, convertTimestamp in H.
  cbn [VttGenerator.startTime VttGenerator.endTime VttGenerator.text is_string negb] in H.
  destruct (falsy (VStr (SrtParser.startTime r)) || falsy (VStr (SrtParser.endTime r))
            || false); [discriminate H|].
  destruct (falsy (VStr (SrtParser.startTime r)) || false); [discriminate H|].
  destruct (VttGenerator.timestampRegex (SrtParser.startTime r)) eqn:Rs;
    [|discriminate H].
  cbn [negb] in H.
  destruct (falsy (VStr (SrtParser.endTime r)) || false); [discriminate H|].
  destruct (VttGenerator.timestampRegex (SrtParser.endTime r)) eqn:Re;
    [|discriminate H].
  rewrite generator_regex_on_parsed in Rs, Re by assumption.
  split; assumption.
Qed.

Lemma forEach_cue_ok_in_range (l : list Subtitle) :
  Forall parser_timestamps l ->
  forall index vttContent out,
    forEach_cue (map EObj (map as_object l)) index vttContent = Ok out ->
    Forall in_range l.
Proof.
  induction 1 as [|r l P _ IH]; intros index vttContent out H.
  - constructor.
  - cbn [map forEach_cue] in H.
    destruct (append_cue vttContent (EObj (as_object r)) index) as [v|e] eqn:A;
      [|discriminate H].
    constructor.
    + eapply append_cue_ok_in_range; eassumption.
    + eapply IH. exact H.
Qed.

Lemma parseSRT_not_nil (content : value) (subtitles : list Subtitle) :
  parseSRT content = Ok subtitles -> subtitles <> [].
Proof.
  unfold parseSRT, parseSRTInternal. intros H.
  destruct (string_of content) as [s|]; [|discriminate H].
  destruct (parse_blocks 0 _ []) as [subs|e]; [|discriminate H].
  destruct subs as [|x subs]; [discriminate H|].
  cbn in H. inversion H. discriminate.
Qed.

Lemma to_input_objects (l : list Subtitle) :
  to_input l = Arr (map EObj (map as_object l)).
Proof.
  unfold to_input. rewrite map_map. reflexivity.
Qed.

Lemma startsWith_app (p s : jsstring) : startsWith p (p ++ s) = true.
Proof.
  induction p as [|c p IH]; [reflexivity|].
  cbn [app startsWith]. rewrite N.eqb_refl. exact IH.
Qed.

(** C2, as the code has it.  For every value that [parseSRT] accepts, the
    timestamps of the records have the form [\d{2}:\d{2}:\d{2},\d{3}];
    [generateVTT] on the records returns instead of throwing exactly when
    the minutes and the seconds of all of them are at most 59; what it
    returns is ['WEBVTT\n\n'] followed by the cues of the records, so it
    starts with that header, and the timestamps it writes hold no comma.
    The text of a cue is copied as it is. *)
Theorem parse_then_generate (content : value) (subtitles : list Subtitle) :
  parseSRT content = Ok subtitles ->
  Forall parser_timestamps subtitles
  /\ ((exists out, generateVTT (to_input subtitles) = Ok out)
      <-> Forall in_range subtitles)
  /\ (forall out,
         generateVTT (to_input subtitles) = Ok out ->
         out = lit "WEBVTT" ++ [LF; LF] ++ flat_map cue (map as_object subtitles)
         /\ startsWith (lit "WEBVTT" ++ [LF; LF]) out = true
         /\ Forall (fun r =>
                      includes_unit COMMA (with_period (VStr (SrtParser.startTime r)))
                      = false
                      /\ includes_unit COMMA (with_period (VStr (SrtParser.endTime r)))
                         = false)
                   subtitles).
Proof.
  intros H.
  assert (P : Forall parser_timestamps subtitles).
  { refine (parseSRT_invariant _ _ content subtitles H).
    intros i l rest sub pos B. eapply parse_block_timestamps. exact B. }
  pose proof (parseSRT_not_nil _ _ H) as N.
  assert (G : forall out,
             generateVTT (to_input subtitles) = Ok out -> Forall in_range subtitles).
  { intros out O. rewrite to_input_objects in O. unfold generateVTT in O.
    destruct subtitles as [|r l]; [congruence|].
    eapply forEach_cue_ok_in_range; [exact P|exact O]. }
  assert (W : Forall in_range subtitles ->
              generateVTT (to_input subtitles)
              = Ok (lit "WEBVTT" ++ [LF; LF] ++ flat_map cue (map as_object subtitles))).
  { intros R. rewrite to_input_objects.
    apply generateVTT_on_well_formed.
    - destruct subtitles; [congruence|discriminate].
    - apply Forall_forall. intros o Ho.
      apply in_map_iff in Ho as (r & <- & Hr).
      rewrite Forall_forall in P, R.
      apply parsed_in_range_well_formed; auto.
    - apply Forall_forall. intros o Ho.
      apply in_map_iff in Ho as (r & <- & Hr).
      apply parsed_string_text. }
  split; [exact P|]. split.
  - split.
    + intros [out O]. exact (G out O).
    + intros R. eexists. exact (W R).
  - intros out O. pose proof (W (G out O)) as E.
    assert (E' : out = lit "WEBVTT" ++ [LF; LF]
                       ++ flat_map cue (map as_object subtitles)) by congruence.
    split; [exact E'|]. split.
    + rewrite E'. rewrite app_assoc. apply startsWith_app.
    + eapply Forall_impl; [|exact P].
      intros r [Ps Pe]. split; apply parsed_without_comma; assumption.
Qed.

(** The two blocks of the first scenario. *)
Lemma parse_then_generate_witness :
  parseSRT (VStr Samples.two_blocks) = Ok Samples.two_blocks_records
  /\ Forall parser_timestamps Samples.two_blocks_records
  /\ exists out,
      generateVTT (to_input Samples.two_blocks_records) = Ok out
      /\ startsWith (lit "WEBVTT" ++ [LF; LF]) out = true.
Proof.
  assert (H : parseSRT (VStr Samples.two_blocks) = Ok Samples.two_blocks_records)
    by (vm_compute; reflexivity).
  destruct (parse_then_generate (VStr Samples.two_blocks) _ H) as (P & _ & G).
  split; [exact H|]. split; [exact P|].
  eexists. split; [vm_compute; reflexivity|].
  eapply G. vm_compute. reflexivity.
Defined.

(** C2 as stated fails.  [00:99:99,000] is accepted by the parser and makes
    [generateVTT] throw; a text [Price: 1,000] puts [,000] in the document;
    a text made of the line [5] and of a line with a timing puts a line of
    digits before a timing line in the document. *)
Lemma parsed_input_breaks_composition :
  (exists subtitles e,
      parseSRT (VStr Samples.minutes_99) = Ok subtitles
      /\ generateVTT (to_input subtitles) = Err e)
  /\ (exists subtitles out,
         parseSRT (VStr Samples.comma_in_text) = Ok subtitles
         /\ generateVTT (to_input subtitles) = Ok out
         /\ has_comma_milliseconds out = true)
  /\ (exists subtitles out,
         parseSRT (VStr Samples.number_line_in_text) = Ok subtitles
         /\ generateVTT (to_input subtitles) = Ok out
         /\ has_number_before_timing (split_unit LF out) = true).
Proof.
  split; [|split].
  - do 2 eexists. split; [vm_compute; reflexivity|]. vm_compute. reflexivity.
  - do 2 eexists. split; [vm_compute; reflexivity|].
    split; [vm_compute; reflexivity|]. vm_compute. reflexivity.
  - do 2 eexists. split; [vm_compute; reflexivity|].
    split; [vm_compute; reflexivity|]. vm_compute. reflexivity.
Qed.

(** * Further properties *)

(** ** generateVTT: success and failure *)

Import GenerateSpec.









(** An array of one hole is accepted, and so is a text that is an object;
    a text that is a Symbol is not. *)
Example generateVTT_succeeds_on_holes :
  generateVTT (Arr [EHole]) = Ok (lit "WEBVTT" ++ [LF; LF])
  /\ generateVTT
       (Arr [EObj (VttGenerator.mkSubtitle
                     (VStr (lit "00:00:01,000")) (VStr (lit "00:00:03,000"))
                     (VObject (Some (lit "[object Object]"))))])
     = Ok (lit "WEBVTT" ++ [LF; LF]
           ++ lit "00:00:01.000 --> 00:00:03.000" ++ [LF]
           ++ lit "[object Object]" ++ [LF; LF])
  /\ generateVTT
       (Arr [EObj (VttGenerator.mkSubtitle
                     (VStr (lit "00:00:01,000")) (VStr (lit "00:00:03,000"))
                     VSymbol)])
     = Err (ProcessingTypeError 0).
Proof. repeat split. Qed.



(** ** The generated document and its validators *)










Lemma validateVTTFormat_ok_true (vttContent : value) (b : bool) :
  validateVTTFormat vttContent = Ok b -> b = true.
Proof.
  unfold validateVTTFormat. intros H.
  destruct (falsy vttContent || negb (is_string vttContent)); [discriminate H|].
  destruct vttContent as [| | | |s| | |]; try discriminate H.
  repeat match type of H with
         | (if ?c then _ else _) = _ => destruct c; try discriminate H
         end.
  inversion H. reflexivity.
Qed.

(** A report of [validateBunnyStreamCompliance] that is valid has no error,
    has all its checks true, and belongs to a content on which
    [validateVTTFormat] returns [true]: what the report accepts, the strict
    validator accepts. *)
Theorem valid_report_passes_strict_validation (vttContent : value) :
  isValid (validateBunnyStreamCompliance vttContent) = true ->
  validateVTTFormat vttContent = Ok true
  /\ errors (validateBunnyStreamCompliance vttContent) = []
  /\ every_check (compliance_checks (validateBunnyStreamCompliance vttContent)) = true.
Proof.
  unfold validateBunnyStreamCompliance.
  destruct vttContent as [| |b|n|s| |s|o]; cbn [string_of];
    try (cbn [isValid]; discriminate).
  2: { cbn [isValid is_string andb every_check properEncoding].
       rewrite !andb_false_r. discriminate. }
  destruct (validateVTTFormat (VStr s)) as [b|e] eqn:V.
  - cbn [isValid errors compliance_checks List.length Nat.eqb].
    intros H. apply andb_prop in H as [H _].
    rewrite (validateVTTFormat_ok_true _ _ V) in *.
    repeat split. exact H.
  - cbn [isValid List.length Nat.eqb]. rewrite andb_false_r. discriminate.
Qed.

(** The document of the first scenario. *)
Lemma valid_report_passes_strict_validation_witness :
  let document :=
    lit "WEBVTT" ++ [LF; LF] ++ lit "00:00:01.000 --> 00:00:03.000" ++ [LF]
    ++ lit "Hello world" ++ [LF; LF] in
  isValid (validateBunnyStreamCompliance (VStr document)) = true
  /\ validateVTTFormat (VStr document) = Ok true.
Proof.
  intros document.
  assert (H : isValid (validateBunnyStreamCompliance (VStr document)) = true)
    by (vm_compute; reflexivity).
  split; [exact H|].
  exact (proj1 (valid_report_passes_strict_validation (VStr document) H)).
Defined.

(** ** generateBase64Output *)

Lemma base64_length_bounded (n : nat) :
  forall bytes,
    (List.length bytes <= n)%nat ->
    List.length (Base64.encode bytes) = 4 * ((List.length bytes + 2) / 3).
Proof.
  induction n as [|n IH]; intros bytes L.
  - destruct bytes; [reflexivity|cbn in L; lia].
  - destruct bytes as [|a [|b [|c rest]]]; try reflexivity.
    cbn [Base64.encode List.length app].
    rewrite IH by (cbn in L; lia).
    replace (S (S (S (List.length rest))) + 2)
      with ((List.length rest + 2) + 1 * 3) by lia.
    rewrite Nat.div_add by discriminate. lia.
Qed.

Lemma base64_length (bytes : list N) :
  List.length (Base64.encode bytes) = 4 * ((List.length bytes + 2) / 3).
Proof.
  apply (base64_length_bounded (List.length bytes)). apply Nat.le_refl.
Qed.

Lemma validateVTTFormat_guard (vttContent : value) :
  validateVTTFormat vttContent = Err InvalidVTTContent
  <-> falsy vttContent || negb (is_string vttContent) = true.
Proof.
  unfold validateVTTFormat.
  destruct (falsy vttContent || negb (is_string vttContent)) eqn:G.
  - split; reflexivity.
  - split; [|discriminate].
    destruct vttContent as [| | | |s| | |]; try (cbn in G; rewrite ?orb_true_r in G; discriminate G).
    repeat match goal with
           | |- (if ?c then _ else _) = _ -> _ => destruct c; try discriminate
           end.
Qed.

(** [generateBase64Output] accepts exactly what [validateVTTFormat]
    accepts.  On a value that is not a string or is empty it throws its own
    message; another error of the validator is passed on; on success the
    original size is the number of UTF-8 bytes of the content and the
    encoded size, the length of the Base64 text, is four units for every
    three bytes, rounded up. *)
Theorem generateBase64Output_behaviour (vttContent : value) :
  (generateBase64Output vttContent = Err InvalidBase64Content
   <-> validateVTTFormat vttContent = Err InvalidVTTContent)
  /\ (forall e, e <> InvalidVTTContent ->
                (generateBase64Output vttContent = Err (NotCompliant e)
                 <-> validateVTTFormat vttContent = Err e))
  /\ ((exists r, generateBase64Output vttContent = Ok r)
      <-> validateVTTFormat vttContent = Ok true)
  /\ (forall r, generateBase64Output vttContent = Ok r ->
                exists s,
                  vttContent = VStr s
                  /\ original (size r) = List.length (Utf8.encode s)
                  /\ encoded (size r) = 4 * ((original (size r) + 2) / 3)
                  /\ List.length (content r) = encoded (size r)).
Proof.
  pose proof (validateVTTFormat_guard vttContent) as G.
  unfold generateBase64Output.
  destruct (falsy vttContent || negb (is_string vttContent)) eqn:Guard.
  - assert (V : validateVTTFormat vttContent = Err InvalidVTTContent)
      by (apply G; reflexivity).
    rewrite V. split; [split; reflexivity|].
    split; [intros e He; split; intros H; congruence|].
    split; [split; [intros [r H]; discriminate H|discriminate]|].
    intros r H. discriminate H.
  - assert (NV : validateVTTFormat vttContent <> Err InvalidVTTContent).
    { intros V. apply G in V. discriminate V. }
    destruct (validateVTTFormat vttContent) as [b|e0] eqn:V.
    + pose proof (validateVTTFormat_ok_true _ _ V) as ->.
      destruct vttContent as [| | | |s| | |];
        try (cbn in Guard; rewrite ?orb_true_r in Guard; discriminate Guard).
      split; [split; discriminate|].
      split; [intros e He; split; discriminate|].
      split; [split; [reflexivity|intros _; eexists; reflexivity]|].
      intros r H. inversion H; subst r; clear H.
      exists s. cbn [size original encoded content].
      rewrite base64_length, length_map. repeat split.
    + split; [split; congruence|].
      split; [intros e He; split; congruence|].
      split; [split; [intros [r H]; discriminate H|discriminate]|].
      intros r H. discriminate H.
Qed.

(** ** parseTimestamp *)

Lemma two_digits_value (a b : N) :
  is_digit a = true -> is_digit b = true ->
  (0 <= parseInt_digits [a; b] <= 99)%Z
  /\ (is_digit05 a = true -> parseInt_digits [a; b] <= 59)%Z.
Proof.
  unfold is_digit, is_digit05, parseInt_digits. cbn [fold_left].
  intros A B. apply andb_prop in A as [A1 A2]. apply andb_prop in B as [B1 B2].
  apply N.leb_le in A1, A2, B1, B2. split; [lia|].
  intros C. apply andb_prop in C as [_ C]. apply N.leb_le in C. lia.
Qed.

Lemma three_digits_value (a b c : N) :
  is_digit a = true -> is_digit b = true -> is_digit c = true ->
  (0 <= parseInt_digits [a; b; c] <= 999)%Z.
Proof.
  unfold is_digit, parseInt_digits. cbn [fold_left].
  intros A B C. apply andb_prop in A as [A1 A2]. apply andb_prop in B as [B1 B2].
  apply andb_prop in C as [C1 C2].
  apply N.leb_le in A1, A2, B1, B2, C1, C2. lia.
Qed.

Lemma parseTimestamp_fields (s : jsstring) (t : Timestamp) :
  parseTimestamp s = Some t ->
  exists h1 h2 m1 m2 s1 s2 f1 f2 f3,
    s = shape COMMA h1 h2 m1 m2 s1 s2 f1 f2 f3
    /\ (is_digit h1 = true /\ is_digit h2 = true)
    /\ (is_digit m1 = true /\ is_digit m2 = true)
    /\ (is_digit s1 = true /\ is_digit s2 = true)
    /\ (is_digit f1 = true /\ is_digit f2 = true /\ is_digit f3 = true)
    /\ t = mkTimestamp (parseInt_digits [h1; h2]) (parseInt_digits [m1; m2])
                       (parseInt_digits [s1; s2]) (parseInt_digits [f1; f2; f3]).
Proof.
  unfold parseTimestamp. intros H.
  destruct (Regex.eat_timestamp Regex.is_comma s) as [[|x xs]|] eqn:E;
    try discriminate H.
  unfold Regex.eat_timestamp in E.
  do 12 (destruct s as [|? s]; [discriminate E|]).
  destruct (_ && _) eqn:C in E; [|discriminate E].
  inversion E; subst s; clear E.
  repeat match type of C with
         | (_ && _) = true => apply andb_prop in C as [C ?]
         end.
  unfold Regex.is_comma in *.
  repeat match goal with
         | E : (_ =? _)%N = true |- _ => apply N.eqb_eq in E; subst
         end.
  do 9 eexists. split; [reflexivity|].
  inversion H. repeat split; assumption.
Qed.

(** A timestamp that [parseTimestamp] accepts gives hours, minutes and
    seconds between 0 and 99 and milliseconds between 0 and 999: the minutes
    and the seconds are not bounded by 59. *)
Theorem parseTimestamp_bounds (s : jsstring) (t : Timestamp) :
  parseTimestamp s = Some t ->
  (0 <= hours t <= 99)%Z /\ (0 <= minutes t <= 99)%Z
  /\ (0 <= seconds t <= 99)%Z /\ (0 <= milliseconds t <= 999)%Z.
Proof.
  intros H.
  apply parseTimestamp_fields in H
    as (h1 & h2 & m1 & m2 & s1 & s2 & f1 & f2 & f3 & _
        & (H1 & H2) & (M1 & M2) & (S1 & S2) & (F1 & F2 & F3) & ->).
  cbn [hours minutes seconds milliseconds].
  split; [apply two_digits_value; assumption|].
  split; [apply two_digits_value; assumption|].
  split; [apply two_digits_value; assumption|].
  apply three_digits_value; assumption.
Qed.

(** [01:99:99,000] has 99 minutes and 99 seconds. *)
Lemma parseTimestamp_bounds_witness :
  parseTimestamp (lit "01:99:99,000") = Some (mkTimestamp 1 99 99 0)
  /\ (0 <= 99 <= 99)%Z.
Proof.
  split; [reflexivity|].
  exact (proj1 (proj2 (parseTimestamp_bounds (lit "01:99:99,000")
                         (mkTimestamp 1 99 99 0) eq_refl))).
Defined.

(** Every timestamp that [convertTimestamp] converts is accepted by
    [parseTimestamp] too, with minutes and seconds of at most 59. *)
Theorem converted_timestamp_parses (s out : jsstring) :
  convertTimestamp (VStr s) = Ok out ->
  exists t,
    parseTimestamp s = Some t
    /\ (minutes t <= 59)%Z /\ (seconds t <= 59)%Z.
Proof.
  intros H. apply convertTimestamp_ok_domain in H
    as (h1 & h2 & m1 & m2 & s1 & s2 & f1 & f2 & f3 & D & E).
  inversion E; subst s; clear E.
  destruct D as (H1 & H2 & M1 & M2 & S1 & S2 & F1 & F2 & F3).
  pose proof (digit05_is_digit _ M1) as M1'.
  pose proof (digit05_is_digit _ S1) as S1'.
  exists (mkTimestamp (parseInt_digits [h1; h2]) (parseInt_digits [m1; m2])
                      (parseInt_digits [s1; s2]) (parseInt_digits [f1; f2; f3])).
  split.
  - unfold parseTimestamp, Regex.eat_timestamp, shape, Regex.is_comma.
    rewrite H1, H2, M1', M2, S1', S2, F1, F2, F3, !N.eqb_refl. reflexivity.
  - cbn [minutes seconds].
    split; apply two_digits_value; assumption.
Qed.

Lemma converted_timestamp_parses_witness :
  convertTimestamp (VStr (lit "01:23:45,678")) = Ok (lit "01:23:45.678")
  /\ exists t,
      parseTimestamp (lit "01:23:45,678") = Some t
      /\ (minutes t <= 59)%Z /\ (seconds t <= 59)%Z.
Proof.
  split; [reflexivity|].
  exact (converted_timestamp_parses (lit "01:23:45,678") (lit "01:23:45.678") eq_refl).
Defined.

(** ** Trimming *)

Import LineEndingSpec.

Lemma drop_spaces_head (s r : jsstring) (c : N) :
  drop_spaces s = c :: r -> is_space c = false.
Proof.
  induction s as [|x s IH]; cbn [drop_spaces]; [discriminate|].
  destruct (is_space x) eqn:X; [exact IH|].
  intros E. inversion E; subst. exact X.
Qed.

Lemma drop_spaces_fixed (c : N) (r : jsstring) :
  is_space c = false -> drop_spaces (c :: r) = c :: r.
Proof.
  intros H. cbn [drop_spaces]. rewrite H. reflexivity.
Qed.

Lemma drop_spaces_idempotent (s : jsstring) :
  drop_spaces (drop_spaces s) = drop_spaces s.
Proof.
  destruct (drop_spaces s) as [|c r] eqn:E; [reflexivity|].
  apply drop_spaces_fixed. eapply drop_spaces_head. exact E.
Qed.

(** The result of [trim] starts and ends with units that are not spaces. *)
Lemma trim_tight (s : jsstring) :
  drop_spaces (trim s) = trim s /\ drop_spaces (rev (trim s)) = rev (trim s).
Proof.
  unfold trim.
  set (a := drop_spaces s). set (b := drop_spaces (rev a)).
  split.
  - destruct (drop_spaces_suffix (rev a)) as [ws E]. fold b in E.
    assert (Ea : a = rev b ++ rev ws).
    { rewrite <- (rev_involutive a), E, rev_app_distr. reflexivity. }
    destruct (rev b) as [|x t] eqn:R; [reflexivity|].
    apply drop_spaces_fixed.
    apply (drop_spaces_head s (t ++ rev ws)). fold a. rewrite Ea. reflexivity.
  - rewrite rev_involutive. apply drop_spaces_idempotent.
Qed.

Lemma trim_idempotent (s : jsstring) : trim (trim s) = trim s.
Proof.
  destruct (trim_tight s) as [H1 H2].
  unfold trim at 1. rewrite H1, H2. apply rev_involutive.
Qed.

Lemma has_ink_drop_spaces (s : jsstring) : has_ink (drop_spaces s) = has_ink s.
Proof.
  induction s as [|c s IH]; [reflexivity|].
  cbn [drop_spaces]. destruct (is_space c) eqn:C.
  - rewrite IH. cbn [has_ink existsb]. rewrite C. reflexivity.
  - reflexivity.
Qed.

Lemma has_ink_rev (s : jsstring) : has_ink (rev s) = has_ink s.
Proof.
  unfold has_ink. apply eq_true_iff_eq. rewrite !existsb_exists.
  split; intros (c & I & H); exists c; split; try exact H.
  - apply in_rev. exact I.
  - apply in_rev. rewrite rev_involutive. exact I.
Qed.

Lemma drop_spaces_nil (s : jsstring) : drop_spaces s = [] <-> has_ink s = false.
Proof.
  induction s as [|c s IH]; cbn [drop_spaces has_ink existsb].
  - split; reflexivity.
  - destruct (is_space c); cbn [negb orb]; [exact IH|].
    split; discriminate.
Qed.

Lemma trim_nil (s : jsstring) : trim s = [] <-> has_ink s = false.
Proof.
  unfold trim. rewrite <- (has_ink_drop_spaces s), <- (has_ink_rev (drop_spaces s)).
  rewrite <- drop_spaces_nil. split.
  - intros H. apply (f_equal (@rev N)) in H. rewrite rev_involutive in H. exact H.
  - intros H. rewrite H. reflexivity.
Qed.

Lemma has_ink_app (a b : jsstring) : has_ink (a ++ b) = has_ink a || has_ink b.
Proof. apply existsb_app. Qed.

Lemma has_ink_join (sep : jsstring) (lines : list jsstring) (l : jsstring) :
  In l lines -> has_ink l = true -> has_ink (join sep lines) = true.
Proof.
  induction lines as [|p lines IH]; intros I H; [destruct I|].
  destruct lines as [|q lines].
  - destruct I as [->|[]]. exact H.
  - change (join sep (p :: q :: lines)) with (p ++ sep ++ join sep (q :: lines)).
    rewrite !has_ink_app. destruct I as [->|I].
    + rewrite H. reflexivity.
    + rewrite (IH I H), !orb_true_r. reflexivity.
Qed.

(** ** The records of the parser *)

Lemma parse_block_text (i : nat) (l : jsstring) (rest : list jsstring)
      (sub : Subtitle) (pos : nat * list jsstring) :
  parse_block i l rest = Ok (sub, pos) ->
  exists textLines,
    existsb (fun line => 0 <? List.length (trim line)) textLines = true
    /\ SrtParser.text sub = trim (join [LF] textLines).
Proof.
  unfold parse_block. intros H.
  destruct (negb (all_digits (trim l))); [discriminate H|].
  destruct rest as [|t rest']; [discriminate H|].
  destruct (negb (SrtParser.timestampRegex (trim t))); [discriminate H|].
  destruct (collect_text (i + 2) rest' []) as [[textLines position]|e]; [|discriminate H].
  destruct (existsb _ textLines) eqn:T; [|discriminate H].
  cbn [negb] in H. inversion H; subst. exists textLines. split; [exact T|reflexivity].
Qed.

(** [parseSRT] returns at least one record, and the text of every record
    is not empty and has no space at either end. *)
Theorem parsed_text_is_trimmed (content : value) (subtitles : list Subtitle) :
  parseSRT content = Ok subtitles ->
  subtitles <> []
  /\ Forall (fun r => SrtParser.text r <> []
                      /\ trim (SrtParser.text r) = SrtParser.text r)
            subtitles.
Proof.
  intros H. split; [exact (parseSRT_not_nil _ _ H)|].
  refine (parseSRT_invariant _ _ content subtitles H).
  intros i l rest sub pos B.
  apply parse_block_text in B as (textLines & T & ->).
  split; [|apply trim_idempotent].
  apply existsb_exists in T as (line & I & L).
  intros E. apply trim_nil in E.
  assert (K : has_ink line = true).
  { destruct (has_ink line) eqn:K; [reflexivity|].
    apply trim_nil in K. rewrite K in L. discriminate L. }
  rewrite (has_ink_join [LF] textLines line I K) in E. discriminate E.
Qed.

Lemma parsed_text_is_trimmed_witness :
  parseSRT (VStr Samples.two_blocks) = Ok Samples.two_blocks_records
  /\ Forall (fun r => SrtParser.text r <> []
                      /\ trim (SrtParser.text r) = SrtParser.text r)
            Samples.two_blocks_records.
Proof.
  assert (H : parseSRT (VStr Samples.two_blocks) = Ok Samples.two_blocks_records)
    by (vm_compute; reflexivity).
  split; [exact H|].
  exact (proj2 (parsed_text_is_trimmed (VStr Samples.two_blocks) _ H)).
Defined.

(** ** Line endings and blank content *)

Lemma parseSRT_same_normal_form (a b : jsstring) :
  replace_CR (replace_CRLF (strip_BOM a)) = replace_CR (replace_CRLF (strip_BOM b)) ->
  parseSRT (VStr a) = parseSRT (VStr b).
Proof.
  intros H. unfold parseSRT, parseSRTInternal. cbn [string_of]. rewrite H. reflexivity.
Qed.

Lemma replace_CRLF_with_CRLF (s : jsstring) :
  includes_unit CR s = false -> replace_CRLF (with_CRLF s) = s.
Proof.
  unfold includes_unit. induction s as [|c s IH]; [reflexivity|].
  cbn [existsb]. intros H. apply orb_false_elim in H as [Hc Hs].
  specialize (IH Hs). unfold with_CRLF in *. cbn [flat_map].
  destruct (c =? LF)%N eqn:L.
  - apply N.eqb_eq in L. subst c. cbn [app replace_CRLF].
    rewrite !N.eqb_refl. cbn [andb]. rewrite IH. reflexivity.
  - cbn [app replace_CRLF]. rewrite N.eqb_sym in Hc. rewrite Hc. cbn [andb].
    destruct (flat_map _ s) eqn:F.
    + cbn [replace_CRLF] in IH. rewrite <- IH. reflexivity.
    + rewrite IH. reflexivity.
Qed.

Lemma replace_CR_without_CR (s : jsstring) :
  includes_unit CR s = false -> replace_CR s = s.
Proof.
  unfold includes_unit, replace_CR. induction s as [|c s IH]; [reflexivity|].
  cbn [existsb map]. intros H. apply orb_false_elim in H as [Hc Hs].
  rewrite N.eqb_sym in Hc. rewrite Hc, (IH Hs). reflexivity.
Qed.

Lemma replace_CRLF_without_LF (s : jsstring) :
  includes_unit LF s = false -> replace_CRLF s = s.
Proof.
  unfold includes_unit. induction s as [|a s IH]; [reflexivity|].
  cbn [existsb]. intros H. apply orb_false_elim in H as [Ha Hs].
  specialize (IH Hs). cbn [replace_CRLF].
  destruct s as [|b s]; [reflexivity|].
  cbn [existsb] in Hs. apply orb_false_elim in Hs as [Hb _].
  rewrite N.eqb_sym in Hb. rewrite Hb, andb_false_r, IH. reflexivity.
Qed.

Lemma replace_CRLF_without_CR (s : jsstring) :
  includes_unit CR s = false -> replace_CRLF s = s.
Proof.
  unfold includes_unit. induction s as [|a s IH]; [reflexivity|].
  cbn [existsb]. intros H. apply orb_false_elim in H as [Ha Hs].
  specialize (IH Hs). cbn [replace_CRLF].
  destruct s as [|b s]; [reflexivity|].
  rewrite N.eqb_sym in Ha. rewrite Ha. cbn [andb]. rewrite IH. reflexivity.
Qed.

Lemma with_CR_without_LF (s : jsstring) : includes_unit LF (with_CR s) = false.
Proof.
  unfold includes_unit, with_CR. induction s as [|c s IH]; [reflexivity|].
  cbn [map existsb]. rewrite IH, orb_false_r.
  destruct (c =? LF)%N eqn:L; [reflexivity|].
  rewrite N.eqb_sym. exact L.
Qed.

Lemma replace_CR_with_CR (s : jsstring) :
  includes_unit CR s = false -> replace_CR (with_CR s) = s.
Proof.
  unfold includes_unit, replace_CR, with_CR. induction s as [|c s IH]; [reflexivity|].
  cbn [existsb map]. intros H. apply orb_false_elim in H as [Hc Hs].
  rewrite (IH Hs). destruct (c =? LF)%N eqn:L.
  - apply N.eqb_eq in L. subst c. reflexivity.
  - rewrite N.eqb_sym in Hc. rewrite Hc. reflexivity.
Qed.

Lemma strip_BOM_with_CRLF (s : jsstring) :
  strip_BOM (with_CRLF s) = with_CRLF (strip_BOM s).
Proof.
  destruct s as [|c s]; [reflexivity|].
  unfold with_CRLF. cbn [flat_map strip_BOM].
  destruct (c =? LF)%N eqn:L.
  - apply N.eqb_eq in L. subst c. reflexivity.
  - cbn [app strip_BOM]. destruct (c =? BOM)%N; [reflexivity|].
    cbn [flat_map]. rewrite L. reflexivity.
Qed.

Lemma strip_BOM_with_CR (s : jsstring) :
  strip_BOM (with_CR s) = with_CR (strip_BOM s).
Proof.
  destruct s as [|c s]; [reflexivity|].
  unfold with_CR. cbn [map strip_BOM].
  destruct (c =? LF)%N eqn:L.
  - apply N.eqb_eq in L. subst c. reflexivity.
  - destruct (c =? BOM)%N; [reflexivity|]. cbn [map]. rewrite L. reflexivity.
Qed.

Lemma strip_BOM_without_CR (s : jsstring) :
  includes_unit CR s = false -> includes_unit CR (strip_BOM s) = false.
Proof.
  destruct s as [|c s]; [reflexivity|].
  unfold includes_unit. cbn [existsb strip_BOM]. intros H.
  apply orb_false_elim in H as [Hc Hs].
  destruct (c =? BOM)%N; [exact Hs|]. cbn [existsb]. rewrite Hc, Hs. reflexivity.
Qed.

(** The records do not depend on the flavour of the line endings nor on a
    leading byte order mark: a text without carriage returns parses to the
    same result when its line feeds are written CR LF or CR, and when a byte
    order mark is put in front of it. *)
Theorem line_endings_do_not_matter (s : jsstring) :
  includes_unit CR s = false ->
  parseSRT (VStr (with_CRLF s)) = parseSRT (VStr s)
  /\ parseSRT (VStr (with_CR s)) = parseSRT (VStr s)
  /\ (first_is_BOM s = false -> parseSRT (VStr (BOM :: s)) = parseSRT (VStr s)).
Proof.
  intros H. pose proof (strip_BOM_without_CR s H) as H'.
  assert (N : replace_CR (replace_CRLF (strip_BOM s)) = strip_BOM s).
  { rewrite replace_CRLF_without_CR by exact H'.
    apply replace_CR_without_CR. exact H'. }
  split; [|split].
  - apply parseSRT_same_normal_form. rewrite N.
    rewrite strip_BOM_with_CRLF, replace_CRLF_with_CRLF by exact H'.
    apply replace_CR_without_CR. exact H'.
  - apply parseSRT_same_normal_form. rewrite N.
    rewrite strip_BOM_with_CR.
    rewrite replace_CRLF_without_LF by apply with_CR_without_LF.
    apply replace_CR_with_CR. exact H'.
  - intros B. apply parseSRT_same_normal_form.
    destruct s as [|c s]; [reflexivity|].
    cbn [first_is_BOM] in B. cbn [strip_BOM]. rewrite N.eqb_refl, B. reflexivity.
Qed.

(** The two blocks of the first scenario with Windows line endings. *)
Lemma line_endings_do_not_matter_witness :
  parseSRT (VStr (with_CRLF Samples.two_blocks)) = Ok Samples.two_blocks_records.
Proof.
  rewrite (proj1 (line_endings_do_not_matter Samples.two_blocks eq_refl)).
  vm_compute. reflexivity.
Defined.

Lemma strip_BOM_blank (s : jsstring) : has_ink s = false -> has_ink (strip_BOM s) = false.
Proof.
  destruct s as [|c s]; [reflexivity|].
  cbn [strip_BOM]. destruct (c =? BOM)%N; [|auto].
  cbn [has_ink existsb]. intros H. apply orb_false_elim in H as [_ H]. exact H.
Qed.

Lemma has_ink_cons (c : N) (s : jsstring) :
  has_ink (c :: s) = negb (is_space c) || has_ink s.
Proof. reflexivity. Qed.

Lemma replace_CRLF_blank (s : jsstring) :
  has_ink s = false -> has_ink (replace_CRLF s) = false.
Proof.
  assert (G : forall n s, (List.length s <= n)%nat ->
                          has_ink s = false -> has_ink (replace_CRLF s) = false).
  { induction n as [|n IH]; intros x L H.
    - destruct x; [reflexivity|cbn in L; lia].
    - destruct x as [|a [|b x]]; try exact H.
      assert (E : replace_CRLF (a :: b :: x)
                  = if ((a =? CR) && (b =? LF))%N
                    then LF :: replace_CRLF x
                    else a :: replace_CRLF (b :: x)) by reflexivity.
      rewrite E. rewrite !has_ink_cons in H.
      apply orb_false_elim in H as [Ha H]. apply orb_false_elim in H as [Hb H].
      destruct ((a =? CR) && (b =? LF))%N; rewrite has_ink_cons.
      + change (negb (is_space LF)) with false. cbn [orb].
        apply IH; [cbn in L; lia|exact H].
      + rewrite Ha. cbn [orb].
        apply IH; [cbn [List.length] in *; lia|].
        rewrite has_ink_cons, Hb. exact H. }
  apply (G (List.length s)). apply Nat.le_refl.
Qed.

Lemma replace_CR_blank (s : jsstring) :
  has_ink s = false -> has_ink (replace_CR s) = false.
Proof.
  unfold has_ink, replace_CR. induction s as [|c s IH]; [reflexivity|].
  cbn [existsb map]. intros H. apply orb_false_elim in H as [Hc Hs].
  rewrite (IH Hs), orb_false_r.
  destruct (c =? CR)%N; [reflexivity|exact Hc].
Qed.

Lemma split_unit_blank (s : jsstring) :
  has_ink s = false -> Forall (fun l => has_ink l = false) (split_unit LF s).
Proof.
  induction s as [|c s IH]; intros H.
  - repeat constructor.
  - cbn [has_ink existsb] in H. apply orb_false_elim in H as [Hc Hs].
    specialize (IH Hs). cbn [split_unit].
    destruct (c =? LF)%N.
    + constructor; [reflexivity|exact IH].
    + destruct (split_unit LF s) as [|piece others].
      * repeat constructor. cbn [has_ink existsb]. rewrite Hc. reflexivity.
      * inversion IH; subst. constructor; [|assumption].
        cbn [has_ink existsb]. rewrite Hc. assumption.
Qed.

Lemma skip_empty_blank (lines : list jsstring) :
  Forall (fun l => has_ink l = false) lines ->
  forall i, snd (skip_empty i lines) = [].
Proof.
  induction 1 as [|l lines Hl _ IH]; intros i; [reflexivity|].
  cbn [skip_empty]. apply trim_nil in Hl. rewrite Hl. apply IH.
Qed.

Lemma parse_blocks_blank (i : nat) (lines : list jsstring) (subtitles : list Subtitle) :
  snd (skip_empty i lines) = [] -> parse_blocks i lines subtitles = Ok subtitles.
Proof.
  funelim (parse_blocks i lines subtitles); intros S.
  - reflexivity.
  - rewrite e1 in S. discriminate S.
  - rewrite e1 in S. discriminate S.
Qed.

(** A content made of spaces and line breaks only holds no block:
    [parseSRT] throws 'No valid subtitle blocks found' and
    [validateSRTFormat] returns [false]. *)
Theorem blank_content_has_no_block (s : jsstring) :
  has_ink s = false ->
  parseSRT (VStr s) = Err (InvalidSRTFormat NoValidBlocks)
  /\ validateSRTFormat (VStr s) = false.
Proof.
  intros H.
  assert (P : parseSRTInternal (VStr s) = Err NoValidBlocks).
  { unfold parseSRTInternal. cbn [string_of].
    rewrite parse_blocks_blank; [reflexivity|].
    apply skip_empty_blank, split_unit_blank.
    apply replace_CR_blank, replace_CRLF_blank, strip_BOM_blank. exact H. }
  split.
  - unfold parseSRT. rewrite P. reflexivity.
  - unfold validateSRTFormat. rewrite P. destruct (_ || _); reflexivity.
Qed.

(** Two empty lines and a line of spaces. *)
Lemma blank_content_has_no_block_witness :
  parseSRT (VStr ([LF; LF] ++ lit "   ")) = Err (InvalidSRTFormat NoValidBlocks)
  /\ validateSRTFormat (VStr ([LF; LF] ++ lit "   ")) = false.
Proof.
  apply (blank_content_has_no_block ([LF; LF] ++ lit "   ")). reflexivity.
Defined.

(** ** The result of the detection *)

Import SupportedSpec.

(** The two shapes of a result. *)
Lemma detectLanguage_result
      (count_matches : pattern -> jsstring -> nat)
      (toLowerCase : jsstring -> jsstring) (s : jsstring) (r : DetectionResult) :
  detectLanguage count_matches toLowerCase (VStr s) = Ok r ->
  r = no_language
  \/ exists top others,
      sort_by_confidence
        (candidates count_matches toLowerCase (text_after_extraction s))
      = top :: others
      /\ trim (text_after_extraction s) <> []
      /\ detected r = Qle_bool minConfidence (confidence top)
      /\ language r = (if Qle_bool minConfidence (confidence top)
                       then Some top else None)
      /\ result_confidence r = confidence top
      /\ suggestions r
         = firstn 3 (filter (fun c => Qle_bool (Qmin minConfidence (5 # 100))
                                               (confidence c))
                            (top :: others)).
Proof.
  intros H. destruct s as [|c s]; [discriminate H|].
  rewrite detectLanguage_on_string in H. unfold result_on in H. cbv zeta in H.
  destruct (trim (text_after_extraction (c :: s))) as [|x t] eqn:T.
  { left. cbn in H. congruence. }
  cbn [LanguageDetection.is_empty] in H.
  destruct (sort_by_confidence _) as [|top others] eqn:E; [discriminate H|].
  right. exists top, others. split; [reflexivity|]. split; [discriminate|].
  remember (firstn 3 (filter _ (top :: others))) as sug eqn:Es in H.
  inversion H; subst r; clear H.
  cbn [detected language result_confidence suggestions].
  destruct top as [tc tn tq]. cbn [code candidate_name confidence].
  repeat split. exact Es.
Qed.

Lemma suggestion_threshold : (Qmin minConfidence (5 # 100) == 5 # 100)%Q.
Proof.
  apply Q.min_r. unfold minConfidence, Qle. cbn. lia.
Qed.

(** When a language is detected it is the first suggestion.  Every
    suggestion has a confidence of at least 0.05, and of less than 0.1 when
    no language is detected. *)
Theorem detected_language_leads_suggestions
        (count_matches : pattern -> jsstring -> nat)
        (toLowerCase : jsstring -> jsstring) (s : jsstring) (r : DetectionResult) :
  detectLanguage count_matches toLowerCase (VStr s) = Ok r ->
  (forall c, language r = Some c -> exists rest, suggestions r = c :: rest)
  /\ Forall (fun c => (5 # 100 <= confidence c)%Q) (suggestions r)
  /\ (detected r = false ->
      Forall (fun c => (confidence c < 1 # 10)%Q) (suggestions r)).
Proof.
  intros H.
  apply detectLanguage_result in H
    as [->|(top & others & E & _ & Hd & Hl & _ & Hs)].
  { split; [intros c Hc; discriminate Hc|]. split; [constructor|intros _; constructor]. }
  pose proof (sort_by_confidence_sorted
                (candidates count_matches toLowerCase (text_after_extraction s)))
    as Sorted.
  rewrite E in Sorted. rewrite Hs, Hd, Hl.
  split; [|split].
  - intros c Hc.
    destruct (Qle_bool minConfidence (confidence top)) eqn:D; [|discriminate Hc].
    inversion Hc; subst c. cbn [filter].
    assert (K : Qle_bool (Qmin minConfidence (5 # 100)) (confidence top) = true).
    { apply Qle_bool_iff. apply Qle_bool_iff in D.
      eapply Qle_trans; [apply Q.le_min_l|exact D]. }
    rewrite K. cbn [firstn]. eexists. reflexivity.
  - apply Forall_forall. intros c Hc.
    assert (I : In c (filter (fun c => Qle_bool (Qmin minConfidence (5 # 100))
                                                (confidence c))
                             (top :: others))).
    { rewrite <- (firstn_skipn 3 (filter _ _)). apply in_or_app. left. exact Hc. }
    apply filter_In in I as [_ I]. apply Qle_bool_iff in I.
    rewrite suggestion_threshold in I. exact I.
  - intros D. apply Forall_forall. intros c Hc.
    assert (I : In c (top :: others)).
    { assert (J : In c (filter (fun c => Qle_bool (Qmin minConfidence (5 # 100))
                                                  (confidence c))
                               (top :: others))).
      { rewrite <- (firstn_skipn 3 (filter _ _)). apply in_or_app. left. exact Hc. }
      apply filter_In in J as [J _]. exact J. }
    assert (T : (confidence top < 1 # 10)%Q).
    { apply Qnot_le_lt. intros L. apply Qle_bool_iff in L.
      unfold minConfidence in D. congruence. }
    destruct I as [<-|I]; [exact T|].
    inversion Sorted as [|? ? _ Below]; subst.
    rewrite Forall_forall in Below. specialize (Below c I).
    unfold by_decreasing_confidence in Below.
    eapply Qle_lt_trans; eassumption.
Qed.

Lemma detected_language_leads_suggestions_witness :
  exists r c rest,
    detectLanguage SampleEngine.no_match SampleEngine.lower_case_text
                   (VStr (lit "the cat is on")) = Ok r
    /\ language r = Some c
    /\ suggestions r = c :: rest.
Proof.
  pose proof (detected_language_leads_suggestions
                SampleEngine.no_match SampleEngine.lower_case_text
                (lit "the cat is on") _ ltac:(vm_compute; reflexivity)) as (H & _).
  destruct (H _ eq_refl) as [rest E].
  do 3 eexists. split; [vm_compute; reflexivity|]. split; [reflexivity|exact E].
Defined.

Lemma table_lookup :
  Forall (fun entry => lookup (fst entry) = Some (snd entry)) LANGUAGE_PATTERNS.
Proof.
  unfold LANGUAGE_PATTERNS. repeat (apply Forall_cons; [reflexivity|]).
  apply Forall_nil.
Qed.

Lemma table_keys_distinct : NoDup (map fst LANGUAGE_PATTERNS).
Proof.
  unfold LANGUAGE_PATTERNS. cbn [map fst].
  repeat (apply NoDup_cons;
          [intros H; cbn [In] in H;
           repeat (destruct H as [H|H]; [discriminate H|]); exact H|]).
  apply NoDup_nil.
Qed.

Lemma candidates_supported
      (count_matches : pattern -> jsstring -> nat)
      (toLowerCase : jsstring -> jsstring) (text : jsstring) :
  Forall supported (candidates count_matches toLowerCase text).
Proof.
  unfold candidates. rewrite map_map. apply Forall_forall.
  intros c Hc. apply in_map_iff in Hc as (entry & <- & I).
  pose proof table_lookup as L. rewrite Forall_forall in L.
  cbn [fst snd]. rewrite (L entry I).
  exists (snd entry). cbn [code candidate_name]. split; [|reflexivity].
  destruct entry. exact I.
Qed.

Lemma candidates_codes
      (count_matches : pattern -> jsstring -> nat)
      (toLowerCase : jsstring -> jsstring) (text : jsstring) :
  map code (candidates count_matches toLowerCase text) = map fst LANGUAGE_PATTERNS.
Proof.
  unfold candidates. rewrite !map_map. reflexivity.
Qed.

Lemma insert_by_confidence_permutation (x : Candidate) (l : list Candidate) :
  Permutation (insert_by_confidence x l) (x :: l).
Proof.
  induction l as [|y l IH]; cbn [insert_by_confidence]; [reflexivity|].
  destruct (Qle_bool (confidence y) (confidence x)); [reflexivity|].
  rewrite IH. apply perm_swap.
Qed.

Lemma sort_by_confidence_permutation (l : list Candidate) :
  Permutation (sort_by_confidence l) l.
Proof.
  induction l as [|x l IH]; cbn [sort_by_confidence fold_right]; [reflexivity|].
  rewrite insert_by_confidence_permutation. apply perm_skip. exact IH.
Qed.

Lemma NoDup_map_filter (f : Candidate -> bool) (l : list Candidate) :
  NoDup (map code l) -> NoDup (map code (filter f l)).
Proof.
  induction l as [|x l IH]; cbn [map filter]; intros N; [constructor|].
  inversion N as [|? ? Nx Nl]; subst. destruct (f x); [|exact (IH Nl)].
  cbn [map]. constructor; [|exact (IH Nl)].
  intros I. apply Nx. apply in_map_iff in I as (y & E & I).
  apply filter_In in I as [I _]. apply in_map_iff. exists y. split; assumption.
Qed.

Lemma NoDup_map_firstn (n : nat) (l : list Candidate) :
  NoDup (map code l) -> NoDup (map code (firstn n l)).
Proof.
  revert n. induction l as [|x l IH]; intros [|n] N; cbn [map firstn]; try constructor.
  - inversion N as [|? ? Nx Nl]; subst. intros I. apply Nx.
    apply in_map_iff in I as (y & E & I). apply in_map_iff. exists y.
    split; [exact E|]. rewrite <- (firstn_skipn n l). apply in_or_app. left. exact I.
  - inversion N; subst. apply IH. assumption.
Qed.

Lemma detected_languages_are_supported_core
        (count_matches : pattern -> jsstring -> nat)
        (toLowerCase : jsstring -> jsstring) (s : jsstring) (r : DetectionResult) :
  detectLanguage count_matches toLowerCase (VStr s) = Ok r ->
  (forall c, language r = Some c -> supported c)
  /\ Forall supported (suggestions r)
  /\ NoDup (map code (suggestions r)).
Proof.
  intros H.
  apply detectLanguage_result in H
    as [->|(top & others & E & _ & _ & Hl & _ & Hs)].
  { split; [intros c Hc; discriminate Hc|]. split; constructor. }
  pose proof (sort_by_confidence_Forall _ _
                (candidates_supported count_matches toLowerCase
                                      (text_after_extraction s))) as Sup.
  assert (Dup : NoDup (map code (top :: others))).
  { rewrite <- E.
    eapply Permutation_NoDup.
    - apply Permutation_map. symmetry. apply sort_by_confidence_permutation.
    - rewrite candidates_codes. exact table_keys_distinct. }
  rewrite E in Sup. rewrite Hl, Hs.
  split; [|split].
  - intros c Hc. destruct (Qle_bool _ _); [|discriminate Hc].
    inversion Hc; subst c. inversion Sup; assumption.
  - apply firstn_filter_Forall. exact Sup.
  - apply NoDup_map_firstn, NoDup_map_filter. exact Dup.
Qed.

(** Every language in a result is an entry of the table: its code is a key
    and its name the name of that entry.  No code is suggested twice. *)
Theorem detected_languages_are_supported
        (count_matches : pattern -> jsstring -> nat)
        (toLowerCase : jsstring -> jsstring) (s : jsstring) (r : DetectionResult) :
  detectLanguage count_matches toLowerCase (VStr s) = Ok r ->
  (forall c, language r = Some c -> supported c)
  /\ Forall supported (suggestions r)
  /\ NoDup (map code (suggestions r)).
Proof.
  apply detected_languages_are_supported_core.
Qed.

Lemma detected_languages_are_supported_witness :
  exists r,
    detectLanguage SampleEngine.no_match SampleEngine.lower_case_text
                   (VStr (lit "the cat is on")) = Ok r
    /\ Forall supported (suggestions r)
    /\ NoDup (map code (suggestions r)).
Proof.
  eexists. split; [vm_compute; reflexivity|].
  exact (proj2 (detected_languages_are_supported
                  SampleEngine.no_match SampleEngine.lower_case_text
                  (lit "the cat is on") _ ltac:(vm_compute; reflexivity))).
Defined.

(** ** extractTextFromSRT *)

Lemma split_unit_without_separator (sep : N) (s : jsstring) :
  Forall (fun piece => ~ In sep piece) (split_unit sep s).
Proof.
  induction s as [|c s IH]; cbn [split_unit].
  - repeat constructor. intros [].
  - destruct (c =? sep)%N eqn:C.
    + constructor; [intros []|exact IH].
    + destruct (split_unit sep s) as [|piece rest].
      * repeat constructor. intros [E|[]]. apply N.eqb_neq in C. congruence.
      * inversion IH; subst. constructor; [|assumption].
        intros [E|I]; [apply N.eqb_neq in C; congruence|contradiction].
Qed.

Lemma In_drop_spaces (c : N) (s : jsstring) : In c (drop_spaces s) -> In c s.
Proof.
  induction s as [|x s IH]; cbn [drop_spaces]; [auto|].
  destruct (is_space x); [right; auto|auto].
Qed.

Lemma In_trim (c : N) (s : jsstring) : In c (trim s) -> In c s.
Proof.
  unfold trim. intros H.
  apply In_drop_spaces, in_rev, In_drop_spaces, in_rev. exact H.
Qed.

Lemma join_without (c : N) (sep : jsstring) (lines : list jsstring) :
  ~ In c sep -> Forall (fun l => ~ In c l) lines -> ~ In c (join sep lines).
Proof.
  intros Hs. induction 1 as [|p lines Hp Hl IH]; [intros []|].
  destruct lines as [|q lines]; [exact Hp|].
  change (join sep (p :: q :: lines)) with (p ++ sep ++ join sep (q :: lines)).
  intros I. apply in_app_or in I as [I|I]; [contradiction|].
  apply in_app_or in I as [I|I]; contradiction.
Qed.

Lemma block_text_without_LF (block : jsstring) :
  Forall (fun l => ~ In LF l) (block_text block).
Proof.
  unfold block_text. destruct (_ <? 3); [constructor|].
  apply Forall_forall. intros l I. apply filter_In in I as [I _].
  apply in_map_iff in I as (x & <- & I).
  intros K. apply In_trim in K.
  pose proof (split_unit_without_separator LF (trim block)) as F.
  rewrite Forall_forall in F. apply (F x); [|exact K].
  rewrite <- (firstn_skipn 2 (split_unit LF (trim block))).
  apply in_or_app. right. exact I.
Qed.

(** [extractTextFromSRT] throws exactly on the values that are not strings
    and on the empty string.  The text it returns is on one line: it holds
    no line feed. *)
Theorem extractTextFromSRT_on_one_line (srtContent : value) :
  (forall e, extractTextFromSRT srtContent = Err e ->
             e = InvalidSRTContent
             /\ (is_string srtContent = false \/ srtContent = VStr []))
  /\ (is_string srtContent = false \/ srtContent = VStr [] ->
      extractTextFromSRT srtContent = Err InvalidSRTContent)
  /\ (forall text, extractTextFromSRT srtContent = Ok text -> ~ In LF text).
Proof.
  unfold extractTextFromSRT.
  destruct srtContent as [| |b|n|[|c s]| |s|o];
    cbn [falsy is_string negb orb]; rewrite ?orb_true_r.
  1-5, 7-9: split; [intros e H; inversion H; split; auto|];
       split; [reflexivity|intros text H; discriminate H].
  split; [intros e H; discriminate H|].
  split; [intros [H|H]; discriminate H|].
  intros text H. inversion H; subst text; clear H.
  apply join_without.
  - intros [E|[]]. discriminate E.
  - apply Forall_forall. intros l I. apply in_flat_map in I as (block & _ & I).
    pose proof (block_text_without_LF block) as F.
    rewrite Forall_forall in F. apply F. exact I.
Qed.

(** ** Texts without words *)

Lemma filter_none (f : Candidate -> bool) (l : list Candidate) :
  Forall (fun c => f c = false) l -> filter f l = [].
Proof.
  induction 1 as [|x l Hx _ IH]; cbn [filter]; [reflexivity|].
  rewrite Hx. exact IH.
Qed.

(** A text that is not blank and whose words all have a single unit scores
    0 for every language: no language is detected and nothing is
    suggested. *)
Theorem text_without_words_has_no_language
        (count_matches : pattern -> jsstring -> nat)
        (toLowerCase : jsstring -> jsstring) (s : jsstring) :
  s <> [] ->
  filter (fun word => 1 <? List.length word)
         (Regex.split Regex.eat_spaces (toLowerCase (text_after_extraction s))) = [] ->
  detectLanguage count_matches toLowerCase (VStr s) = Ok no_language.
Proof.
  intros Hne W. destruct s as [|c s]; [congruence|].
  rewrite detectLanguage_on_string. unfold result_on. cbv zeta.
  destruct (LanguageDetection.is_empty _); [reflexivity|].
  set (text := text_after_extraction (c :: s)) in *.
  assert (Z : Forall (fun c => confidence c = 0%Q)
                     (sort_by_confidence (candidates count_matches toLowerCase text))).
  { apply sort_by_confidence_Forall. unfold candidates. rewrite map_map.
    apply Forall_forall. intros x Hx. apply in_map_iff in Hx as (entry & <- & _).
    cbn [confidence fst snd]. unfold calculateLanguageScore.
    destruct (lookup (fst entry)); [|reflexivity].
    cbv zeta. rewrite W. reflexivity. }
  pose proof (candidates_not_nil count_matches toLowerCase text) as N.
  destruct (sort_by_confidence _) as [|top others]; [congruence|].
  rewrite filter_none.
  - inversion Z as [|? ? Zt _]; subst. rewrite Zt. reflexivity.
  - eapply Forall_impl; [|exact Z]. intros x Hx. cbn beta. rewrite Hx. reflexivity.
Qed.

(** The text [a b c]. *)
Lemma text_without_words_has_no_language_witness :
  detectLanguage SampleEngine.no_match SampleEngine.lower_case_text
                 (VStr (lit "a b c")) = Ok no_language.
Proof.
  apply (text_without_words_has_no_language
           SampleEngine.no_match SampleEngine.lower_case_text (lit "a b c")).
  - discriminate.
  - reflexivity.
Defined.

(** ** Language codes *)

Lemma table_entries_by_key :
  Forall (fun entry =>
            List.length (lit (fst entry)) = 2
            /\ entry_of (lit (fst entry)) = Some entry)
         LANGUAGE_PATTERNS.
Proof.
  unfold LANGUAGE_PATTERNS.
  repeat (apply Forall_cons; [split; reflexivity|]).
  apply Forall_nil.
Qed.

(** When lowering the case leaves the keys of the table as they are, the
    code of every language of a result is a valid language code, and
    [getLanguageName] gives the name the result carries. *)
Theorem detected_code_has_its_name
        (count_matches : pattern -> jsstring -> nat)
        (toLowerCase : jsstring -> jsstring) (s : jsstring) (r : DetectionResult) :
  (forall entry, In entry LANGUAGE_PATTERNS ->
                 toLowerCase (lit (fst entry)) = lit (fst entry)) ->
  detectLanguage count_matches toLowerCase (VStr s) = Ok r ->
  forall c,
    language r = Some c \/ In c (suggestions r) ->
    isValidLanguageCode toLowerCase (VStr (lit (code c))) = true
    /\ getLanguageName toLowerCase (VStr (lit (code c))) = Some (candidate_name c).
Proof.
  intros Lower H c Hc.
  assert (S : supported c).
  { destruct (detected_languages_are_supported_core
                count_matches toLowerCase s r H) as (A & B).
    destruct B as [B _].
    destruct Hc as [Hc|Hc]; [exact (A c Hc)|].
    rewrite Forall_forall in B. exact (B c Hc). }
  destruct S as (profile & I & N).
  pose proof table_entries_by_key as K. rewrite Forall_forall in K.
  destruct (K _ I) as [L E]. cbn [fst] in L, E.
  pose proof (Lower _ I) as Lw. cbn [fst] in Lw.
  assert (V : isValidLanguageCode toLowerCase (VStr (lit (code c))) = true).
  { unfold isValidLanguageCode, hasOwnProperty.
    rewrite Lw, L, E. reflexivity. }
  split; [exact V|].
  unfold getLanguageName. rewrite V. cbn [negb].
  rewrite Lw, E. cbn [option_map snd]. rewrite N.
  reflexivity.
Qed.

(** The engine of the samples maps every text to itself. *)
Lemma detected_code_has_its_name_witness :
  exists r c,
    detectLanguage SampleEngine.no_match SampleEngine.lower_case_text
                   (VStr (lit "the cat is on")) = Ok r
    /\ language r = Some c
    /\ getLanguageName SampleEngine.lower_case_text (VStr (lit (code c)))
       = Some (candidate_name c).
Proof.
  do 2 eexists. split; [vm_compute; reflexivity|]. split; [reflexivity|].
  refine (proj2 (detected_code_has_its_name
                   SampleEngine.no_match SampleEngine.lower_case_text
                   (lit "the cat is on") _ _ _ _ _)).
  - intros entry I. reflexivity.
  - vm_compute. reflexivity.
  - left. reflexivity.
Defined.

(** ** Encodings: ASCII *)

Import EncodingSpec.

Lemma byte_of_to_N (b : byte) : byte_of (Byte.to_N b) = b.
Proof. unfold byte_of. rewrite Byte.of_to_N. reflexivity. Qed.

Lemma map_byte_of_to_N (buf : Buffer) : map byte_of (map Byte.to_N buf) = buf.
Proof.
  rewrite map_map. rewrite <- (map_id buf) at 2.
  apply map_ext. intros b. apply byte_of_to_N.
Qed.

Lemma bytes_without_unit (c : N) (buf : Buffer) :
  (255 < c)%N -> includes_unit c (map Byte.to_N buf) = false.
Proof.
  intros H. unfold includes_unit. induction buf as [|b buf IH]; [reflexivity|].
  cbn [map existsb]. rewrite IH, orb_false_r.
  apply N.eqb_neq. pose proof (Byte.to_N_bounded b). lia.
Qed.

Lemma bytes_without_unit_below (buf : Buffer) :
  forallb is_ascii buf = true -> includes_unit A_TILDE (map Byte.to_N buf) = false.
Proof.
  unfold includes_unit. induction buf as [|b buf IH]; [reflexivity|].
  cbn [forallb map existsb]. intros H. apply andb_prop in H as [Hb H].
  rewrite (IH H), orb_false_r. unfold is_ascii in Hb. apply N.ltb_lt in Hb.
  apply N.eqb_neq. unfold A_TILDE. lia.
Qed.

Lemma decode_ascii (buf : Buffer) :
  forallb is_ascii buf = true -> Utf8.decode buf = map Byte.to_N buf.
Proof.
  unfold Utf8.decode. induction buf as [|b buf IH]; [reflexivity|].
  cbn [forallb map decode_from]. intros H. apply andb_prop in H as [Hb H].
  unfold is_ascii in Hb. apply N.ltb_lt in Hb.
  unfold step. cbn [needed initial]. unfold lead.
  replace (Byte.to_N b <=? 127)%N with true by (symmetry; apply N.leb_le; lia).
  cbn [app]. rewrite (IH H). reflexivity.
Qed.

Lemma decode_utf8_ascii (buf : Buffer) :
  forallb is_ascii buf = true -> decode_utf8 buf = map Byte.to_N buf.
Proof.
  intros H. unfold decode_utf8. rewrite (decode_ascii buf H).
  destruct buf as [|b buf]; [reflexivity|].
  cbn [map]. replace (Byte.to_N b =? BOM)%N with false; [reflexivity|].
  symmetry. apply N.eqb_neq. pose proof (Byte.to_N_bounded b). unfold BOM. lia.
Qed.

Lemma decode_windows1252_ascii (buf : Buffer) :
  forallb is_ascii buf = true -> decode_windows1252 buf = map Byte.to_N buf.
Proof.
  intros H. unfold decode_windows1252. apply map_ext_in. intros b I.
  rewrite forallb_forall in H. specialize (H b I).
  unfold is_ascii in H. apply N.ltb_lt in H.
  replace (128 <=? Byte.to_N b)%N with false; [reflexivity|].
  symmetry. apply N.leb_gt. exact H.
Qed.

Lemma encode_units_ascii (s : jsstring) :
  forallb (fun c => c <? 128)%N s = true -> encode_units s = s.
Proof.
  induction s as [|c s IH]; [reflexivity|].
  cbn [forallb]. intros H. apply andb_prop in H as [Hc H].
  pose proof Hc as Hc'. apply N.ltb_lt in Hc'.
  cbn [encode_units]. unfold is_high_surrogate, is_low_surrogate.
  replace (55296 <=? c)%N with false by (symmetry; apply N.leb_gt; lia).
  replace (56320 <=? c)%N with false by (symmetry; apply N.leb_gt; lia).
  cbn [andb]. unfold encode_code_point. rewrite Hc. cbn [app].
  rewrite (IH H). reflexivity.
Qed.

Lemma encode_ascii (buf : Buffer) :
  forallb is_ascii buf = true -> Utf8.encode (map Byte.to_N buf) = buf.
Proof.
  intros H. unfold Utf8.encode. rewrite encode_units_ascii.
  - apply map_byte_of_to_N.
  - rewrite forallb_forall in *. intros c I.
    apply in_map_iff in I as (b & <- & I). exact (H b I).
Qed.

Lemma ascii_without_BOM (buf : Buffer) :
  forallb is_ascii buf = true ->
  starts_with_bytes [0xEF; 0xBB; 0xBF]%N buf = false.
Proof.
  destruct buf as [|b buf]; [reflexivity|].
  cbn [forallb]. intros H. apply andb_prop in H as [Hb _].
  unfold is_ascii in Hb. apply N.ltb_lt in Hb.
  unfold starts_with_bytes. cbn [map startsWith].
  replace (239 =? Byte.to_N b)%N with false; [reflexivity|].
  symmetry. apply N.eqb_neq. lia.
Qed.

(** A buffer of ASCII bytes is detected as UTF-8.  It is converted to
    itself when no encoding is declared for it, when one of 'utf8',
    'windows-1252' and 'iso-8859-1' is, when the declared encoding is another
    one that reads these bytes as ASCII, and when the name declared is one
    that iconv-lite does not know (the buffer then comes back from the
    [catch] block). *)
Theorem ascii_buffer_is_unchanged (buf : Buffer) (declared : option encoding) :
  forallb is_ascii buf = true ->
  reads_bytes_as_units declared buf ->
  detectEncoding (Some buf) = utf8
  /\ convertToUTF8 (Some buf) declared = buf.
Proof.
  intros H R.
  assert (D : detectEncoding (Some buf) = utf8).
  { unfold detectEncoding. destruct buf as [|b buf]; [reflexivity|].
    destruct (starts_with_bytes _ _); [reflexivity|].
    destruct (_ || _); [reflexivity|].
    rewrite decode_utf8_ascii by exact H.
    rewrite bytes_without_unit by (unfold REPLACEMENT; lia). reflexivity. }
  split; [exact D|].
  assert (T : forall e, reads_bytes_as_units (Some e) buf ->
                        decode_as e buf = Some (map Byte.to_N buf)
                        \/ decode_as e buf = None).
  { intros [| | |decode|] Re; cbn [decode_as].
    - left. f_equal. apply decode_utf8_ascii. exact H.
    - left. f_equal. apply decode_windows1252_ascii. exact H.
    - left. reflexivity.
    - left. f_equal. exact Re.
    - right. reflexivity. }
  assert (S : reads_bytes_as_units
                (Some match declared with
                      | Some e => e
                      | None => detectEncoding (Some buf)
                      end) buf).
  { destruct declared as [e|]; [exact R|]. rewrite D. exact I. }
  apply T in S.
  unfold convertToUTF8. destruct buf as [|b buf]; [reflexivity|].
  destruct S as [E|E]; rewrite E.
  - rewrite fixDoubleEncodedUTF8_without_marker
      by (apply bytes_without_unit_below; exact H).
    unfold encode_utf8. rewrite encode_ascii by exact H.
    unfold strip_bom_bytes. rewrite ascii_without_BOM by exact H. reflexivity.
  - unfold strip_bom_bytes. rewrite ascii_without_BOM by exact H. reflexivity.
Qed.

(** The bytes of a lower-case text. *)
Lemma ascii_buffer_is_unchanged_witness :
  detectEncoding (Some [x68; x69]) = utf8
  /\ convertToUTF8 (Some [x68; x69]) (Some windows_1252) = [x68; x69].
Proof.
  apply (ascii_buffer_is_unchanged [x68; x69] (Some windows_1252));
    [reflexivity|exact I].
Defined.

(** An encoding that does not read ASCII bytes as ASCII changes the buffer:
    read two bytes a unit, [hi] becomes U+6968.  With a name that iconv-lite
    does not know, any buffer comes back as it is, without its byte order
    mark. *)
Example other_encodings_on_a_buffer :
  convertToUTF8 (Some [x68; x69]) (Some (other_encoding two_bytes_a_unit))
  = [xe6; xa5; xa8]
  /\ convertToUTF8 (Some [xef; xbb; xbf; xfc]) (Some unrecognized) = [xfc]
  /\ isValidEncoding [x68; x69] unrecognized = false.
Proof. repeat split. Qed.

(** ** Encodings: ISO-8859-1 *)

Lemma encode_latin1_text (buf : Buffer) :
  Utf8.encode (latin1_text buf) = flat_map utf8_of_byte buf.
Proof.
  unfold Utf8.encode, latin1_text.
  induction buf as [|b buf IH]; [reflexivity|].
  cbn [map encode_units flat_map].
  pose proof (Byte.to_N_bounded b) as B.
  unfold is_high_surrogate, is_low_surrogate.
  replace (55296 <=? Byte.to_N b)%N with false by (symmetry; apply N.leb_gt; lia).
  replace (56320 <=? Byte.to_N b)%N with false by (symmetry; apply N.leb_gt; lia).
  cbn [andb]. rewrite map_app, IH. reflexivity.
Qed.

Lemma decode_utf8_of_byte (b : byte) (rest : list N) :
  decode_from initial (map Byte.to_N (utf8_of_byte b) ++ rest)
  = Byte.to_N b :: decode_from initial rest.
Proof. destruct b; reflexivity. Qed.

Lemma decode_encode_latin1 (buf : Buffer) :
  Utf8.decode (flat_map utf8_of_byte buf) = latin1_text buf.
Proof.
  unfold Utf8.decode, latin1_text. induction buf as [|b buf IH]; [reflexivity|].
  cbn [flat_map map]. rewrite map_app, decode_utf8_of_byte, IH. reflexivity.
Qed.

Lemma latin1_text_not_BOM (buf : Buffer) (s : jsstring) :
  latin1_text buf = s ->
  match s with c :: s' => if (c =? BOM)%N then s' else c :: s' | [] => [] end = s.
Proof.
  intros <-. destruct buf as [|b buf]; [reflexivity|].
  unfold latin1_text. cbn [map].
  replace (Byte.to_N b =? BOM)%N with false; [reflexivity|].
  symmetry. apply N.eqb_neq. pose proof (Byte.to_N_bounded b). unfold BOM. lia.
Qed.

Lemma utf8_of_byte_not_BOM (b : byte) (rest : Buffer) :
  starts_with_bytes [0xEF; 0xBB; 0xBF]%N (utf8_of_byte b ++ rest) = false.
Proof. destruct b; reflexivity. Qed.

Lemma latin1_marker (buf : Buffer) :
  includes_unit A_TILDE (latin1_text buf) = existsb (Byte.eqb xc3) buf.
Proof.
  unfold includes_unit, latin1_text. induction buf as [|b buf IH]; [reflexivity|].
  cbn [map existsb]. rewrite IH. f_equal. destruct b; reflexivity.
Qed.

(** A buffer declared as ISO-8859-1 that holds no byte 0xC3 is converted to
    the UTF-8 bytes of its text: decoded as UTF-8, the result is the text
    of the buffer in ISO-8859-1, one character for each byte. *)
Theorem latin1_buffer_round_trip (buf : Buffer) :
  existsb (Byte.eqb xc3) buf = false ->
  Utf8.decode (convertToUTF8 (Some buf) (Some iso_8859_1)) = latin1_text buf.
Proof.
  intros H. unfold convertToUTF8.
  destruct buf as [|b buf]; [reflexivity|].
  cbn [decode_as]. change (decode_iso88591 (b :: buf)) with (latin1_text (b :: buf)).
  cbv zeta.
  rewrite fixDoubleEncodedUTF8_without_marker by (rewrite latin1_marker; exact H).
  unfold encode_utf8. rewrite encode_latin1_text.
  unfold strip_bom_bytes. cbn [flat_map]. rewrite utf8_of_byte_not_BOM.
  exact (decode_encode_latin1 (b :: buf)).
Qed.

(** [M\u00FCller] in ISO-8859-1. *)
Lemma latin1_buffer_round_trip_witness :
  Utf8.decode (convertToUTF8 (Some [x4d; xfc; x6c; x6c; x65; x72]) (Some iso_8859_1))
  = [77; 252; 108; 108; 101; 114]%N.
Proof.
  exact (latin1_buffer_round_trip [x4d; xfc; x6c; x6c; x65; x72] eq_refl).
Defined.

(** ** The repair of a misreading *)

Lemma encode_latin1_bytes (buf : Buffer) :
  encode_latin1 (map Byte.to_N buf) = buf.
Proof.
  unfold encode_latin1. rewrite map_map. rewrite <- (map_id buf) at 2.
  apply map_ext. intros b. pose proof (Byte.to_N_bounded b) as B.
  replace (Byte.to_N b <? 256)%N with true by (symmetry; apply N.ltb_lt; lia).
  apply byte_of_to_N.
Qed.

Lemma utf8_of_byte_length (b : byte) :
  (1 <= List.length (utf8_of_byte b))%nat
  /\ ((192 <=? Byte.to_N b)%N = true ->
      List.length (utf8_of_byte b) = 2%nat
      /\ hd x00 (utf8_of_byte b) = xc3).
Proof.
  destruct b; (split; [cbn; lia|]); intros H;
    try discriminate H; split; reflexivity.
Qed.

Lemma misreading_is_longer (buf : Buffer) :
  (List.length buf <= List.length (flat_map utf8_of_byte buf))%nat
  /\ (existsb (fun b => 192 <=? Byte.to_N b)%N buf = true ->
      (List.length buf < List.length (flat_map utf8_of_byte buf))%nat
      /\ existsb (Byte.eqb xc3) (flat_map utf8_of_byte buf) = true).
Proof.
  induction buf as [|b buf [IH1 IH2]]; [split; [reflexivity|discriminate]|].
  cbn [flat_map existsb List.length]. rewrite length_app, existsb_app.
  destruct (utf8_of_byte_length b) as [L1 L2].
  split; [lia|]. intros H.
  destruct (192 <=? Byte.to_N b)%N eqn:B.
  - destruct (L2 eq_refl) as [L3 L4]. split; [lia|].
    destruct (utf8_of_byte b) as [|x r]; [discriminate L3|].
    cbn [hd] in L4. subst x. reflexivity.
  - cbn [orb] in H. destruct (IH2 H) as [I1 I2]. split; [lia|].
    rewrite I2. apply orb_true_r.
Qed.

(** The repair undoes a misreading of a Latin-1 text: when the UTF-8 bytes
    of a text of characters up to U+00FF, with at least one of U+00C0 or
    above and none equal to U+00C3, were taken for ISO-8859-1,
    [fixDoubleEncodedUTF8] gives the text back. *)
Theorem repair_undoes_latin1_misreading (buf : Buffer) :
  existsb (fun b => 192 <=? Byte.to_N b)%N buf = true ->
  existsb (Byte.eqb xc3) buf = false ->
  fixDoubleEncodedUTF8 (misread_as_latin1 (latin1_text buf)) = latin1_text buf.
Proof.
  intros High Marker.
  unfold misread_as_latin1. rewrite encode_latin1_text.
  destruct (misreading_is_longer buf) as [_ M].
  destruct (M High) as [Longer Has].
  unfold fixDoubleEncodedUTF8, decode_iso88591.
  change (map Byte.to_N (flat_map utf8_of_byte buf))
    with (latin1_text (flat_map utf8_of_byte buf)).
  rewrite latin1_marker, Has. cbn [negb].
  assert (L : encode_latin1 (latin1_text (flat_map utf8_of_byte buf))
              = flat_map utf8_of_byte buf) by apply encode_latin1_bytes.
  assert (D : decode_utf8 (flat_map utf8_of_byte buf) = latin1_text buf).
  { unfold decode_utf8. rewrite decode_encode_latin1.
    apply (latin1_text_not_BOM buf). reflexivity. }
  rewrite L, D, latin1_marker, Marker, orb_false_r.
  destruct (str_eqb (latin1_text buf) (latin1_text (flat_map utf8_of_byte buf))) eqn:E;
    [|reflexivity].
  apply str_eqb_eq in E. apply (f_equal (@List.length N)) in E.
  unfold latin1_text in E. rewrite !length_map in E. lia.
Qed.

(** [M\u00C3\u00BCller], the misreading of [M\u00FCller]. *)
Lemma repair_undoes_latin1_misreading_witness :
  fixDoubleEncodedUTF8 [77; 195; 188; 108; 108; 101; 114]%N
  = [77; 252; 108; 108; 101; 114]%N.
Proof.
  exact (repair_undoes_latin1_misreading [x4d; xfc; x6c; x6c; x65; x72]
                                         eq_refl eq_refl).
Defined.

(** ** Validity and classification of a buffer *)

Lemma decode_windows1252_replacement (buf : Buffer) :
  includes_unit REPLACEMENT (decode_windows1252 buf) = existsb undefined_high buf.
Proof.
  unfold includes_unit, decode_windows1252.
  induction buf as [|b buf IH]; [reflexivity|].
  cbn [map existsb]. rewrite IH. f_equal. destruct b; reflexivity.
Qed.

(** Every buffer is valid ISO-8859-1; a buffer is valid windows-1252
    exactly when it holds none of the bytes 0x81, 0x8D, 0x8F, 0x90 and
    0x9D. *)
Theorem single_byte_validity (buf : Buffer) :
  isValidEncoding buf iso_8859_1 = true
  /\ isValidEncoding buf windows_1252 = negb (existsb undefined_high buf).
Proof.
  unfold isValidEncoding. cbn [decode_as]. split.
  - unfold decode_iso88591.
    rewrite bytes_without_unit by (unfold REPLACEMENT; lia). reflexivity.
  - rewrite decode_windows1252_replacement. reflexivity.
Qed.

(** A buffer that is valid UTF-8 is detected as UTF-8. *)
Theorem valid_utf8_is_detected (buf : Buffer) :
  isValidEncoding buf utf8 = true -> detectEncoding (Some buf) = utf8.
Proof.
  unfold isValidEncoding, detectEncoding. cbn [decode_as]. intros H.
  destruct buf as [|b buf]; [reflexivity|].
  destruct (starts_with_bytes _ _); [reflexivity|].
  destruct (_ || _); [reflexivity|].
  rewrite H. reflexivity.
Qed.

(** The two bytes of U+00E9 in UTF-8. *)
Lemma valid_utf8_is_detected_witness :
  isValidEncoding [xc3; xa9] utf8 = true
  /\ detectEncoding (Some [xc3; xa9]) = utf8.
Proof.
  split; [reflexivity|].
  exact (valid_utf8_is_detected [xc3; xa9] eq_refl).
Defined.

Lemma scan_byte_flags (st : counters) (b : byte) :
  hasHighBytes (scan_byte st b) = hasHighBytes st || negb (is_ascii b)
  /\ (0 <? windows1252Indicators (scan_byte st b))
     = (0 <? windows1252Indicators st) || defined_high b
  /\ (0 <? iso88591Indicators (scan_byte st b))
     = (0 <? iso88591Indicators st) || (160 <=? Byte.to_N b)%N.
Proof.
  destruct st as [h w i].
  destruct b; cbn; rewrite ?orb_true_r, ?orb_false_r; repeat split.
Qed.

Lemma scan_flags (buf : Buffer) :
  forall st,
    hasHighBytes (fold_left scan_byte buf st)
    = hasHighBytes st || existsb (fun b => negb (is_ascii b)) buf
    /\ (0 <? windows1252Indicators (fold_left scan_byte buf st))
       = (0 <? windows1252Indicators st) || existsb defined_high buf
    /\ (0 <? iso88591Indicators (fold_left scan_byte buf st))
       = (0 <? iso88591Indicators st) || existsb (fun b => 160 <=? Byte.to_N b)%N buf.
Proof.
  induction buf as [|b buf IH]; intros st; cbn [fold_left existsb].
  - rewrite !orb_false_r. repeat split.
  - destruct (IH (scan_byte st b)) as (H1 & H2 & H3).
    destruct (scan_byte_flags st b) as (S1 & S2 & S3).
    rewrite H1, H2, H3, S1, S2, S3, !orb_assoc. repeat split.
Qed.

Lemma high_byte_kinds (b : byte) :
  negb (is_ascii b) = defined_high b || undefined_high b || (160 <=? Byte.to_N b)%N.
Proof. destruct b; reflexivity. Qed.

Lemma not_ascii_exists (buf : Buffer) :
  existsb (fun b => negb (is_ascii b)) buf = false -> forallb is_ascii buf = true.
Proof.
  induction buf as [|b buf IH]; [reflexivity|].
  cbn [existsb forallb]. intros H. apply orb_false_elim in H as [Hb H].
  rewrite (IH H). destruct (is_ascii b); [reflexivity|discriminate Hb].
Qed.

Lemma high_bytes_above_A0 (buf : Buffer) :
  existsb (fun b => negb (is_ascii b)) buf = true ->
  existsb defined_high buf = false ->
  existsb undefined_high buf = false ->
  existsb (fun b => 160 <=? Byte.to_N b)%N buf = true.
Proof.
  induction buf as [|b buf IH]; [discriminate|].
  cbn [existsb]. intros H D U.
  apply orb_false_elim in D as [Db D]. apply orb_false_elim in U as [Ub U].
  rewrite (high_byte_kinds b), Db, Ub in H. cbn [orb] in H.
  destruct (160 <=? Byte.to_N b)%N; [reflexivity|]. cbn [orb] in *.
  apply IH; assumption.
Qed.

(** The classification of a buffer without byte order mark that is not
    UTF-8: windows-1252 when it holds a byte of 0x80-0x9F that windows-1252
    defines; otherwise ISO-8859-1 when it holds one of the five bytes that
    windows-1252 leaves undefined; otherwise windows-1252. *)
Theorem detectEncoding_of_single_byte_text (buf : Buffer) :
  no_BOM buf ->
  not_UTF8 buf ->
  detectEncoding (Some buf)
  = if existsb defined_high buf then windows_1252
    else if existsb undefined_high buf then iso_8859_1
    else windows_1252.
Proof.
  intros (B1 & B2 & B3) U. unfold not_UTF8 in U.
  assert (High : existsb (fun b => negb (is_ascii b)) buf = true).
  { destruct (existsb (fun b => negb (is_ascii b)) buf) eqn:E; [reflexivity|].
    apply not_ascii_exists in E.
    rewrite decode_utf8_ascii in U by exact E.
    rewrite bytes_without_unit in U by (unfold REPLACEMENT; lia). discriminate U. }
  destruct (scan_flags buf (mkCounters false 0 0)) as (F1 & F2 & F3).
  cbn [hasHighBytes windows1252Indicators iso88591Indicators] in F1, F2, F3.
  change (0 <? 0) with false in F2, F3. cbn [orb] in F1, F2, F3.
  unfold detectEncoding. destruct buf as [|b buf]; [discriminate High|].
  rewrite B1, B2, B3, U. cbn [orb negb].
  rewrite F1, High. cbn [negb]. rewrite F2.
  destruct (existsb defined_high (b :: buf)) eqn:D; [reflexivity|].
  rewrite F3, decode_windows1252_replacement.
  unfold decode_iso88591.
  rewrite bytes_without_unit by (unfold REPLACEMENT; lia).
  destruct (existsb undefined_high (b :: buf)) eqn:V.
  - destruct (existsb (fun b0 => 160 <=? Byte.to_N b0)%N (b :: buf)); reflexivity.
  - rewrite (high_bytes_above_A0 (b :: buf) High D V). reflexivity.
Qed.

(** [M\u00FCller] in ISO-8859-1 is classified windows-1252. *)
Lemma detectEncoding_of_single_byte_text_witness :
  detectEncoding (Some [x4d; xfc; x6c; x6c; x65; x72]) = windows_1252.
Proof.
  apply (detectEncoding_of_single_byte_text [x4d; xfc; x6c; x6c; x65; x72]).
  - repeat split; reflexivity.
  - reflexivity.
Defined.
